(** * autodE transition-state search: a shallow embedding

    The development follows three source files:
    - [autode/transition_states/base.py]   (imaginary-mode validation),
    - [autode/transition_states/locate_tss.py] (strategy pipeline),
    - [autode/reaction.py]                 (the Reaction container).

    Python floats are read over exact arithmetic (the reals of the Standard
    Library); Python exceptions are values of [Py.Result]. *)

From Stdlib Require Import List String Ascii Bool Arith ZArith Lia.
From Stdlib Require Import Reals Lra DecimalString.
Import ListNotations.

(* ------------------------------------------------------------------ *)
(** ** Python results and exceptions *)

Module Py.

Inductive exn : Type :=
| ValueError
| TypeError
| IndexError
| AttributeError
| NotImplementedError
| AtomsNotFound
| UnbalancedReaction
| SolventsDontMatch.

Inductive Result (A : Type) : Type :=
| Ok (a : A)
| Raise (e : exn).

Arguments Ok {A} a.
Arguments Raise {A} e.

Definition bind {A B : Type} (c : Result A) (k : A -> Result B) : Result B :=
  match c with
  | Ok a => k a
  | Raise e => Raise e
  end.

(** [l[i]] for a non-negative index. *)
Definition getitem {A : Type} (l : list A) (i : nat) : Result A :=
  match nth_error l i with
  | Some a => Ok a
  | None => Raise IndexError
  end.

End Py.

Import Py.

Declare Scope py_scope.
Delimit Scope py_scope with py.
Notation "x <- c ;; k" := (Py.bind c (fun x => k))
  (at level 61, c at next level, right associativity) : py_scope.

(* ------------------------------------------------------------------ *)
(** ** Geometry: numpy arrays of shape (n_atoms, 3) *)

Module Geom.

Local Open Scope R_scope.

Definition Vec3 : Type := (R * R * R)%type.
Definition Coords : Type := list Vec3.

Definition vadd (u v : Vec3) : Vec3 :=
  let '(a, b, c) := u in let '(x, y, z) := v in (a + x, b + y, c + z).

Definition vsub (u v : Vec3) : Vec3 :=
  let '(a, b, c) := u in let '(x, y, z) := v in (a - x, b - y, c - z).

Definition vscale (k : R) (v : Vec3) : Vec3 :=
  let '(x, y, z) := v in (k * x, k * y, k * z).

(** [np.linalg.norm] of one row. *)
Definition norm (v : Vec3) : R :=
  let '(x, y, z) := v in sqrt (x * x + y * y + z * z).

(** Row-wise binary operation on two arrays of the same shape.  Normal modes
    have the shape of the coordinates, [(n_atoms, 3)]
    (tests/test_hessian.py asserts it), so no broadcasting takes place. *)
Fixpoint map2 {A B C : Type} (f : A -> B -> C) (l : list A) (m : list B)
  : list C :=
  match l, m with
  | a :: l', b :: m' => f a b :: map2 f l' m'
  | _, _ => []
  end.

Definition arr_add (a b : Coords) : Coords := map2 vadd a b.
Definition arr_sub (a b : Coords) : Coords := map2 vsub a b.
Definition arr_scale (k : R) (a : Coords) : Coords := map (vscale k) a.

(** [np.linalg.norm(a, axis=1)] *)
Definition row_norms (a : Coords) : list R := map norm a.

(** [np.max] of a one-dimensional array; numpy raises ValueError on a
    zero-size array. *)
Definition np_max (l : list R) : Result R :=
  match l with
  | [] => Raise ValueError
  | x :: rest => Ok (fold_left Rmax rest x)
  end.

Definition Rltb (x y : R) : bool := if Rlt_dec x y then true else false.
Definition Rgtb (x y : R) : bool := Rltb y x.

End Geom.

Import Geom.

(* ------------------------------------------------------------------ *)
(** ** Data model *)

Record Atom : Type := mkAtom {
  label : string;
  coord : Vec3
}.

(** What a computed Hessian reports to the code under study: the normal mode
    of a given number (None when there is none) and the imaginary
    frequencies, most negative first (None when there are none). *)
Record Hessian : Type := mkHessian {
  h_normal_mode : nat -> option Coords;
  h_imaginary_frequencies : option (list R)
}.

Record Species : Type := mkSpecies {
  name : string;
  atoms : list Atom;
  charge : Z;
  mult : Z;
  energy : option R;
  hessian : option Hessian
}.

Definition Bond : Type := (nat * nat)%type.

Record BondRearrangement : Type := mkBondRearrangement {
  fbonds : list Bond;
  bbonds : list Bond
}.

Definition n_fbonds (br : BondRearrangement) : nat := List.length (fbonds br).
Definition n_bbonds (br : BondRearrangement) : nat := List.length (bbonds br).

(** [br.all]: forming then breaking bonds. *)
Definition all_bonds (br : BondRearrangement) : list Bond :=
  fbonds br ++ bbonds br.

(** Modelled from the spec: [BondRearrangement.active_atoms] is not among the
    sources; the spec defines it as all atoms touched by any pair. *)
Definition active_atoms (br : BondRearrangement) : list nat :=
  flat_map (fun b => [fst b; snd b]) (all_bonds br).

(** ** Species accessors (autode.species.Species is not among the sources) *)

Definition n_atoms (s : Species) : nat := List.length (atoms s).

Definition coordinates (s : Species) : Coords := map coord (atoms s).

(** [species.coordinates = arr] *)
Definition set_coordinates (s : Species) (cs : Coords) : Species :=
  mkSpecies (name s)
            (map2 (fun a c => mkAtom (label a) c) (atoms s) cs)
            (charge s) (mult s) (energy s) (hessian s).

Definition normal_mode (s : Species) (mode_number : nat) : option Coords :=
  match hessian s with
  | Some h => h_normal_mode h mode_number
  | None => None
  end.

Definition imaginary_frequencies (s : Species) : option (list R) :=
  match hessian s with
  | Some h => h_imaginary_frequencies h
  | None => None
  end.

(** [species.distance(i, j)] *)
Definition distance (s : Species) (i j : nat) : Result R :=
  (ci <- getitem (coordinates s) i ;;
   cj <- getitem (coordinates s) j ;;
   Ok (norm (vsub ci cj)))%py.

(* ------------------------------------------------------------------ *)
(** ** base.py: displaced_species_along_mode *)

Module Displace.

Local Open Scope R_scope.

(** The [for _ in range(20)] loop, with the number of remaining iterations as
    the structural argument. *)
Fixpoint shrink_loop (n : nat) (coords mode_disp_coords : Coords)
         (disp_factor max_atom_disp : R) (disp_coords : Coords)
  : Result Coords :=
  match n with
  | O => Ok disp_coords
  | S n' =>
      (m <- np_max (row_norms (arr_sub coords disp_coords)) ;;
       if Rlt_dec m max_atom_disp then Ok disp_coords
       else shrink_loop n' coords mode_disp_coords disp_factor max_atom_disp
              (arr_sub disp_coords
                       (arr_scale (disp_factor / 20) mode_disp_coords)))%py
  end.

Definition displaced_species_along_mode (species : Species)
           (mode_number : nat) (disp_factor max_atom_disp : R)
  : Result (option Species) :=
  match normal_mode species mode_number with
  | None => Ok None
  | Some mode_disp_coords =>
      let coords := coordinates species in
      let disp_coords :=
        arr_add coords (arr_scale disp_factor mode_disp_coords) in
      (disp_coords' <- shrink_loop 20 coords mode_disp_coords disp_factor
                         max_atom_disp disp_coords ;;
       let disp_species :=
         mkSpecies (name species ++ "_disp") (atoms species)
                   (charge species) (mult species) None None in
       Ok (Some (set_coordinates disp_species disp_coords')))%py
  end.

(** [k] backward steps of [disp_factor / 20] from the full displacement. *)
Fixpoint backward_steps (k : nat) (disp_factor : R) (mode : Coords)
         (disp : Coords) : Coords :=
  match k with
  | O => disp
  | S k' => backward_steps k' disp_factor mode
              (arr_sub disp (arr_scale (disp_factor / 20) mode))
  end.

(** [np.linalg.norm(coords - disp_coords, axis=1)] between two species. *)
Definition atom_displacements (s s' : Species) : list R :=
  row_norms (arr_sub (coordinates s) (coordinates s')).

(** Two atoms one unit apart with a stretching mode. *)
Definition h2_like : Species :=
  mkSpecies "h2"
            [mkAtom "H" (0, 0, 0); mkAtom "H" (1, 0, 0)]
            0%Z 1%Z None
            (Some (mkHessian (fun _ => Some [(1, 0, 0); (-1, 0, 0)]) None)).

End Displace.

(* ------------------------------------------------------------------ *)
(** ** base.py: the imaginary-mode validator *)

Module Base.

Import Displace.
Local Open Scope R_scope.

(** The collaborators of base.py that are not among the sources.
    [make_graph atoms rel_tolerance] is the edge list of the graph that
    [autode.mol_graphs.make_graph] attaches to a species;
    [run_hess_calculation] is what [_run_hess_calculation] leaves in
    [self.hessian]; [optimise] acts on a displaced molecule, [None] standing
    for a molecule whose atoms are unset. *)
Class ValidatorEnv : Type := {
  Complex : Type;
  Method : Type;
  get_hmethod : Method;
  get_lmethod : Method;
  metals : list string;
  min_imag_freq : R;
  make_graph : list Atom -> R -> list Bond;
  run_hess_calculation : Method -> Species -> option Hessian;
  populate_conformers : Complex -> Result Complex;
  optimise : Method -> option Species -> Result (option Species);
  species_are_isomorphic : Species -> Complex -> bool
}.

(** What the validator does besides computing its answer. *)
Inductive Event : Type :=
| HessianCalculation
| DisplacementCheck (delta_threshold : R) (req_all : bool)
| LinkCheck.

Definition no_displacement_check (log : list Event) : Prop :=
  forall t a, ~ In (DisplacementCheck t a) log.

(** Every edge joins atoms of the candidate. *)
Definition valid_edges (ts_atoms : list Atom) (edges : list Bond) : Prop :=
  forall e, In e edges ->
            (fst e < List.length ts_atoms)%nat /\
            (snd e < List.length ts_atoms)%nat.

Section Validator.

Context {env : ValidatorEnv}.

Record TSbase : Type := mkTSbase {
  species : Species;
  reactant : option Complex;
  product : option Complex;
  bond_rearrangement : option BondRearrangement
}.

Definition with_hessian (s : Species) (h : option Hessian) : Species :=
  mkSpecies (name s) (atoms s) (charge s) (mult s) (energy s) h.

Definition has_imaginary_frequencies (self : TSbase) : bool :=
  match imaginary_frequencies (species self) with
  | Some _ => true
  | None => false
  end.

(** [bond in graph.edges] for an undirected graph. *)
Definition edge_in (b : Bond) (edges : list Bond) : bool :=
  existsb (fun e => (Nat.eqb (fst e) (fst b) && Nat.eqb (snd e) (snd b))
                    || (Nat.eqb (fst e) (snd b) && Nat.eqb (snd e) (fst b)))
          edges.

Definition label_in_metals (l : string) : bool :=
  existsb (String.eqb l) metals.

(** [_ts.atoms[i].label not in metals and _ts.atoms[j].label not in metals] *)
Definition no_metal (ts_atoms : list Atom) (b : Bond) : Result bool :=
  (ai <- getitem ts_atoms (fst b) ;;
   if label_in_metals (label ai) then Ok false
   else aj <- getitem ts_atoms (snd b) ;;
        Ok (negb (label_in_metals (label aj))))%py.

Fixpoint filter_res {A : Type} (p : A -> Result bool) (l : list A)
  : Result (list A) :=
  match l with
  | [] => Ok []
  | a :: l' =>
      (keep <- p a ;;
       rest <- filter_res p l' ;;
       Ok (if keep then a :: rest else rest))%py
  end.

Definition bond_atoms (bonds : list Bond) : list nat :=
  flat_map (fun b => [fst b; snd b]) bonds.

Definition issubset (xs ys : list nat) : bool :=
  forallb (fun a => existsb (Nat.eqb a) ys) xs.

(** The body of the [for product in (f_species, b_species)] loop of
    [imag_mode_generates_other_bonds]: does this product have a new bond
    with an atom that is not active? *)
Definition product_has_other_bonds (ts_atoms : list Atom)
           (ts_edges : list Bond) (br : option BondRearrangement)
           (allow_mx : bool) (product_edges : list Bond) : Result bool :=
  let new_bonds_in_product :=
    filter (fun bond => negb (edge_in bond ts_edges)) product_edges in
  (new_bonds_in_product <-
     (if allow_mx then filter_res (no_metal ts_atoms) new_bonds_in_product
      else Ok new_bonds_in_product) ;;
   match br with
   | None => Raise AttributeError
   | Some br =>
       Ok (negb (issubset (bond_atoms new_bonds_in_product)
                          (active_atoms br)))
   end)%py.

Definition imag_mode_generates_other_bonds (ts : TSbase)
           (f_species b_species : option Species) (allow_mx : bool)
  : Result bool :=
  match f_species, b_species with
  | Some f, Some b =>
      let ts_atoms := atoms (species ts) in
      let ts_edges := make_graph ts_atoms (3 / 10) in
      let f_edges := make_graph (atoms f) (3 / 10) in
      let b_edges := make_graph (atoms b) (3 / 10) in
      (other_f <- product_has_other_bonds ts_atoms ts_edges
                    (bond_rearrangement ts) allow_mx f_edges ;;
       if other_f then Ok true
       else
         other_b <- product_has_other_bonds ts_atoms ts_edges
                      (bond_rearrangement ts) allow_mx b_edges ;;
         if other_b then Ok true else Ok false)%py
  | _, _ => Raise AttributeError
  end.

Fixpoint map_res {A B : Type} (f : A -> Result B) (l : list A)
  : Result (list B) :=
  match l with
  | [] => Ok []
  | a :: l' => (b <- f a ;; rest <- map_res f l' ;; Ok (b :: rest))%py
  end.

Definition fbond_correct_disp (self product : Species)
           (delta_threshold : R) (fbond : Bond) : Result bool :=
  (ts_dist <- distance self (fst fbond) (snd fbond) ;;
   p_dist <- distance product (fst fbond) (snd fbond) ;;
   Ok (Rgtb (ts_dist - p_dist) delta_threshold))%py.

Definition bbond_correct_disp (self product : Species)
           (delta_threshold : R) (bbond : Bond) : Result bool :=
  (ts_dist <- distance self (fst bbond) (snd bbond) ;;
   p_dist <- distance product (fst bbond) (snd bbond) ;;
   Ok (Rgtb (p_dist - ts_dist) delta_threshold))%py.

(** The loop [for product in (f_species, b_species)] of
    [imag_mode_has_correct_displacement]; falling off the list is the final
    [return False]. *)
Fixpoint correct_disp_loop (self : Species) (br : BondRearrangement)
         (delta_threshold : R) (req_all : bool) (products : list Species)
  : Result bool :=
  match products with
  | [] => Ok false
  | product :: rest =>
      (fs <- map_res (fbond_correct_disp self product delta_threshold)
                     (fbonds br) ;;
       bs <- map_res (bbond_correct_disp self product delta_threshold)
                     (bbonds br) ;;
       let fbond_bbond_correct_disps := fs ++ bs in
       if forallb (fun b => b) fbond_bbond_correct_disps && req_all
       then Ok true
       else if negb req_all && existsb (fun b => b) fbond_bbond_correct_disps
            then Ok true
            else correct_disp_loop self br delta_threshold req_all rest)%py
  end.

Definition imag_mode_has_correct_displacement (self : TSbase)
           (disp_mag delta_threshold : R) (req_all : bool) : Result bool :=
  (f_species <- displaced_species_along_mode (species self) 6 disp_mag
                  (1 / 2) ;;
   b_species <- displaced_species_along_mode (species self) 6 (- disp_mag)
                  (1 / 2) ;;
   other <- imag_mode_generates_other_bonds self f_species b_species true ;;
   if other then Ok false
   else
     match f_species, b_species, bond_rearrangement self with
     | Some f, Some b, Some br =>
         correct_disp_loop (species self) br delta_threshold req_all [f; b]
     | _, _, _ => Raise AttributeError
     end)%py.

(** Outcome of a validator call: the result, the candidate as the call left
    it (the Hessian may have been computed), and what was done. *)
Definition Run (A : Type) : Type := (Result A * TSbase * list Event)%type.

Definition could_have_correct_imag_mode (self : TSbase) : Run bool :=
  match bond_rearrangement self with
  | None => (Raise ValueError, self, [])
  | Some _ =>
      let '(self, log) :=
        match hessian (species self) with
        | None =>
            (mkTSbase (with_hessian (species self)
                         (run_hess_calculation get_hmethod (species self)))
                      (reactant self) (product self)
                      (bond_rearrangement self),
             [HessianCalculation])
        | Some _ => (self, [])
        end in
      match imaginary_frequencies (species self) with
      | None => (Ok false, self, log)
      | Some imag_freqs =>
          match getitem imag_freqs 0 with
          | Raise e => (Raise e, self, log)
          | Ok freq0 =>
              if Rgtb freq0 min_imag_freq then (Ok false, self, log)
              else
                let log := log ++ [DisplacementCheck (5 / 100) false] in
                match imag_mode_has_correct_displacement self 1 (5 / 100)
                                                          false with
                | Raise e => (Raise e, self, log)
                | Ok true => (Ok true, self, log)
                | Ok false => (Ok false, self, log)
                end
          end
      end
  end.

Definition f_b_isomorphic_to_r_p (forwards backwards : option Species)
           (reactant product : Complex) : bool :=
  match forwards, backwards with
  | Some forwards, Some backwards =>
      if species_are_isomorphic backwards reactant
         && species_are_isomorphic forwards product
      then true
      else if species_are_isomorphic forwards reactant
              && species_are_isomorphic backwards product
           then true
           else false
  | _, _ => false
  end.

(** [mol.optimise(...)] under [try ... except AtomsNotFound: return False];
    [inl false] is that early return. *)
Definition optimise_or_no_link (method : Method) (mol : option Species)
  : Result (bool + option Species) :=
  match optimise method mol with
  | Ok mol' => Ok (inr mol')
  | Raise AtomsNotFound => Ok (inl false)
  | Raise e => Raise e
  end.

(** The loop [for method in (get_hmethod(), get_lmethod())]. *)
Fixpoint links_loop (methods : list Method) (f_mol b_mol : option Species)
         (reactant product : Complex) : Result bool :=
  match methods with
  | [] => Ok false
  | method :: rest =>
      (rf <- optimise_or_no_link method f_mol ;;
       match rf with
       | inl r => Ok r
       | inr f_mol =>
           rb <- optimise_or_no_link method b_mol ;;
           match rb with
           | inl r => Ok r
           | inr b_mol =>
               if f_b_isomorphic_to_r_p f_mol b_mol reactant product
               then Ok true
               else links_loop rest f_mol b_mol reactant product
           end
       end)%py
  end.

(** [try: reactant.populate_conformers(); product.populate_conformers()
     except NotImplementedError: ...] *)
Definition populate_both (reactant product : Complex)
  : Result (Complex * Complex) :=
  match populate_conformers reactant with
  | Raise NotImplementedError => Ok (reactant, product)
  | Raise e => Raise e
  | Ok reactant' =>
      match populate_conformers product with
      | Raise NotImplementedError => Ok (reactant', product)
      | Raise e => Raise e
      | Ok product' => Ok (reactant', product')
      end
  end.

Definition rename (s : Species) (n : string) : Species :=
  mkSpecies n (atoms s) (charge s) (mult s) (energy s) (hessian s).

Definition imag_mode_links_reactant_products (self : TSbase) (disp_mag : R)
  : Result bool :=
  match reactant self, product self with
  | Some r, Some p =>
      (rp <- populate_both r p ;;
       f_mol <- displaced_species_along_mode (species self) 6 disp_mag
                  (2 / 10) ;;
       match f_mol with
       | None => Raise AttributeError
       | Some f_mol =>
           let f_mol := rename f_mol (name (species self) ++ "_forwards") in
           b_mol <- displaced_species_along_mode (species self) 6
                      (- disp_mag) (2 / 10) ;;
           match b_mol with
           | None => Raise AttributeError
           | Some b_mol =>
               let b_mol :=
                 rename b_mol (name (species self) ++ "_backwards") in
               links_loop [get_hmethod; get_lmethod] (Some f_mol)
                          (Some b_mol) (fst rp) (snd rp)
           end
       end)%py
  | _, _ => Raise ValueError
  end.

Definition has_correct_imag_mode (self : TSbase) : Run bool :=
  match could_have_correct_imag_mode self with
  | (Ok true, self, log) =>
      let log := log ++ [DisplacementCheck (3 / 10) true] in
      match imag_mode_has_correct_displacement self 1 (3 / 10) true with
      | Raise e => (Raise e, self, log)
      | Ok true => (Ok true, self, log)
      | Ok false =>
          let log := log ++ [LinkCheck] in
          match imag_mode_links_reactant_products self 1 with
          | Raise e => (Raise e, self, log)
          | Ok true => (Ok true, self, log)
          | Ok false => (Ok false, self, log)
          end
      end
  | (Ok false, self, log) => (Ok false, self, log)
  | (Raise e, self, log) => (Raise e, self, log)
  end.

End Validator.

Arguments TSbase {env}.

End Base.

(* ------------------------------------------------------------------ *)
(** ** A small concrete setting for the validator

    Three atoms on the x axis, Cl(0) - C(1) ... F(2).  The graph oracle bonds
    two atoms when they are closer than [1.3 * (1 + rel_tolerance)]
    (compared on squared distances); the only imaginary mode moves the
    carbon along the axis. *)

Module Sn2Example.

Import Base.
Local Open Scope R_scope.

Definition sq_dist (a b : Vec3) : R :=
  let '(x, y, z) := vsub a b in x * x + y * y + z * z.

Definition close_enough (rel_tolerance : R) (a b : Atom) : bool :=
  let cutoff := 13 / 10 * (1 + rel_tolerance) in
  Rltb (sq_dist (coord a) (coord b)) (cutoff * cutoff).

Fixpoint bonds_from (rel_tolerance : R) (i : nat) (ai : Atom) (j : nat)
         (others : list Atom) : list Bond :=
  match others with
  | [] => []
  | aj :: others' =>
      (if close_enough rel_tolerance ai aj then [(i, j)] else [])
        ++ bonds_from rel_tolerance i ai (S j) others'
  end.

Fixpoint cutoff_graph_from (rel_tolerance : R) (i : nat) (l : list Atom)
  : list Bond :=
  match l with
  | [] => []
  | a :: l' => bonds_from rel_tolerance i a (S i) l'
                 ++ cutoff_graph_from rel_tolerance (S i) l'
  end.

Definition cutoff_graph (l : list Atom) (rel_tolerance : R) : list Bond :=
  cutoff_graph_from rel_tolerance 0 l.

#[export] Instance sn2_env : ValidatorEnv := {|
  Complex := Species;
  Method := string;
  get_hmethod := "hmethod"%string;
  get_lmethod := "lmethod"%string;
  metals := ["Fe"; "Zn"; "Pd"]%string;
  min_imag_freq := -40;
  make_graph := cutoff_graph;
  run_hess_calculation := fun _ _ => None;
  populate_conformers := fun c => Ok c;
  optimise := fun _ mol => Ok mol;
  species_are_isomorphic := fun _ _ => false
|}.

Definition sn2_mode : Coords := [(0, 0, 0); (4 / 10, 0, 0); (0, 0, 0)].

Definition sn2_hessian : Hessian :=
  mkHessian (fun n => if Nat.eqb n 6 then Some sn2_mode else None)
            (Some [-500]).

Definition sn2_species : Species :=
  mkSpecies "ts"
            [mkAtom "Cl" (0, 0, 0); mkAtom "C" (15 / 10, 0, 0);
             mkAtom "F" (4, 0, 0)]
            (-1)%Z 1%Z None (Some sn2_hessian).

(** Only the forming bond C-F is declared; Cl is not an active atom. *)
Definition sn2_rearrangement : BondRearrangement :=
  mkBondRearrangement [(1, 2)%nat] [].

Definition sn2_ts : TSbase :=
  mkTSbase sn2_species None None (Some sn2_rearrangement).

(** The same geometry with no rearrangement, reactant or product attached. *)
Definition bare_ts : TSbase := mkTSbase sn2_species None None None.

(** A candidate whose only imaginary frequency is too small. *)
Definition noisy_ts : TSbase :=
  mkTSbase (with_hessian sn2_species
              (Some (mkHessian (h_normal_mode sn2_hessian) (Some [-10]))))
           None None (Some sn2_rearrangement).

End Sn2Example.

(** The example candidate displaced forwards and backwards along its mode. *)

Module Sn2Displaced.

Local Open Scope R_scope.

Definition sn2_forward : Species :=
  mkSpecies "ts_disp"
            [mkAtom "Cl" (0, 0, 0); mkAtom "C" (19 / 10, 0, 0);
             mkAtom "F" (4, 0, 0)]
            (-1)%Z 1%Z None None.

Definition sn2_backward : Species :=
  mkSpecies "ts_disp"
            [mkAtom "Cl" (0, 0, 0); mkAtom "C" (11 / 10, 0, 0);
             mkAtom "F" (4, 0, 0)]
            (-1)%Z 1%Z None None.

End Sn2Displaced.

(* ------------------------------------------------------------------ *)
(** ** Strings: f-string pieces and name suffixes *)

Module Str.

Local Open Scope string_scope.

(** [str(n)] for a non-negative int. *)
Definition of_nat (n : nat) : string :=
  DecimalString.NilEmpty.string_of_uint (Nat.to_uint n).

(** ["+".join(names)] *)
Definition join (sep : string) (l : list string) : string :=
  String.concat sep l.

Fixpoint rev_onto (s acc : string) : string :=
  match s with
  | EmptyString => acc
  | String c s' => rev_onto s' (String c acc)
  end.

Definition rev (s : string) : string := rev_onto s EmptyString.

(** [s.endswith(suffix)] *)
Definition ends_with (suffix s : string) : bool :=
  String.prefix (rev suffix) (rev s).

End Str.

(* ------------------------------------------------------------------ *)
(** ** Molecules and reaction types (autode.molecule, autode.reactions) *)

(** Modelled from the spec: the solvent class is not among the sources; two
    solvents are equal when they have the same name. *)
Definition Solvent : Type := string.

Inductive MoleculeKind : Type := IsReactant | IsProduct | IsMolecule.

Record Molecule : Type := mkMolecule {
  mol_name : string;
  mol_kind : MoleculeKind;
  mol_n_atoms : nat;
  mol_charge : Z;
  mol_solvent : option Solvent;
  mol_energy : option R;
  mol_n_edges : nat
}.

Inductive ReactionType : Type :=
| Addition
| Dissociation
| Substitution
| Elimination
| Rearrangement.

Definition is_substitution_or_elimination (t : ReactionType) : bool :=
  match t with
  | Substitution | Elimination => true
  | _ => false
  end.

(** [any(mol.charge != 0 for mol in mols)] *)
Definition any_charged (mols : list Molecule) : bool :=
  existsb (fun mol => negb (Z.eqb (mol_charge mol) 0)) mols.

(* ------------------------------------------------------------------ *)
(** ** locate_tss.py: the strategy generator *)

Module Locate.

Local Open Scope R_scope.

(** Types owned by collaborators that are not among the sources. *)
Class PipelineTypes : Type := {
  Complex : Type;
  Method : Type;
  Keywords : Type;
  TSGuess : Type;
  TransitionState : Type;
  SubstitutionCentre : Type
}.

Inductive TSGuessFunc : Type :=
| get_template_ts_guess
| get_ts_guess_1d
| get_ts_guess_2d.

Section Pipeline.

Context {types : PipelineTypes}.

(** One positional argument of a guess function. *)
Inductive Param : Type :=
| PComplex (c : Complex)
| PBondRearr (br : BondRearrangement)
| PMethod (m : Method)
| PKeywords (k : Keywords)
| PBond (b : Bond)
| PInt (n : nat)
| PStr (s : string)
| PFloat (x : R).

(** What the generator yields: [func, params]. *)
Definition Strategy : Type := (TSGuessFunc * list Param)%type.

Record Reaction : Type := mkReaction {
  rxn_name : string;
  reacs : list Molecule;
  prods : list Molecule;
  rxn_type : ReactionType;
  rxn_solvent : option Solvent;
  rxn_charge : option Z;
  ts : option TransitionState;
  tss : option (list TransitionState);
  switched_reacs_prods : bool
}.

(** The collaborators of locate_tss.py and reaction.py.  Bond indices of a
    rearrangement are atom indices of the complexes it was enumerated for,
    so [atom_label c i] stands for [c.atoms[i].label].  [minimize i ...] is
    the outcome [(res.fun, res.x)] of the [i]-th randomly started
    minimisation of the pose cost. *)
Class PipelineEnv : Type := {
  ReactantComplex : list Molecule -> Complex;
  ProductComplex : list Molecule -> Complex;
  n_molecules : Complex -> nat;
  get_distance : Complex -> nat -> nat -> R;
  atom_label : Complex -> nat -> string;
  get_atom_indexes : Complex -> nat -> list nat;
  rotate_mol : Complex -> list R -> R -> nat -> Complex;
  translate_mol : Complex -> list R -> nat -> Complex;
  get_avg_bond_length : string -> string -> R;
  get_lmethod : Method;
  get_hmethod : Method;
  low_opt : Method -> Keywords;
  opt : Method -> Keywords;
  get_bond_rearrangs :
    Complex -> Complex -> string -> option (list BondRearrangement);
  get_substitution_centres :
    Complex -> BondRearrangement -> R -> list SubstitutionCentre;
  a_atom : SubstitutionCentre -> nat;
  minimize :
    nat -> Complex -> list SubstitutionCentre -> nat -> R * list R;
  is_worth_truncating : Complex -> BondRearrangement -> bool;
  get_truncated_complex : Complex -> BondRearrangement -> Complex;
  call_guess : TSGuessFunc -> list Param -> option TSGuess;
  guess_could_have_correct_imag_mode :
    TSGuess -> BondRearrangement -> bool;
  new_TransitionState : TSGuess -> BondRearrangement -> TransitionState;
  opt_ts : TransitionState -> TransitionState;
  is_true_ts : TransitionState -> bool;
  ts_energy : TransitionState -> option R;
  make_ts_template : bool;
  classify : list Molecule -> list Molecule -> ReactionType;
  get_solvent : string -> option Solvent
}.

Context {env : PipelineEnv}.

Definition get_added_bbond_dist (reaction : Reaction) : R :=
  if any_charged (prods reaction) then 25 / 10 else 15 / 10.

(** [bonds[i]], read only where the guards of the generator make the index
    valid. *)
Definition bond_at (bonds : list Bond) (i : nat) : Bond :=
  nth i bonds (0%nat, 0%nat).

(** [f'_{b[0]}-{b[1]}'] *)
Definition bond_tag (b : Bond) : string :=
  ("_" ++ Str.of_nat (fst b) ++ "-" ++ Str.of_nat (snd b))%string.

Definition avg_bond_length_of (reactant : Complex) (b : Bond) : R :=
  get_avg_bond_length (atom_label reactant (fst b))
                      (atom_label reactant (snd b)).

Section Generator.

Variables (reaction : Reaction) (reactant product : Complex)
          (bond_rearr : BondRearrangement).

Definition strategy_name : string :=
  (rxn_name reaction ++ "_"
   ++ Str.join "+" (map mol_name (reacs reaction)) ++ "--"
   ++ Str.join "+" (map mol_name (prods reaction)))%string.

Let lmethod : Method := get_lmethod.
Let hmethod : Method := get_hmethod.

(** line 72 *)
Definition template_strategy : list Strategy :=
  [(get_template_ts_guess,
    [PComplex reactant; PComplex product; PBondRearr bond_rearr;
     PMethod hmethod; PKeywords (low_opt hmethod)])].

(** lines 75-91 *)
Definition sn2_like_strategies : list Strategy :=
  if Nat.eqb (n_bbonds bond_rearr) 1 && Nat.eqb (n_fbonds bond_rearr) 1
     && is_substitution_or_elimination (rxn_type reaction)
  then
    let bbond := bond_at (bbonds bond_rearr) 0 in
    let fbond := bond_at (fbonds bond_rearr) 0 in
    let scan_name :=
      (strategy_name ++ bond_tag fbond ++ bond_tag bbond)%string in
    let bbond_final_dist :=
      get_distance reactant (fst bbond) (snd bbond)
      + get_added_bbond_dist reaction in
    let fbond_final_dist := avg_bond_length_of reactant fbond in
    [(get_ts_guess_2d,
      [PComplex reactant; PComplex product; PBond fbond; PBond bbond;
       PInt 12; PStr (scan_name ++ "_ll2d"); PMethod lmethod;
       PKeywords (low_opt lmethod); PFloat fbond_final_dist;
       PFloat bbond_final_dist]);
     (get_ts_guess_1d,
      [PComplex reactant; PComplex product; PBond bbond; PInt 12;
       PStr (scan_name ++ "_hl1d_bbond"); PMethod hmethod;
       PKeywords (low_opt hmethod); PFloat bbond_final_dist]);
     (get_ts_guess_1d,
      [PComplex reactant; PComplex product; PBond bbond; PInt 12;
       PStr (scan_name ++ "_hl1d_opt_level_bbond"); PMethod hmethod;
       PKeywords (opt hmethod); PFloat bbond_final_dist])]
  else [].

(** lines 93-103 *)
Definition fbond_1d_strategies : list Strategy :=
  if Nat.ltb 0 (n_bbonds bond_rearr) && Nat.eqb (n_fbonds bond_rearr) 1
  then
    let fbond := bond_at (fbonds bond_rearr) 0 in
    let scan_name := (strategy_name ++ bond_tag fbond)%string in
    let fbond_final_dist := avg_bond_length_of reactant fbond in
    [(get_ts_guess_1d,
      [PComplex reactant; PComplex product; PBond fbond; PInt 10;
       PStr (scan_name ++ "_hl1d_fbond"); PMethod hmethod;
       PKeywords (low_opt hmethod); PFloat fbond_final_dist]);
     (get_ts_guess_1d,
      [PComplex reactant; PComplex product; PBond fbond; PInt 12;
       PStr (scan_name ++ "_hl1d_opt_level_fbond"); PMethod hmethod;
       PKeywords (opt hmethod); PFloat fbond_final_dist])]
  else [].

(** lines 105-118: the body of the two nested loops *)
Definition pair_2d_strategies (fbond bbond : Bond) : list Strategy :=
  let scan_name :=
    (strategy_name ++ bond_tag fbond ++ bond_tag bbond)%string in
  let fbond_final_dist := avg_bond_length_of reactant fbond in
  let bbond_final_dist :=
    get_distance reactant (fst bbond) (snd bbond)
    + get_added_bbond_dist reaction in
  [(get_ts_guess_2d,
    [PComplex reactant; PComplex product; PBond fbond; PBond bbond;
     PInt 12; PStr (scan_name ++ "_ll2d"); PMethod lmethod;
     PKeywords (low_opt lmethod); PFloat fbond_final_dist;
     PFloat bbond_final_dist]);
   (get_ts_guess_2d,
    [PComplex reactant; PComplex product; PBond fbond; PBond bbond;
     PInt 8; PStr (scan_name ++ "_hl2d"); PMethod hmethod;
     PKeywords (low_opt hmethod); PFloat fbond_final_dist;
     PFloat bbond_final_dist; PInt 3])].

Definition all_pairs_2d_strategies : list Strategy :=
  if Nat.leb 1 (n_bbonds bond_rearr) && Nat.leb 1 (n_fbonds bond_rearr)
  then
    flat_map (fun fbond =>
                flat_map (fun bbond => pair_2d_strategies fbond bbond)
                         (bbonds bond_rearr))
             (fbonds bond_rearr)
  else [].

(** lines 120-129 *)
Definition bbond_1d_strategies : list Strategy :=
  if Nat.eqb (n_bbonds bond_rearr) 1 && Nat.eqb (n_fbonds bond_rearr) 0
  then
    let bbond := bond_at (bbonds bond_rearr) 0 in
    let scan_name := (strategy_name ++ bond_tag bbond)%string in
    let bbond_final_dist :=
      get_distance reactant (fst bbond) (snd bbond)
      + get_added_bbond_dist reaction in
    [(get_ts_guess_1d,
      [PComplex reactant; PComplex product; PBond bbond; PInt 12;
       PStr (scan_name ++ "_hl1d"); PMethod hmethod;
       PKeywords (low_opt hmethod); PFloat bbond_final_dist]);
     (get_ts_guess_1d,
      [PComplex reactant; PComplex product; PBond bbond; PInt 12;
       PStr (scan_name ++ "_hl1d_opt_level"); PMethod hmethod;
       PKeywords (opt hmethod); PFloat bbond_final_dist])]
  else [].

(** lines 131-144 *)
Definition two_fbonds_strategies : list Strategy :=
  if Nat.eqb (n_fbonds bond_rearr) 2
  then
    let fbond1 := bond_at (fbonds bond_rearr) 0 in
    let fbond2 := bond_at (fbonds bond_rearr) 1 in
    let scan_name :=
      (strategy_name ++ bond_tag fbond1 ++ bond_tag fbond2)%string in
    let fbond_final_dist1 := avg_bond_length_of reactant fbond1 in
    let fbond_final_dist2 := avg_bond_length_of reactant fbond2 in
    [(get_ts_guess_2d,
      [PComplex reactant; PComplex product; PBond fbond1; PBond fbond2;
       PInt 12; PStr (scan_name ++ "_ll2d_fbonds"); PMethod lmethod;
       PKeywords (low_opt lmethod); PFloat fbond_final_dist1;
       PFloat fbond_final_dist2]);
     (get_ts_guess_2d,
      [PComplex reactant; PComplex product; PBond fbond1; PBond fbond2;
       PInt 8; PStr (scan_name ++ "_hl2d_fbonds"); PMethod hmethod;
       PKeywords (low_opt hmethod); PFloat fbond_final_dist1;
       PFloat fbond_final_dist2; PInt 3])]
  else [].

(** lines 146-157; both final distances are read between the first atom
    of [bbond1] and the second atom of [bbond2], as in the source. *)
Definition two_bbonds_strategies : list Strategy :=
  if Nat.eqb (n_bbonds bond_rearr) 2
  then
    let bbond1 := bond_at (bbonds bond_rearr) 0 in
    let bbond2 := bond_at (bbonds bond_rearr) 1 in
    let scan_name :=
      (strategy_name ++ bond_tag bbond1 ++ bond_tag bbond2)%string in
    let bbond1_final_dist :=
      get_distance reactant (fst bbond1) (snd bbond2)
      + get_added_bbond_dist reaction + get_added_bbond_dist reaction in
    let bbond2_final_dist :=
      get_distance reactant (fst bbond1) (snd bbond2)
      + get_added_bbond_dist reaction + get_added_bbond_dist reaction in
    [(get_ts_guess_2d,
      [PComplex reactant; PComplex product; PBond bbond1; PBond bbond2;
       PInt 12; PStr (scan_name ++ "_ll2d_bbonds"); PMethod lmethod;
       PKeywords (low_opt lmethod); PFloat bbond1_final_dist;
       PFloat bbond2_final_dist]);
     (get_ts_guess_2d,
      [PComplex reactant; PComplex product; PBond bbond1; PBond bbond2;
       PInt 8; PStr (scan_name ++ "_hl2d_bbonds"); PMethod hmethod;
       PKeywords (low_opt hmethod); PFloat bbond1_final_dist;
       PFloat bbond2_final_dist; PInt 3])]
  else [].

(** The generator, as the sequence of what it yields. *)
Definition get_ts_guess_function_and_params : list Strategy :=
  template_strategy
    ++ sn2_like_strategies
    ++ fbond_1d_strategies
    ++ all_pairs_2d_strategies
    ++ bbond_1d_strategies
    ++ two_fbonds_strategies
    ++ two_bbonds_strategies.

End Generator.

(** ** locate_tss.py: orienting the reactant *)

(** [min_cost, opt_x] over the runs, a later run replacing the best one only
    when its cost is strictly lower. *)
Fixpoint best_run (runs : list (R * list R))
         (best : option (R * list R)) : option (R * list R) :=
  match runs with
  | [] => best
  | (res_fun, res_x) :: rest =>
      match best with
      | None => best_run rest (Some (res_fun, res_x))
      | Some (min_cost, opt_x) =>
          if Rlt_dec res_fun min_cost
          then best_run rest (Some (res_fun, res_x))
          else best_run rest (Some (min_cost, opt_x))
      end
  end.

(** [x[i:j]] *)
Definition slice (x : list R) (i j : nat) : list R :=
  firstn (j - i) (skipn i x).

(** With no run at all [min_cost] is None and formatting it raises. *)
Definition translate_rotate_reactant (reactant : Complex)
           (bond_rearrangement : BondRearrangement) (shift_factor : R)
           (n_iters : nat) : Result Complex :=
  if Nat.ltb (n_molecules reactant) 2 then Ok reactant
  else
    let subst_centres :=
      get_substitution_centres reactant bond_rearrangement shift_factor in
    let attacking_mol :=
      if forallb (fun sc => existsb (Nat.eqb (a_atom sc))
                                    (get_atom_indexes reactant 0))
                 subst_centres
      then 0%nat else 1%nat in
    let runs :=
      map (fun i => minimize i reactant subst_centres attacking_mol)
          (seq 0 n_iters) in
    match best_run runs None with
    | None => Raise TypeError
    | Some (_, opt_x) =>
        (theta1 <- getitem opt_x 3 ;;
         let reactant :=
           rotate_mol reactant (slice opt_x 0 3) theta1 attacking_mol in
         let reactant :=
           translate_mol reactant (slice opt_x 4 7) attacking_mol in
         theta2 <- getitem opt_x 10 ;;
         Ok (rotate_mol reactant (slice opt_x 7 10) theta2 attacking_mol))%py
    end.

(** ** locate_tss.py: get_ts, get_truncated_ts, find_tss *)

(** Calls made on collaborators while searching. *)
Inductive PEvent : Type :=
| Attempt (func : TSGuessFunc) (params : list Param)
| OptTS (guess : TSGuess)
| SaveTemplate (found : TransitionState).

(** A result together with the calls made to obtain it. *)
Definition W (A : Type) : Type := (Result A * list PEvent)%type.

(** The strategies that were tried, in order. *)
Definition attempts (log : list PEvent) : list Strategy :=
  flat_map (fun ev => match ev with
                      | Attempt func params => [(func, params)]
                      | _ => []
                      end) log.

(** The loop of [get_ts] (lines 254-278); [None] is the final
    [return None]. *)
Fixpoint ts_loop (bond_rearrangement : BondRearrangement)
         (strategies : list Strategy)
  : option TransitionState * list PEvent :=
  match strategies with
  | [] => (None, [])
  | (func, params) :: rest =>
      let continue := ts_loop bond_rearrangement rest in
      match call_guess func params with
      | None => (fst continue, Attempt func params :: snd continue)
      | Some ts_guess =>
          if negb (guess_could_have_correct_imag_mode ts_guess
                     bond_rearrangement)
          then (fst continue, Attempt func params :: snd continue)
          else
            let found :=
              opt_ts (new_TransitionState ts_guess bond_rearrangement) in
            if negb (is_true_ts found)
            then (fst continue,
                  Attempt func params :: OptTS ts_guess :: snd continue)
            else
              (Some found,
               Attempt func params :: OptTS ts_guess
                 :: (if make_ts_template then [SaveTemplate found] else []))
      end
  end.

(** What one strategy amounts to on its own: the validated transition
    state it leads to, if any. *)
Definition strategy_outcome (bond_rearrangement : BondRearrangement)
           (s : Strategy) : option TransitionState :=
  match call_guess (fst s) (snd s) with
  | None => None
  | Some ts_guess =>
      if guess_could_have_correct_imag_mode ts_guess bond_rearrangement
      then
        let found :=
          opt_ts (new_TransitionState ts_guess bond_rearrangement) in
        if is_true_ts found then Some found else None
      else None
  end.

(** Lines 249-278 of [get_ts]: orientation, then the strategies.  The
    reactant complex is one object mutated in place, so it is returned. *)
Definition get_ts_scans (reaction : Reaction) (reactant product : Complex)
           (bond_rearrangement : BondRearrangement)
  : W (option TransitionState * Complex) :=
  match translate_rotate_reactant reactant bond_rearrangement
          (if any_charged (reacs reaction) then 3 else 15 / 10) 10 with
  | Raise e => (Raise e, [])
  | Ok reactant =>
      let '(found, log) :=
        ts_loop bond_rearrangement
                (get_ts_guess_function_and_params reaction reactant product
                                                  bond_rearrangement) in
      (Ok (found, reactant), log)
  end.

Definition with_name (reaction : Reaction) (n : string) : Reaction :=
  mkReaction n (reacs reaction) (prods reaction) (rxn_type reaction)
             (rxn_solvent reaction) (rxn_charge reaction) (ts reaction)
             (tss reaction) (switched_reacs_prods reaction).

(** [a -= b] on two strings: str has no subtraction. *)
Definition str_isub (a b : string) : Result string := Raise TypeError.

(** The loop of [get_truncated_ts]; each call is
    [get_ts(..., strip_molecule=False)], that is [get_ts_scans]. *)
Fixpoint truncated_loop (reaction : Reaction) (t_reactant t_product : Complex)
         (bond_rearrangs : list BondRearrangement) : W Complex :=
  match bond_rearrangs with
  | [] => (Ok t_reactant, [])
  | bond_rearr :: rest =>
      match get_ts_scans reaction t_reactant t_product bond_rearr with
      | (Raise e, log) => (Raise e, log)
      | (Ok (_, t_reactant), log) =>
          let '(r, log') :=
            truncated_loop reaction t_reactant t_product rest in
          (r, log ++ log')
      end
  end.

Definition get_truncated_ts (reaction : Reaction)
           (reactant product : Complex) (bond_rearr : BondRearrangement)
  : W Reaction :=
  let t_reactant := get_truncated_complex reactant bond_rearr in
  let t_product := get_truncated_complex product bond_rearr in
  let reaction :=
    with_name reaction (rxn_name reaction ++ "_truncated") in
  match get_bond_rearrangs t_reactant t_product (rxn_name reaction) with
  | None => (Raise TypeError, [])
  | Some bond_rearrangs =>
      match truncated_loop reaction t_reactant t_product bond_rearrangs with
      | (Raise e, log) => (Raise e, log)
      | (Ok _, log) =>
          match str_isub (rxn_name reaction) "_truncated" with
          | Raise e => (Raise e, log)
          | Ok n => (Ok (with_name reaction n), log)
          end
      end
  end.

Definition get_ts (reaction : Reaction) (reactant product : Complex)
           (bond_rearrangement : BondRearrangement) (strip_molecule : bool)
  : W (option TransitionState * Complex) :=
  if strip_molecule && is_worth_truncating reactant bond_rearrangement
  then
    match get_truncated_ts reaction reactant product bond_rearrangement with
    | (Raise e, log) => (Raise e, log)
    | (Ok reaction, log) =>
        let '(r, log') :=
          get_ts_scans reaction reactant product bond_rearrangement in
        (r, log ++ log')
    end
  else get_ts_scans reaction reactant product bond_rearrangement.

(** The loop of [find_tss]. *)
Fixpoint find_tss_loop (reaction : Reaction) (reactant product : Complex)
         (bond_rearrangs : list BondRearrangement)
  : W (list TransitionState) :=
  match bond_rearrangs with
  | [] => (Ok [], [])
  | bond_rearrangement :: rest =>
      match get_ts reaction reactant product bond_rearrangement true with
      | (Raise e, log) => (Raise e, log)
      | (Ok (found, reactant), log) =>
          match find_tss_loop reaction reactant product rest with
          | (Raise e, log') => (Raise e, log ++ log')
          | (Ok found_later, log') =>
              (Ok (match found with
                   | Some t => t :: found_later
                   | None => found_later
                   end), log ++ log')
          end
      end
  end.

Definition find_tss (reaction : Reaction)
  : W (option (list TransitionState)) :=
  let reactant := ReactantComplex (reacs reaction) in
  let product := ProductComplex (prods reaction) in
  match get_bond_rearrangs reactant product (rxn_name reaction) with
  | None => (Ok None, [])
  | Some bond_rearrangs =>
      match find_tss_loop reaction reactant product bond_rearrangs with
      | (Raise e, log) => (Raise e, log)
      | (Ok found, log) =>
          if Nat.ltb 0 (List.length found) then (Ok (Some found), log)
          else (Ok None, log)
      end
  end.

(* ---------------------------------------------------------------- *)
(** ** reaction.py: the Reaction class *)

Definition sum_nat (l : list nat) : nat := fold_right Nat.add 0%nat l.
Definition sum_Z (l : list Z) : Z := fold_right Z.add 0%Z l.

Definition with_charge (self : Reaction) (c : Z) : Reaction :=
  mkReaction (rxn_name self) (reacs self) (prods self) (rxn_type self)
             (rxn_solvent self) (Some c) (ts self) (tss self)
             (switched_reacs_prods self).

Definition _check_balance (self : Reaction) : Result Reaction :=
  let n_reac_atoms := map mol_n_atoms (reacs self) in
  let n_prod_atoms := map mol_n_atoms (prods self) in
  let reac_charges := map mol_charge (reacs self) in
  let prod_charges := map mol_charge (prods self) in
  if negb (Nat.eqb (sum_nat n_reac_atoms) (sum_nat n_prod_atoms))
  then Raise UnbalancedReaction
  else if negb (Z.eqb (sum_Z reac_charges) (sum_Z prod_charges))
       then Raise UnbalancedReaction
       else Ok (with_charge self (sum_Z reac_charges)).

Definition solvent_eqb (a b : option Solvent) : bool :=
  match a, b with
  | Some x, Some y => String.eqb x y
  | None, None => true
  | _, _ => false
  end.

Definition with_mol_solvent (s : option Solvent) (mol : Molecule)
  : Molecule :=
  mkMolecule (mol_name mol) (mol_kind mol) (mol_n_atoms mol)
             (mol_charge mol) s (mol_energy mol) (mol_n_edges mol).

Definition with_solvent (self : Reaction) (s : option Solvent) : Reaction :=
  mkReaction (rxn_name self) (reacs self) (prods self) (rxn_type self) s
             (rxn_charge self) (ts self) (tss self)
             (switched_reacs_prods self).

(** From [if self.solvent is not None:] to the end of [_check_solvent];
    the last log line reads [self.solvent.name]. *)
Definition _check_solvent_tail (self : Reaction) : Result Reaction :=
  match rxn_solvent self with
  | Some s =>
      Ok (mkReaction (rxn_name self)
                     (map (with_mol_solvent (Some s)) (reacs self))
                     (map (with_mol_solvent (Some s)) (prods self))
                     (rxn_type self) (Some s) (rxn_charge self) (ts self)
                     (tss self) (switched_reacs_prods self))
  | None => Raise AttributeError
  end.

Definition _check_solvent (self : Reaction) : Result Reaction :=
  let mols := reacs self ++ prods self in
  match rxn_solvent self with
  | None =>
      if forallb (fun mol => match mol_solvent mol with
                             | None => true
                             | Some _ => false
                             end) mols
      then Ok self
      else if forallb (fun mol => match mol_solvent mol with
                                  | None => false
                                  | Some _ => true
                                  end) mols
           then
             (first_reac <- getitem (reacs self) 0 ;;
              if negb (forallb (fun mol =>
                                  solvent_eqb (mol_solvent mol)
                                              (mol_solvent first_reac))
                               mols)
              then Raise SolventsDontMatch
              else _check_solvent_tail
                     (with_solvent self (mol_solvent first_reac)))%py
           else _check_solvent_tail self
  | Some _ => _check_solvent_tail self
  end.

Definition swap_reacs_prods (self : Reaction) (t : ReactionType)
  : Reaction :=
  mkReaction (rxn_name self) (prods self) (reacs self) t
             (rxn_solvent self) (rxn_charge self) (ts self) (tss self)
             true.

Definition _check_rearrangement (self : Reaction) : Reaction :=
  let reac_bonds_list := map mol_n_edges (reacs self) in
  let prod_bonds_list := map mol_n_edges (prods self) in
  let delta_n_bonds :=
    (Z.of_nat (sum_nat reac_bonds_list)
     - Z.of_nat (sum_nat prod_bonds_list))%Z in
  if Z.ltb delta_n_bonds 0 then swap_reacs_prods self (rxn_type self)
  else self.

Definition switch_addition (self : Reaction) : Reaction :=
  swap_reacs_prods self Dissociation.

(** [a < b] on two energies, either of which may be None. *)
Definition py_lt (a b : option R) : Result bool :=
  match a, b with
  | Some x, Some y => Ok (Rltb x y)
  | _, _ => Raise TypeError
  end.

Fixpoint py_min_from (current : option R) (rest : list (option R))
  : Result (option R) :=
  match rest with
  | [] => Ok current
  | item :: rest' =>
      (lt <- py_lt item current ;;
       py_min_from (if lt then item else current) rest')%py
  end.

(** [min(l)] *)
Definition py_min (l : list (option R)) : Result (option R) :=
  match l with
  | [] => Raise ValueError
  | x :: rest => py_min_from x rest
  end.

(** [a == b] on two energies. *)
Definition energy_eqb (a b : option R) : bool :=
  match a, b with
  | Some x, Some y => if Req_dec_T x y then true else false
  | None, None => true
  | _, _ => false
  end.

Definition find_lowest_energy_ts (self : Reaction)
  : Result (option TransitionState) :=
  match tss self with
  | None => Ok None
  | Some l =>
      if Nat.ltb 1 (List.length l)
      then
        (min_ts_energy <- py_min (map ts_energy l) ;;
         lowest <- getitem
                     (filter (fun t => energy_eqb (ts_energy t)
                                                  min_ts_energy) l) 0 ;;
         Ok (Some lowest))%py
      else (only <- getitem l 0 ;; Ok (Some only))%py
  end.

Definition locate_transition_state (self : Reaction) : W Reaction :=
  match find_tss self with
  | (Raise e, log) => (Raise e, log)
  | (Ok found, log) =>
      let self :=
        mkReaction (rxn_name self) (reacs self) (prods self)
                   (rxn_type self) (rxn_solvent self) (rxn_charge self)
                   (ts self) found (switched_reacs_prods self) in
      match find_lowest_energy_ts self with
      | Raise e => (Raise e, log)
      | Ok lowest =>
          (Ok (mkReaction (rxn_name self) (reacs self) (prods self)
                          (rxn_type self) (rxn_solvent self)
                          (rxn_charge self) lowest (tss self)
                          (switched_reacs_prods self)), log)
      end
  end.

Definition is_kind (k : MoleculeKind) (mol : Molecule) : bool :=
  match k, mol_kind mol with
  | IsReactant, IsReactant => true
  | IsProduct, IsProduct => true
  | _, _ => false
  end.

(** [[mol for mol in molecules if isinstance(mol, K) and mol is not None]] *)
Definition of_kind (k : MoleculeKind) (molecules : list (option Molecule))
  : list Molecule :=
  flat_map (fun m => match m with
                     | Some mol => if is_kind k mol then [mol] else []
                     | None => []
                     end) molecules.

Definition is_addition (t : ReactionType) : bool :=
  match t with Addition => true | _ => false end.

Definition is_rearrangement (t : ReactionType) : bool :=
  match t with Rearrangement => true | _ => false end.

(** The attributes set by [Reaction.__init__] before its checks. *)
Definition Reaction_attributes
           (mol1 mol2 mol3 mol4 mol5 mol6 : option Molecule)
           (name : string) (solvent_name : option string) : Reaction :=
  let molecules := [mol1; mol2; mol3; mol4; mol5; mol6] in
  let reacs := of_kind IsReactant molecules in
  let prods := of_kind IsProduct molecules in
  mkReaction name reacs prods (classify reacs prods)
             (match solvent_name with
              | Some n => get_solvent n
              | None => None
              end)
             None None None false.

(** [Reaction.__init__] *)
Definition Reaction_init (mol1 mol2 mol3 mol4 mol5 mol6 : option Molecule)
           (name : string) (solvent_name : option string)
  : Result Reaction :=
  (self <- _check_solvent
             (Reaction_attributes mol1 mol2 mol3 mol4 mol5 mol6 name
                                  solvent_name) ;;
   self <- _check_balance self ;;
   let self :=
     if is_addition (rxn_type self) then switch_addition self else self in
   let self :=
     if is_rearrangement (rxn_type self) then _check_rearrangement self
     else self in
   Ok self)%py.

(** *** Recognising strategies in the yielded sequence *)

Definition is_2d_scan (s : Strategy) : bool :=
  match fst s with
  | get_ts_guess_2d => true
  | _ => false
  end.

Definition is_1d_scan (s : Strategy) : bool :=
  match fst s with
  | get_ts_guess_1d => true
  | _ => false
  end.

Definition named_with_suffix (suffix : string) (s : Strategy) : bool :=
  existsb (fun p => match p with
                    | PStr nm => Str.ends_with suffix nm
                    | _ => false
                    end)
          (snd s).

(** The 2-D scans over the two forming bonds ([..._ll2d_fbonds],
    [..._hl2d_fbonds]) and over the two breaking bonds. *)
Definition is_two_fbonds_scan (s : Strategy) : bool :=
  is_2d_scan s && named_with_suffix "_fbonds" s.

Definition is_two_bbonds_scan (s : Strategy) : bool :=
  is_2d_scan s && named_with_suffix "_bbonds" s.

End Pipeline.

End Locate.

(* ------------------------------------------------------------------ *)
(** ** A small concrete setting for the pipeline

    A complex is the list of its molecules; every scan produces a guess, the
    template lookup finds nothing; truncation is judged worthwhile for
    complexes of more than twenty atoms. *)

Module PipelineExample.

Import Locate.
Local Open Scope R_scope.

#[export] Instance toy_types : PipelineTypes := {|
  Complex := list Molecule;
  Method := string;
  Keywords := string;
  TSGuess := TSGuessFunc;
  TransitionState := (string * R)%type;
  SubstitutionCentre := nat
|}.

Definition toy_rearrangs (reactant product : list Molecule)
  : option (list BondRearrangement) :=
  match reactant, product with
  | _ :: _, _ :: _ => Some [mkBondRearrangement [] [(0, 1)%nat]]
  | _, _ => None
  end.

(** Truncation keeps at most ten atoms of each molecule. *)
Definition toy_truncate (c : list Molecule) : list Molecule :=
  map (fun m => mkMolecule (mol_name m) (mol_kind m)
                           (Nat.min (mol_n_atoms m) 10) (mol_charge m)
                           (mol_solvent m) (mol_energy m) (mol_n_edges m))
      c.

(** [validates] is the answer of [is_true_ts] on every optimised guess. *)
Definition toy_env_with (validates : bool) : PipelineEnv := {|
  ReactantComplex := fun mols => mols;
  ProductComplex := fun mols => mols;
  n_molecules := fun c => List.length c;
  get_distance := fun _ _ _ => 2;
  atom_label := fun _ _ => "C"%string;
  get_atom_indexes := fun _ _ => [];
  rotate_mol := fun c _ _ _ => c;
  translate_mol := fun c _ _ => c;
  get_avg_bond_length := fun _ _ => 15 / 10;
  get_lmethod := "xtb"%string;
  get_hmethod := "orca"%string;
  low_opt := fun m => (m ++ " LooseOpt")%string;
  opt := fun m => (m ++ " Opt")%string;
  get_bond_rearrangs := fun r p _ => toy_rearrangs r p;
  get_substitution_centres := fun _ _ _ => [];
  a_atom := fun sc => sc;
  minimize := fun _ _ _ _ => (0, [0; 0; 0; 0; 0; 0; 0; 0; 0; 0; 0]);
  is_worth_truncating :=
    fun c _ => Nat.ltb 20 (sum_nat (map mol_n_atoms c));
  get_truncated_complex := fun c _ => toy_truncate c;
  call_guess := fun func _ =>
                  match func with
                  | get_template_ts_guess => None
                  | _ => Some func
                  end;
  guess_could_have_correct_imag_mode := fun _ _ => true;
  new_TransitionState := fun _ _ => ("ts"%string, 0);
  opt_ts := fun t => t;
  is_true_ts := fun _ => validates;
  ts_energy := fun t => Some (snd t);
  make_ts_template := false;
  classify := fun reacs prods =>
                match reacs, prods with
                | [_], [_] => Rearrangement
                | [_], _ => Dissociation
                | _, [_] => Addition
                | _, _ => Substitution
                end;
  get_solvent := fun n => Some n
|}.

(** Every optimised guess validates; none does. *)
#[export] Instance toy_env : PipelineEnv := toy_env_with true.

Definition barren_env : PipelineEnv := toy_env_with false.

Definition mol (n : string) (k : MoleculeKind) (n_atoms : nat) (q : Z)
           (s : option Solvent) : Molecule :=
  mkMolecule n k n_atoms q s None 0.

(** Cl- + CH3F -> CH3Cl + F-, with the SN2 rearrangement. *)
Definition chloride : Molecule := mol "Cl" IsReactant 1 (-1) None.
Definition fluoromethane : Molecule := mol "CH3F" IsReactant 5 0 None.
Definition chloromethane : Molecule := mol "CH3Cl" IsProduct 5 0 None.
Definition fluoride : Molecule := mol "F" IsProduct 1 (-1) None.

Definition sn2_reaction : Reaction :=
  mkReaction "sn2" [chloride; fluoromethane] [chloromethane; fluoride]
             Substitution None (Some (-1)%Z) None None false.

Definition sn2_rearr : BondRearrangement :=
  mkBondRearrangement [(0, 1)%nat] [(1, 2)%nat].

(** Two forming bonds and one breaking bond; one forming and two breaking. *)
Definition rearr_2f_1b : BondRearrangement :=
  mkBondRearrangement [(0, 1)%nat; (2, 3)%nat] [(1, 2)%nat].

Definition rearr_1f_2b : BondRearrangement :=
  mkBondRearrangement [(1, 2)%nat] [(0, 1)%nat; (2, 3)%nat].

(** A one-molecule reaction on a complex of thirty atoms. *)
Definition big_reactant : Molecule := mol "R" IsReactant 30 0 None.
Definition big_product : Molecule := mol "P" IsProduct 30 0 None.

Definition big_reaction : Reaction :=
  mkReaction "big" [big_reactant] [big_product] Rearrangement None
             (Some 0%Z) None None false.

Definition big_rearr : BondRearrangement :=
  mkBondRearrangement [] [(0, 1)%nat].

(** The same reaction on a complex of six atoms. *)
Definition small_reactant : Molecule := mol "R" IsReactant 6 0 None.
Definition small_product : Molecule := mol "P" IsProduct 6 0 None.

(** Two found transition states of equal, lowest energy after a higher
    one. *)
Definition found_reaction : Reaction :=
  mkReaction "found" [small_reactant] [small_product] Rearrangement None
             (Some 0%Z) None
             (Some [("ts0"%string, 2); ("ts1"%string, 1);
                    ("ts2"%string, 1)])
             false.

(** Molecules in different solvents, with different atom counts. *)
Definition wet_reactant : Molecule :=
  mol "R" IsReactant 1 0 (Some "water"%string).
Definition oily_product : Molecule :=
  mol "P" IsProduct 2 0 (Some "dcm"%string).

(** A product with no solvent attached. *)
Definition dry_product : Molecule := mol "P" IsProduct 1 0 None.

Definition small_reaction : Reaction :=
  mkReaction "small" [small_reactant] [small_product] Rearrangement None
             (Some 0%Z) None None false.

End PipelineExample.

(* ------------------------------------------------------------------ *)
(** ** Reflection of a geometry about another *)

Module Reflect.

(** The point opposite to [d] as seen from [c]: [c - (d - c)]. *)
Definition reflect (c d : Vec3) : Vec3 := vsub c (vsub d c).

Definition arr_reflect (c d : Coords) : Coords := map2 reflect c d.

(** A species with a mode and no atom. *)
Definition no_atoms : Species :=
  mkSpecies "empty" [] 0%Z 1%Z None
            (Some (mkHessian (fun _ => Some []) None)).

End Reflect.

(* ------------------------------------------------------------------ *)
(** ** A second concrete candidate: an atom approaches a spectator

    Cl(0) ... C(1) - F(2) on the x axis; only the breaking bond C-F is
    declared, and the mode moves the carbon towards the chlorine. *)

Module ApproachExample.

Import Base Sn2Example.
Local Open Scope R_scope.

Definition approach_mode : Coords :=
  [(0, 0, 0); (- (4 / 10), 0, 0); (0, 0, 0)].

Definition approach_species : Species :=
  mkSpecies "ts"
            [mkAtom "Cl" (0, 0, 0); mkAtom "C" (2, 0, 0);
             mkAtom "F" (35 / 10, 0, 0)]
            (-1)%Z 1%Z None
            (Some (mkHessian
                     (fun n => if Nat.eqb n 6 then Some approach_mode
                               else None)
                     (Some [-400]))).

Definition approach_rearrangement : BondRearrangement :=
  mkBondRearrangement [] [(1, 2)%nat].

Definition approach_ts : TSbase :=
  mkTSbase approach_species None None (Some approach_rearrangement).

Definition approach_forward : Species :=
  mkSpecies "ts_disp"
            [mkAtom "Cl" (0, 0, 0); mkAtom "C" (16 / 10, 0, 0);
             mkAtom "F" (35 / 10, 0, 0)]
            (-1)%Z 1%Z None None.

Definition approach_backward : Species :=
  mkSpecies "ts_disp"
            [mkAtom "Cl" (0, 0, 0); mkAtom "C" (24 / 10, 0, 0);
             mkAtom "F" (35 / 10, 0, 0)]
            (-1)%Z 1%Z None None.


End ApproachExample.

(* ------------------------------------------------------------------ *)
(** ** Names for parts of locate_tss.py used in statements *)

Module LocateMore.

Import Locate.
Local Open Scope R_scope.

Section Parts.

Context {types : PipelineTypes} {env : PipelineEnv}.

(** The transition state the strategy loop finds for one rearrangement, as
    the list of what [find_tss] appends for it. *)
Definition found_by_scans (reaction : Reaction) (reactant product : Complex)
           (bond_rearrangement : BondRearrangement)
  : list TransitionState :=
  match fst (ts_loop bond_rearrangement
               (get_ts_guess_function_and_params reaction reactant product
                                                 bond_rearrangement)) with
  | Some found => [found]
  | None => []
  end.

(** [attacking_mol] of [translate_rotate_reactant]. *)
Definition attacking_mol_of (reactant : Complex)
           (subst_centres : list SubstitutionCentre) : nat :=
  if forallb (fun sc => existsb (Nat.eqb (a_atom sc))
                                (get_atom_indexes reactant 0))
             subst_centres
  then 0%nat else 1%nat.

(** The outcomes of the [n_iters] minimisations, in order. *)
Definition orientation_runs (reactant : Complex)
           (bond_rearrangement : BondRearrangement) (shift_factor : R)
           (n_iters : nat) : list (R * list R) :=
  let subst_centres :=
    get_substitution_centres reactant bond_rearrangement shift_factor in
  map (fun i => minimize i reactant subst_centres
                         (attacking_mol_of reactant subst_centres))
      (seq 0 n_iters).

(** The three moves applied with the parameters [opt_x]. *)
Definition apply_pose (reactant : Complex) (opt_x : list R)
           (attacking_mol : nat) : Result Complex :=
  (theta1 <- getitem opt_x 3 ;;
   let reactant :=
     rotate_mol reactant (slice opt_x 0 3) theta1 attacking_mol in
   let reactant := translate_mol reactant (slice opt_x 4 7) attacking_mol in
   theta2 <- getitem opt_x 10 ;;
   Ok (rotate_mol reactant (slice opt_x 7 10) theta2 attacking_mol))%py.

End Parts.

End LocateMore.

(** A two-molecule complex whose sixth restart is the first of lowest
    cost. *)

Module OrientationExample.

Import Locate PipelineExample.
Local Open Scope R_scope.

Definition restart_costs : list R := [5; 4; 4; 6; 3; 2; 2; 7; 2; 9].

Definition restart_env : PipelineEnv := {|
  ReactantComplex := fun mols => mols;
  ProductComplex := fun mols => mols;
  n_molecules := fun c => List.length c;
  get_distance := fun _ _ _ => 2;
  atom_label := fun _ _ => "C"%string;
  get_atom_indexes := fun _ _ => [];
  rotate_mol := fun c _ _ _ => c;
  translate_mol := fun c _ _ => c;
  get_avg_bond_length := fun _ _ => 15 / 10;
  get_lmethod := "xtb"%string;
  get_hmethod := "orca"%string;
  low_opt := fun m => (m ++ " LooseOpt")%string;
  opt := fun m => (m ++ " Opt")%string;
  get_bond_rearrangs := fun r p _ => toy_rearrangs r p;
  get_substitution_centres := fun _ _ _ => [];
  a_atom := fun sc => sc;
  minimize := fun i _ _ _ =>
                (nth i restart_costs 0,
                 [INR i; 0; 0; 0; 0; 0; 0; 0; 0; 0; 0]);
  is_worth_truncating := fun _ _ => false;
  get_truncated_complex := fun c _ => c;
  call_guess := fun _ _ => None;
  guess_could_have_correct_imag_mode := fun _ _ => true;
  new_TransitionState := fun _ _ => ("ts"%string, 0);
  opt_ts := fun t => t;
  is_true_ts := fun _ => true;
  ts_energy := fun t => Some (snd t);
  make_ts_template := false;
  classify := fun _ _ => Substitution;
  get_solvent := fun n => Some n
|}.

End OrientationExample.

(* ------------------------------------------------------------------ *)
(** ** reaction.py: energy differences *)

Module Energies.

Import Locate.
Local Open Scope R_scope.

(** [autode.units]: a unit is known here by its conversion factor. *)
Record Units : Type := mkUnits { conversion : R }.

(** [filter(None, energies)]: the items that are truthy, that is neither
    None nor zero. *)
Definition filter_truthy (energies : list (option R)) : list R :=
  flat_map (fun e => match e with
                     | Some x => if Req_dec_T x 0 then [] else [x]
                     | None => []
                     end) energies.

(** [sum(l)] *)
Definition py_sum (l : list R) : R := fold_left Rplus l 0.

(** The energy of a molecule, zero when it has none. *)
Definition energy_or_zero (mol : Molecule) : R :=
  match mol_energy mol with
  | Some x => x
  | None => 0
  end.

Definition total (l : list R) : R := fold_right Rplus 0 l.

Section EnergyDifferences.

Context {types : PipelineTypes} {env : PipelineEnv}.

Definition calc_delta_e (self : Reaction) (units : Units) : R :=
  let products_energy :=
    py_sum (filter_truthy (map mol_energy (prods self))) in
  let reactants_energy :=
    py_sum (filter_truthy (map mol_energy (reacs self))) in
  conversion units * (products_energy - reactants_energy).

Definition calc_delta_e_ddagger (self : Reaction) (units : Units)
  : option R :=
  match ts self with
  | None => None
  | Some t =>
      match ts_energy t with
      | None => None
      | Some e =>
          Some (conversion units
                * (e - py_sum (filter_truthy
                                 (map mol_energy (reacs self)))))
      end
  end.

End EnergyDifferences.

End Energies.

(* ------------------------------------------------------------------ *)
(** ** More concrete reactions *)

Module ReactionExamples.

Import Locate PipelineExample Energies.
Local Open Scope R_scope.

(** The SN2 reaction given water as its solvent, before and after the
    solvent check. *)
Definition wet_reaction : Reaction :=
  mkReaction "wet" [chloride; fluoromethane] [chloromethane; fluoride]
             Substitution (Some "water"%string) None None None false.

Definition in_water (m : Molecule) : Molecule :=
  with_mol_solvent (Some "water"%string) m.

Definition wet_reaction_checked : Reaction :=
  mkReaction "wet" [in_water chloride; in_water fluoromethane]
             [in_water chloromethane; in_water fluoride]
             Substitution (Some "water"%string) None None None false.

(** Solvents set on some molecules only; two different solvents. *)
Definition mixed_reaction : Reaction :=
  mkReaction "mixed" [wet_reactant] [dry_product] Rearrangement None None
             None None false.

Definition clashing_reaction : Reaction :=
  mkReaction "clash" [wet_reactant] [oily_product] Rearrangement None None
             None None false.

(** CH3+ + Cl- -> CH3Cl, an addition. *)
Definition methyl_cation : Molecule := mol "CH3" IsReactant 4 1 None.

Definition addition_result : Reaction :=
  mkReaction "add" [chloromethane] [methyl_cation; chloride] Dissociation
             None (Some 0%Z) None None true.

(** An isomerisation in which the product has one bond more. *)
Definition open_chain : Molecule :=
  mkMolecule "open" IsReactant 6 0 None (Some (-10)) 5.
Definition ring : Molecule :=
  mkMolecule "ring" IsProduct 6 0 None (Some (-12)) 6.

Definition ring_closure : Reaction :=
  mkReaction "ring" [open_chain] [ring] Rearrangement None (Some 0%Z)
             (Some ("ts"%string, -7)) None false.

(** The six-atom reaction after the search. *)
Definition located_small : Reaction :=
  mkReaction "small" [small_reactant] [small_product] Rearrangement None
             (Some 0%Z) (Some ("ts"%string, 0))
             (Some [("ts"%string, 0)]) false.

(** As [toy_env], with no energy for a transition state named
    [unconverged]. *)
Definition sparse_env : PipelineEnv := {|
  ReactantComplex := fun mols => mols;
  ProductComplex := fun mols => mols;
  n_molecules := fun c => List.length c;
  get_distance := fun _ _ _ => 2;
  atom_label := fun _ _ => "C"%string;
  get_atom_indexes := fun _ _ => [];
  rotate_mol := fun c _ _ _ => c;
  translate_mol := fun c _ _ => c;
  get_avg_bond_length := fun _ _ => 15 / 10;
  get_lmethod := "xtb"%string;
  get_hmethod := "orca"%string;
  low_opt := fun m => (m ++ " LooseOpt")%string;
  opt := fun m => (m ++ " Opt")%string;
  get_bond_rearrangs := fun r p _ => toy_rearrangs r p;
  get_substitution_centres := fun _ _ _ => [];
  a_atom := fun sc => sc;
  minimize := fun _ _ _ _ => (0, [0; 0; 0; 0; 0; 0; 0; 0; 0; 0; 0]);
  is_worth_truncating := fun _ _ => false;
  get_truncated_complex := fun c _ => c;
  call_guess := fun _ _ => None;
  guess_could_have_correct_imag_mode := fun _ _ => true;
  new_TransitionState := fun _ _ => ("ts"%string, 0);
  opt_ts := fun t => t;
  is_true_ts := fun _ => true;
  ts_energy := fun t => if String.eqb (fst t) "unconverged" then None
                        else Some (snd t);
  make_ts_template := false;
  classify := fun _ _ => Rearrangement;
  get_solvent := fun n => Some n
|}.

Definition half_converged : Reaction :=
  mkReaction "half" [small_reactant] [small_product] Rearrangement None
             (Some 0%Z) None
             (Some [("ts0"%string, 2); ("unconverged"%string, 0)]) false.

Definition kcal_mol : Units := mkUnits (6275 / 10).

End ReactionExamples.

(** The two tests of [_check_solvent] on a molecule. *)

Module SolventTests.

Definition has_no_solvent (m : Molecule) : bool :=
  match mol_solvent m with
  | None => true
  | Some _ => false
  end.

Definition has_solvent (m : Molecule) : bool :=
  match mol_solvent m with
  | None => false
  | Some _ => true
  end.

End SolventTests.

(* ------------------------------------------------------------------ *)
(** ** wrappers/ORCA.py: solvent keyword and termination check *)

Module Orca.

Local Open Scope string_scope.

(** [sub in s] *)
Fixpoint contains (sub s : string) : bool :=
  String.prefix sub s
  || match s with
     | EmptyString => false
     | String _ s' => contains sub s'
     end.

(** [s.lower()] on ASCII text. *)
Definition lower_ascii (c : ascii) : ascii :=
  let n := nat_of_ascii c in
  if Nat.leb 65 n && Nat.leb n 90 then ascii_of_nat (n + 32) else c.

Fixpoint lower (s : string) : string :=
  match s with
  | EmptyString => EmptyString
  | String c s' => String (lower_ascii c) (lower s')
  end.

Definition vdw_gaussian_solvent_dict : list (string * string) :=
  [("water", "Water"); ("acetone", "Acetone");
   ("acetonitrile", "Acetonitrile"); ("benzene", "Benzene");
   ("carbon tetrachloride", "CCl4"); ("dichloromethane", "CH2Cl2");
   ("chloroform", "Chloroform"); ("cyclohexane", "Cyclohexane");
   ("n,n-dimethylformamide", "DMF"); ("dimethylsulfoxide", "DMSO");
   ("ethanol", "Ethanol"); ("n-hexane", "Hexane");
   ("methanol", "Methanol"); ("1-octanol", "Octanol");
   ("pyridine", "Pyridine"); ("tetrahydrofuran", "THF");
   ("toluene", "Toluene")].

(** [d[k]], None standing for the KeyError. *)
Fixpoint dict_get (d : list (string * string)) (k : string)
  : option string :=
  match d with
  | [] => None
  | (k', v) :: d' => if String.eqb k' k then Some v else dict_get d' k
  end.

(** [solvent in d.keys()], for a solvent that may be None. *)
Definition in_keys (d : list (string * string)) (solvent : option string)
  : bool :=
  match solvent with
  | Some s => existsb (fun kv => String.eqb (fst kv) s) d
  | None => false
  end.

Inductive OrcaError : Type :=
| UnsuppportedCalculationInput
| KeyError.

Definition use_vdw_gaussian_solvent (keywords : list string)
           (implicit_solv_type : string) : bool :=
  if negb (String.eqb (lower implicit_solv_type) "cpcm") then false
  else if existsb (fun kw => contains "freq" (lower kw)
                             || contains "optts" (lower kw)) keywords
       then false
       else true.

(** [add_solvent_keyword]; the keywords list, extended in place by the
    source, is returned. *)
Definition add_solvent_keyword (solvent : option string)
           (keywords : list string) (implicit_solv_type : string)
  : list string + OrcaError :=
  if negb (existsb (String.eqb (lower implicit_solv_type)) ["smd"; "cpcm"])
  then inr UnsuppportedCalculationInput
  else if use_vdw_gaussian_solvent keywords implicit_solv_type
          && negb (in_keys vdw_gaussian_solvent_dict solvent)
       then inr UnsuppportedCalculationInput
       else
         match solvent with
         | Some s =>
             match dict_get vdw_gaussian_solvent_dict s with
             | Some v => inl (keywords ++ [("CPCM(" ++ v ++ ")")%string])%list
             | None => inr KeyError
             end
         | None => inr KeyError
         end.

Definition termination_strings : list string :=
  ["ORCA TERMINATED NORMALLY"; "The optimization did not converge"].

Definition is_termination_line (line : string) : bool :=
  existsb (fun substring => contains substring line) termination_strings.

(** The loop of [calculation_terminated_normally] over the reversed lines,
    from line number [n_line]. *)
Fixpoint terminated_loop (n_line : nat) (reversed_lines : list string)
  : bool :=
  match reversed_lines with
  | [] => false
  | line :: rest =>
      if is_termination_line line then true
      else if Nat.ltb 30 n_line then false
           else terminated_loop (S n_line) rest
  end.

Definition calculation_terminated_normally (file_lines : list string)
  : bool :=
  terminated_loop 0 (rev file_lines).

End Orca.

(* ================================================================== *)
(** * Theorems *)

(* ------------------------------------------------------------------ *)
(** ** Array lemmas *)

Module GeomFacts.

Local Open Scope R_scope.

Lemma map2_length {A B C : Type} (f : A -> B -> C) (l : list A) (m : list B) :
  List.length l = List.length m ->
  List.length (map2 f l m) = List.length l.
Proof.
  revert m; induction l as [|a l IH]; intros [|b m] H; simpl in *;
    try discriminate; auto.
Qed.

Lemma vec_eq (a b c x y z : R) :
  a = x -> b = y -> c = z -> (a, b, c) = (x, y, z).
Proof. intros -> -> ->; reflexivity. Qed.

(** Stepping back by [s] along the mode from [coords + t * mode]. *)
Lemma arr_sub_along_mode (t s : R) (c m : Coords) :
  arr_sub (arr_add c (arr_scale t m)) (arr_scale s m)
  = arr_add c (arr_scale (t - s) m).
Proof.
  unfold arr_sub, arr_add, arr_scale.
  revert m; induction c as [|[[a b] d] c IH]; intros [|[[x y] z] m];
    simpl; auto.
  rewrite IH. f_equal. apply vec_eq; ring.
Qed.

Lemma norm_zero_displacement (ci mi : Vec3) :
  norm (vsub ci (vadd ci (vscale 0 mi))) = 0.
Proof.
  destruct ci as [[a b] d], mi as [[x y] z]; simpl.
  replace ((a - (a + 0 * x)) * (a - (a + 0 * x)) +
           (b - (b + 0 * y)) * (b - (b + 0 * y)) +
           (d - (d + 0 * z)) * (d - (d + 0 * z))) with 0 by ring.
  apply sqrt_0.
Qed.

Lemma row_norms_zero_displacement (c m : Coords) :
  Forall (fun d => d = 0)
         (row_norms (arr_sub c (arr_add c (arr_scale 0 m)))).
Proof.
  unfold row_norms, arr_sub, arr_add, arr_scale.
  revert m; induction c as [|ci c IH]; intros [|mi m]; simpl;
    try constructor.
  - apply norm_zero_displacement.
  - apply IH.
Qed.

Lemma fold_left_Rmax_ge_init (l : list R) (x : R) :
  x <= fold_left Rmax l x.
Proof.
  revert x; induction l as [|y l IH]; intros x; simpl.
  - lra.
  - eapply Rle_trans; [apply (Rmax_l x y)|apply IH].
Qed.

Lemma fold_left_Rmax_upper (l : list R) (x : R) :
  Forall (fun d => d <= fold_left Rmax l x) l.
Proof.
  revert x; induction l as [|y l IH]; intros x; simpl; constructor.
  - eapply Rle_trans; [apply (Rmax_r x y)|apply fold_left_Rmax_ge_init].
  - apply IH.
Qed.

Lemma np_max_upper (l : list R) (m : R) :
  np_max l = Ok m -> Forall (fun d => d <= m) l.
Proof.
  destruct l as [|x rest]; simpl; intros H; inversion H; subst.
  constructor.
  - apply fold_left_Rmax_ge_init.
  - apply fold_left_Rmax_upper.
Qed.

End GeomFacts.

(* ------------------------------------------------------------------ *)
(** ** displaced_species_along_mode *)

Module DisplaceFacts.

Import Displace GeomFacts.
Local Open Scope R_scope.

Lemma backward_steps_length (k : nat) (f : R) (m disp : Coords) :
  List.length m = List.length disp ->
  List.length (backward_steps k f m disp) = List.length disp.
Proof.
  revert disp; induction k as [|k IH]; intros disp H; simpl; auto.
  assert (L : List.length (arr_sub disp (arr_scale (f / 20) m))
              = List.length disp).
  { unfold arr_sub, arr_scale. apply map2_length.
    rewrite length_map. auto. }
  rewrite IH; rewrite L; auto.
Qed.

Lemma backward_steps_closed (k : nat) (f t : R) (c m : Coords) :
  backward_steps k f m (arr_add c (arr_scale t m))
  = arr_add c (arr_scale (t - INR k * (f / 20)) m).
Proof.
  revert t; induction k as [|k IH]; intros t.
  - simpl. do 2 f_equal. ring.
  - cbn [backward_steps]. rewrite arr_sub_along_mode, IH.
    do 2 f_equal. rewrite S_INR. ring.
Qed.

(** The loop stops after [k <= n] backward steps; it stopped early only on a
    geometry whose largest row norm is below the cap. *)
Lemma shrink_loop_spec (n : nat) (c m : Coords) (f cap : R) :
  forall disp : Coords,
    List.length disp = List.length c ->
    List.length m = List.length c ->
    (0 < List.length c)%nat ->
    exists k : nat,
      (k <= n)%nat /\
      shrink_loop n c m f cap disp = Ok (backward_steps k f m disp) /\
      (k = n \/
       Forall (fun d => d < cap)
              (row_norms (arr_sub c (backward_steps k f m disp)))).
Proof.
  induction n as [|n IH]; intros disp Hd Hm Hc.
  - exists 0%nat. simpl. auto.
  - cbn [shrink_loop].
    destruct (np_max (row_norms (arr_sub c disp))) as [mx|e] eqn:E.
    + cbn [Py.bind]. destruct (Rlt_dec mx cap) as [Hlt|Hge].
      * exists 0%nat. split; [lia|]. split; [reflexivity|]. right.
        cbn [backward_steps]. apply np_max_upper in E.
        eapply Forall_impl; [|exact E]. cbn. intros; lra.
      * destruct (IH (arr_sub disp (arr_scale (f / 20) m))) as (k & Hk & Hr & Hs);
          auto.
        { unfold arr_sub, arr_scale. rewrite map2_length; auto.
          rewrite length_map. lia. }
        exists (S k). split; [lia|]. split; [exact Hr|].
        destruct Hs as [->|Hs]; [left; reflexivity|right; exact Hs].
    + exfalso. unfold row_norms, arr_sub in E.
      destruct c as [|ci c]; [simpl in Hc; lia|].
      destruct disp as [|di disp]; [discriminate|]. discriminate.
Qed.

Lemma coordinates_set_coordinates (s : Species) (cs : Coords) :
  List.length cs = n_atoms s ->
  coordinates (set_coordinates s cs) = cs.
Proof.
  unfold coordinates, set_coordinates, n_atoms; simpl.
  generalize (atoms s) as l. intros l; revert cs.
  induction l as [|a l IH]; intros [|ci cs] H; simpl in *;
    try discriminate; auto.
  f_equal. apply IH. lia.
Qed.

(** With no atom at all [np.max] has nothing to reduce and raises. *)
Lemma displaced_species_no_atoms
      (s : Species) (mode_number : nat) (mode : Coords)
      (disp_factor max_atom_disp : R) :
  normal_mode s mode_number = Some mode ->
  n_atoms s = 0%nat ->
  displaced_species_along_mode s mode_number disp_factor max_atom_disp
  = Raise ValueError.
Proof.
  intros Hm Hn. unfold displaced_species_along_mode. rewrite Hm.
  unfold n_atoms in Hn. apply length_zero_iff_nil in Hn.
  unfold coordinates. rewrite Hn. reflexivity.
Qed.

(** C3.  For a species with a normal mode (of the shape of its coordinates,
    with at least one atom) and a positive [max_atom_disp],
    [displaced_species_along_mode] returns a geometry reached by [k <= 20]
    backward steps of [disp_factor / 20] along the mode from the full
    displacement, in which no atom is displaced by more than
    [max_atom_disp]. *)
Theorem displaced_species_bounded
        (s : Species) (mode_number : nat) (mode : Coords)
        (disp_factor max_atom_disp : R) :
  normal_mode s mode_number = Some mode ->
  List.length mode = n_atoms s ->
  (0 < n_atoms s)%nat ->
  0 < max_atom_disp ->
  exists (s' : Species) (k : nat),
    displaced_species_along_mode s mode_number disp_factor max_atom_disp
    = Ok (Some s') /\
    (k <= 20)%nat /\
    coordinates s'
    = backward_steps k disp_factor mode
        (arr_add (coordinates s) (arr_scale disp_factor mode)) /\
    n_atoms s' = n_atoms s /\
    Forall (fun d => d <= max_atom_disp) (atom_displacements s s').
Proof.
  intros Hmode Hshape Hn Hcap.
  unfold displaced_species_along_mode. rewrite Hmode.
  assert (Hlc : List.length (coordinates s) = n_atoms s)
    by (unfold coordinates; apply length_map).
  set (d0 := arr_add (coordinates s) (arr_scale disp_factor mode)).
  assert (Hd0 : List.length d0 = List.length (coordinates s)).
  { unfold d0, arr_add, arr_scale. apply map2_length.
    rewrite length_map. lia. }
  destruct (shrink_loop_spec 20 (coordinates s) mode disp_factor
              max_atom_disp d0) as (k & Hk & Hr & Hs); try lia.
  rewrite Hr. cbn [Py.bind].
  assert (Hlen : List.length (backward_steps k disp_factor mode d0)
                 = n_atoms s).
  { rewrite backward_steps_length; lia. }
  eexists. exists k. split; [reflexivity|]. split; [exact Hk|].
  assert (Hco : coordinates
                  (set_coordinates
                     (mkSpecies (name s ++ "_disp") (atoms s) (charge s)
                                (mult s) None None)
                     (backward_steps k disp_factor mode d0))
                = backward_steps k disp_factor mode d0).
  { apply coordinates_set_coordinates. exact Hlen. }
  split; [exact Hco|]. split.
  - unfold n_atoms in *. rewrite <- (length_map coord).
    fold (coordinates
            (set_coordinates
               (mkSpecies (name s ++ "_disp") (atoms s) (charge s)
                          (mult s) None None)
               (backward_steps k disp_factor mode d0))).
    rewrite Hco. exact Hlen.
  - unfold atom_displacements. rewrite Hco.
    destruct Hs as [->|Hs].
    + unfold d0. rewrite backward_steps_closed.
      replace (disp_factor - INR 20 * (disp_factor / 20)) with 0
        by (simpl; field).
      eapply Forall_impl; [|apply row_norms_zero_displacement].
      cbn. intros a ->. lra.
    + eapply Forall_impl; [|exact Hs]. cbn. intros; lra.
Qed.

Lemma displaced_species_bounded_witness :
  exists (s' : Species) (k : nat),
    displaced_species_along_mode h2_like 6 1 (1 / 2) = Ok (Some s') /\
    (k <= 20)%nat /\
    coordinates s'
    = backward_steps k 1 [(1, 0, 0); (-1, 0, 0)]
        (arr_add (coordinates h2_like)
                 (arr_scale 1 [(1, 0, 0); (-1, 0, 0)])) /\
    n_atoms s' = n_atoms h2_like /\
    Forall (fun d => d <= 1 / 2) (atom_displacements h2_like s').
Proof.
  apply (displaced_species_bounded h2_like 6 [(1, 0, 0); (-1, 0, 0)] 1 (1 / 2)).
  - reflexivity.
  - reflexivity.
  - unfold n_atoms, h2_like; simpl; lia.
  - lra.
Defined.

End DisplaceFacts.

(* ------------------------------------------------------------------ *)
(** ** could_have_correct_imag_mode and imag_mode_links_reactant_products *)

Module ValidatorFacts.

Import Base.
Local Open Scope R_scope.

Section Gates.

Context {env : ValidatorEnv}.

Lemma Rgtb_true_iff (x y : R) : Rgtb x y = true <-> x > y.
Proof.
  unfold Rgtb, Rltb. destruct (Rlt_dec y x); split; intros; try lra;
    try discriminate; auto.
Qed.

(** C4.  With a bond rearrangement set, [could_have_correct_imag_mode]
    answers False when the Hessian (computed first when absent) reports no
    imaginary frequencies, and answers False with no displacement check
    performed when the first (most negative) imaginary frequency is above
    [Config.min_imag_freq]; a displacement check is performed only for
    candidates that passed both gates. *)
Theorem could_have_correct_imag_mode_gates
        (self : TSbase) (br : BondRearrangement) :
  bond_rearrangement self = Some br ->
  let '(r, self', log) := could_have_correct_imag_mode self in
  bond_rearrangement self' = Some br /\
  (imaginary_frequencies (species self') = None ->
   r = Ok false /\ no_displacement_check log) /\
  (forall freq0 rest,
      imaginary_frequencies (species self') = Some (freq0 :: rest) ->
      freq0 > min_imag_freq ->
      r = Ok false /\ no_displacement_check log) /\
  ((exists t a, In (DisplacementCheck t a) log) ->
   exists freq0 rest,
     imaginary_frequencies (species self') = Some (freq0 :: rest) /\
     ~ freq0 > min_imag_freq).
Proof.
  intros Hbr. unfold could_have_correct_imag_mode. rewrite Hbr.
  set (st := match hessian (species self) with
             | Some _ => (self, [])
             | None => _
             end).
  assert (Hst : bond_rearrangement (fst st) = Some br /\
                no_displacement_check (snd st)).
  { unfold st. destruct (hessian (species self)); simpl; split; auto.
    - intros t a [].
    - intros t a [H|[]]; discriminate. }
  destruct st as [self1 log1]. simpl in Hst. destruct Hst as [Hb1 Hl1].
  destruct (imaginary_frequencies (species self1)) as [freqs|] eqn:Ef.
  - destruct freqs as [|freq0 rest]; cbn [getitem nth_error].
    + rewrite Ef. repeat split; auto; try discriminate.
      intros (t & a & Hin). exfalso. exact (Hl1 t a Hin).
    + destruct (Rgtb freq0 min_imag_freq) eqn:Eg.
      * rewrite Ef. repeat split; auto; try discriminate.
        intros (t & a & Hin). exfalso. exact (Hl1 t a Hin).
      * assert (Hng : ~ freq0 > min_imag_freq).
        { intros Hgt. apply Rgtb_true_iff in Hgt. congruence. }
        destruct (imag_mode_has_correct_displacement self1 1 (5 / 100) false)
          as [[|]|e]; rewrite Ef; (split; [exact Hb1|]);
          (split; [discriminate|]);
          (split;
           [intros f r' Hs Hgt; inversion Hs; subst; contradiction|]);
          intros _; exists freq0, rest; auto.
  - rewrite Ef. repeat split; auto; try discriminate.
    intros (t & a & Hin). exfalso. exact (Hl1 t a Hin).
Qed.

(** C7.  [could_have_correct_imag_mode] raises ValueError when the bond
    rearrangement is not set, and [imag_mode_links_reactant_products]
    raises ValueError when the reactant or the product is not set. *)
Theorem precondition_errors (self : TSbase) (disp_mag : R) :
  (bond_rearrangement self = None ->
   could_have_correct_imag_mode self = (Raise ValueError, self, [])) /\
  (reactant self = None \/ product self = None ->
   imag_mode_links_reactant_products self disp_mag = Raise ValueError).
Proof.
  split.
  - intros H. unfold could_have_correct_imag_mode. rewrite H. reflexivity.
  - intros H. unfold imag_mode_links_reactant_products.
    destruct (reactant self), (product self); auto;
      destruct H; discriminate.
Qed.

End Gates.

Import Sn2Example.

Lemma could_have_correct_imag_mode_gates_witness :
  let '(r, self', log) := could_have_correct_imag_mode noisy_ts in
  bond_rearrangement self' = Some sn2_rearrangement /\
  (imaginary_frequencies (species self') = None ->
   r = Ok false /\ no_displacement_check log) /\
  (forall freq0 rest,
      imaginary_frequencies (species self') = Some (freq0 :: rest) ->
      freq0 > min_imag_freq ->
      r = Ok false /\ no_displacement_check log) /\
  ((exists t a, In (DisplacementCheck t a) log) ->
   exists freq0 rest,
     imaginary_frequencies (species self') = Some (freq0 :: rest) /\
     ~ freq0 > min_imag_freq).
Proof.
  apply (could_have_correct_imag_mode_gates noisy_ts sn2_rearrangement).
  reflexivity.
Defined.

Lemma precondition_errors_witness :
  could_have_correct_imag_mode bare_ts = (Raise ValueError, bare_ts, []) /\
  imag_mode_links_reactant_products bare_ts 1 = Raise ValueError.
Proof.
  split.
  - apply (proj1 (precondition_errors bare_ts 1)). reflexivity.
  - apply (proj2 (precondition_errors bare_ts 1)). left. reflexivity.
Defined.

End ValidatorFacts.

(* ------------------------------------------------------------------ *)
(** ** imag_mode_generates_other_bonds *)

Module OtherBondsFacts.

Import Displace Base GeomFacts DisplaceFacts.
Local Open Scope R_scope.

Section NewBonds.

Context {env : ValidatorEnv}.

Lemma no_metal_total (ts_atoms : list Atom) (e : Bond) :
  (fst e < List.length ts_atoms)%nat ->
  (snd e < List.length ts_atoms)%nat ->
  exists b, no_metal ts_atoms e = Ok b.
Proof.
  intros Hi Hj. unfold no_metal, getitem.
  destruct (nth_error ts_atoms (fst e)) as [ai|] eqn:Ei.
  - cbn [Py.bind]. destruct (label_in_metals (label ai)); eauto.
    destruct (nth_error ts_atoms (snd e)) as [aj|] eqn:Ej.
    + cbn [Py.bind]. eauto.
    + apply nth_error_None in Ej. lia.
  - apply nth_error_None in Ei. lia.
Qed.

Lemma filter_res_total {A : Type} (p : A -> Result bool) (l : list A) :
  (forall a, In a l -> exists b, p a = Ok b) ->
  exists l', filter_res p l = Ok l' /\
             forall a, In a l' <-> In a l /\ p a = Ok true.
Proof.
  induction l as [|a l IH]; intros Hp.
  - exists []. split; [reflexivity|]. intros a; simpl; tauto.
  - destruct (Hp a (or_introl eq_refl)) as [b Hb].
    destruct IH as (l' & Hl' & Hin).
    { intros a' Ha'. apply Hp. right. exact Ha'. }
    cbn [filter_res]. rewrite Hb, Hl'. cbn [Py.bind].
    eexists. split; [reflexivity|]. intros x.
    destruct b; simpl; rewrite Hin; split.
    + intros [->|[H1 H2]]; auto.
    + intros [[->|H1] H2]; auto.
    + intros [H1 H2]; auto.
    + intros [[->|H1] H2]; [congruence|auto].
Qed.

Lemma issubset_false (xs ys : list nat) (a : nat) :
  In a xs -> ~ In a ys -> issubset xs ys = false.
Proof.
  intros Hx Hy. unfold issubset.
  destruct (forallb _ xs) eqn:E; [|reflexivity].
  rewrite forallb_forall in E. specialize (E a Hx).
  apply existsb_exists in E. destruct E as (y & Hin & Heq).
  apply Nat.eqb_eq in Heq. subst. contradiction.
Qed.

Lemma product_has_other_bonds_total
      (ts_atoms : list Atom) (ts_edges edges : list Bond)
      (br : BondRearrangement) :
  valid_edges ts_atoms edges ->
  exists b, product_has_other_bonds ts_atoms ts_edges (Some br) true edges
            = Ok b.
Proof.
  intros Hv. unfold product_has_other_bonds.
  destruct (filter_res_total (no_metal ts_atoms)
              (filter (fun bond => negb (edge_in bond ts_edges)) edges))
    as (l' & Hl' & _).
  { intros e He. apply filter_In in He. destruct He as [He _].
    destruct (Hv e He). apply no_metal_total; auto. }
  rewrite Hl'. cbn [Py.bind]. eauto.
Qed.

Lemma product_has_other_bonds_new
      (ts_atoms : list Atom) (ts_edges edges : list Bond)
      (br : BondRearrangement) (bond : Bond) :
  valid_edges ts_atoms edges ->
  In bond edges ->
  edge_in bond ts_edges = false ->
  no_metal ts_atoms bond = Ok true ->
  ~ In (fst bond) (active_atoms br) \/ ~ In (snd bond) (active_atoms br) ->
  product_has_other_bonds ts_atoms ts_edges (Some br) true edges = Ok true.
Proof.
  intros Hv Hin Hnew Hmx Hact. unfold product_has_other_bonds.
  destruct (filter_res_total (no_metal ts_atoms)
              (filter (fun bond => negb (edge_in bond ts_edges)) edges))
    as (l' & Hl' & Hchar).
  { intros e He. apply filter_In in He. destruct He as [He _].
    destruct (Hv e He). apply no_metal_total; auto. }
  rewrite Hl'. cbn [Py.bind]. f_equal.
  assert (Hb : In bond l').
  { apply Hchar. split; [|exact Hmx]. apply filter_In. split; [exact Hin|].
    rewrite Hnew. reflexivity. }
  assert (Hatoms : In (fst bond) (bond_atoms l') /\
                   In (snd bond) (bond_atoms l')).
  { unfold bond_atoms. split; apply in_flat_map; exists bond; simpl; auto. }
  destruct Hatoms as [H1 H2].
  destruct Hact as [Ha|Ha];
    [rewrite (issubset_false _ _ _ H1 Ha)|rewrite (issubset_false _ _ _ H2 Ha)];
    reflexivity.
Qed.

(** The bond-making half of the check: a bond present after displacement
    (forwards or backwards) and absent at the candidate, with no metal at
    either end and an atom outside the active atoms, makes
    [imag_mode_has_correct_displacement] answer False. *)
Lemma new_bond_outside_active_atoms_rejected
      (self : TSbase) (br : BondRearrangement) (f b : Species)
      (bond : Bond) (disp_mag delta_threshold : R) (req_all : bool) :
  bond_rearrangement self = Some br ->
  displaced_species_along_mode (species self) 6 disp_mag (1 / 2)
  = Ok (Some f) ->
  displaced_species_along_mode (species self) 6 (- disp_mag) (1 / 2)
  = Ok (Some b) ->
  valid_edges (atoms (species self)) (make_graph (atoms f) (3 / 10)) ->
  valid_edges (atoms (species self)) (make_graph (atoms b) (3 / 10)) ->
  In bond (make_graph (atoms f) (3 / 10)) \/
  In bond (make_graph (atoms b) (3 / 10)) ->
  edge_in bond (make_graph (atoms (species self)) (3 / 10)) = false ->
  no_metal (atoms (species self)) bond = Ok true ->
  ~ In (fst bond) (active_atoms br) \/ ~ In (snd bond) (active_atoms br) ->
  imag_mode_has_correct_displacement self disp_mag delta_threshold req_all
  = Ok false.
Proof.
  intros Hbr Hf Hb Hvf Hvb Hin Hnew Hmx Hact.
  unfold imag_mode_has_correct_displacement.
  rewrite Hf, Hb. cbn [Py.bind].
  unfold imag_mode_generates_other_bonds. rewrite Hbr.
  destruct Hin as [Hin|Hin].
  - rewrite (product_has_other_bonds_new _ _ _ _ bond Hvf Hin Hnew Hmx Hact).
    reflexivity.
  - destruct (product_has_other_bonds_total (atoms (species self))
                (make_graph (atoms (species self)) (3 / 10))
                (make_graph (atoms f) (3 / 10)) br Hvf) as [x Hx].
    rewrite Hx. cbn [Py.bind]. destruct x; [reflexivity|].
    rewrite (product_has_other_bonds_new _ _ _ _ bond Hvb Hin Hnew Hmx Hact).
    reflexivity.
Qed.

End NewBonds.

(** *** The example: a broken bond to a spectator atom goes unnoticed *)

Import Sn2Example Sn2Displaced.

Lemma sqrt_eval (e v : R) : 0 <= v -> e = v * v -> sqrt e = v.
Proof. intros Hv ->. apply sqrt_square. exact Hv. Qed.

Lemma Rltb_true (x y : R) : x < y -> Rltb x y = true.
Proof. unfold Rltb. destruct (Rlt_dec x y); intros; [reflexivity|lra]. Qed.

Lemma Rltb_false (x y : R) : y <= x -> Rltb x y = false.
Proof. unfold Rltb. destruct (Rlt_dec x y); intros; [lra|reflexivity]. Qed.

Lemma fold_left_Rmax_lt (l : list R) (x cap : R) :
  x < cap -> Forall (fun d => d < cap) l -> fold_left Rmax l x < cap.
Proof.
  revert x; induction l as [|y l IH]; intros x Hx Hl; simpl; auto.
  inversion Hl; subst. apply IH; auto. apply Rmax_lub_lt; auto.
Qed.

(** When the full displacement is already below the cap the loop leaves at
    its first test. *)
Lemma displaced_first_try (s : Species) (n : nat) (f cap : R) (mode : Coords) :
  normal_mode s n = Some mode ->
  (0 < n_atoms s)%nat ->
  List.length mode = n_atoms s ->
  Forall (fun d => d < cap)
         (row_norms (arr_sub (coordinates s)
                             (arr_add (coordinates s) (arr_scale f mode)))) ->
  displaced_species_along_mode s n f cap
  = Ok (Some (set_coordinates
                (mkSpecies (name s ++ "_disp") (atoms s) (charge s) (mult s)
                           None None)
                (arr_add (coordinates s) (arr_scale f mode)))).
Proof.
  intros Hm Hn Hl Hall. unfold displaced_species_along_mode. rewrite Hm.
  cbn [shrink_loop].
  destruct (row_norms _) as [|x rest] eqn:E.
  - exfalso.
    unfold row_norms, arr_sub, arr_add, arr_scale, coordinates, n_atoms in *.
    destruct (atoms s); [simpl in Hn; lia|]. destruct mode; discriminate.
  - cbn [np_max Py.bind]. inversion Hall; subst.
    destruct (Rlt_dec _ _) as [H|H]; [reflexivity|].
    exfalso. apply H. apply fold_left_Rmax_lt; auto.
Qed.

Lemma atom_eq (l : string) (x y z x' y' z' : R) :
  x = x' -> y = y' -> z = z' -> mkAtom l (x, y, z) = mkAtom l (x', y', z').
Proof. intros -> -> ->; reflexivity. Qed.

Lemma sn2_forward_displaced :
  displaced_species_along_mode sn2_species 6 1 (1 / 2) = Ok (Some sn2_forward).
Proof.
  rewrite (displaced_first_try sn2_species 6 1 (1 / 2) sn2_mode);
    try reflexivity.
  - unfold sn2_forward, set_coordinates. cbn.
    do 2 f_equal. unfold sn2_species; cbn.
    f_equal. repeat (apply f_equal2; [apply atom_eq; lra|]). reflexivity.
  - unfold n_atoms; simpl; lia.
  - cbn. repeat constructor.
    + rewrite (sqrt_eval _ 0); lra.
    + rewrite (sqrt_eval _ (4 / 10)); lra.
    + rewrite (sqrt_eval _ 0); lra.
Qed.

Lemma sn2_backward_displaced :
  displaced_species_along_mode sn2_species 6 (Ropp 1) (1 / 2)
  = Ok (Some sn2_backward).
Proof.
  rewrite (displaced_first_try sn2_species 6 (Ropp 1) (1 / 2) sn2_mode);
    try reflexivity.
  - unfold sn2_backward, set_coordinates. cbn.
    do 2 f_equal. unfold sn2_species; cbn.
    f_equal. repeat (apply f_equal2; [apply atom_eq; lra|]). reflexivity.
  - unfold n_atoms; simpl; lia.
  - cbn. repeat constructor.
    + rewrite (sqrt_eval _ 0); lra.
    + rewrite (sqrt_eval _ (4 / 10)); lra.
    + rewrite (sqrt_eval _ 0); lra.
Qed.

Ltac eval_graph :=
  cbn [make_graph sn2_env]; unfold cutoff_graph;
  cbn [atoms sn2_species sn2_forward sn2_backward cutoff_graph_from
       bonds_from];
  unfold close_enough, sq_dist; cbn [coord vsub];
  repeat first [rewrite Rltb_true by lra | rewrite Rltb_false by lra];
  reflexivity.

Lemma sn2_ts_graph : make_graph (atoms sn2_species) (3 / 10) = [(0, 1)%nat].
Proof. eval_graph. Qed.

Lemma sn2_forward_graph : make_graph (atoms sn2_forward) (3 / 10) = [].
Proof. eval_graph. Qed.

Lemma sn2_backward_graph :
  make_graph (atoms sn2_backward) (3 / 10) = [(0, 1)%nat].
Proof. eval_graph. Qed.

Lemma sn2_no_other_bonds :
  imag_mode_generates_other_bonds sn2_ts (Some sn2_forward)
                                  (Some sn2_backward) true = Ok false.
Proof.
  unfold imag_mode_generates_other_bonds.
  cbn [species sn2_ts].
  rewrite sn2_ts_graph, sn2_forward_graph, sn2_backward_graph.
  reflexivity.
Qed.

Lemma sn2_correct_displacement (delta_threshold : R) (req_all : bool) :
  delta_threshold < 4 / 10 ->
  imag_mode_has_correct_displacement sn2_ts 1 delta_threshold req_all
  = Ok true.
Proof.
  intros Ht. unfold imag_mode_has_correct_displacement.
  cbn [species sn2_ts].
  rewrite sn2_forward_displaced, sn2_backward_displaced.
  cbn [Py.bind].
  change (mkTSbase sn2_species None None (Some sn2_rearrangement))
    with sn2_ts.
  rewrite sn2_no_other_bonds. cbn [Py.bind bond_rearrangement sn2_ts].
  cbn [correct_disp_loop sn2_rearrangement fbonds bbonds map_res
       fbond_correct_disp fst snd].
  unfold distance. cbn.
  rewrite (sqrt_eval _ (25 / 10)) by lra.
  rewrite (sqrt_eval _ (21 / 10)) by lra.
  unfold Rgtb. rewrite Rltb_true by lra.
  destruct req_all; reflexivity.
Qed.

(** C2 (the code departs from the claim).  In the example the forward
    displacement breaks the Cl-C bond: the bond is an edge of the
    candidate's graph and not of the forward geometry's, neither end is a
    metal, and Cl (atom 0) is not an active atom.  The bond check reports no
    other bonds and [imag_mode_has_correct_displacement] answers True. *)
Theorem broken_bond_outside_active_atoms_accepted :
  displaced_species_along_mode sn2_species 6 1 (1 / 2)
  = Ok (Some sn2_forward) /\
  displaced_species_along_mode sn2_species 6 (Ropp 1) (1 / 2)
  = Ok (Some sn2_backward) /\
  edge_in (0, 1)%nat (make_graph (atoms sn2_species) (3 / 10)) = true /\
  edge_in (0, 1)%nat (make_graph (atoms sn2_forward) (3 / 10)) = false /\
  no_metal (atoms sn2_species) (0, 1)%nat = Ok true /\
  ~ In 0%nat (active_atoms sn2_rearrangement) /\
  imag_mode_generates_other_bonds sn2_ts (Some sn2_forward)
                                  (Some sn2_backward) true = Ok false /\
  imag_mode_has_correct_displacement sn2_ts 1 (3 / 10) true = Ok true.
Proof.
  split; [exact sn2_forward_displaced|].
  split; [exact sn2_backward_displaced|].
  rewrite sn2_ts_graph, sn2_forward_graph.
  split; [reflexivity|]. split; [reflexivity|]. split; [reflexivity|].
  split.
  - cbn. intros [H|[H|[]]]; discriminate.
  - split; [exact sn2_no_other_bonds|].
    apply sn2_correct_displacement. lra.
Qed.

End OtherBondsFacts.

(* ------------------------------------------------------------------ *)
(** ** Name suffixes *)

Module StrFacts.

Import Str.
Local Open Scope string_scope.

Lemma append_assoc (a b c : string) : (a ++ b) ++ c = a ++ (b ++ c).
Proof. induction a as [|x a IH]; simpl; [reflexivity|now rewrite IH]. Qed.

Lemma rev_onto_spec (s acc : string) : rev_onto s acc = rev s ++ acc.
Proof.
  unfold rev. revert acc. induction s as [|c s IH]; intros acc; simpl.
  - reflexivity.
  - rewrite IH. rewrite (IH (String c "")). rewrite append_assoc.
    reflexivity.
Qed.

Lemma rev_onto_app (a b acc : string) :
  rev_onto (a ++ b) acc = rev_onto b (rev_onto a acc).
Proof.
  revert acc. induction a as [|c a IH]; intros acc; simpl;
    [reflexivity|apply IH].
Qed.

Lemma rev_app (a b : string) : rev (a ++ b) = rev b ++ rev a.
Proof.
  unfold rev at 1. rewrite rev_onto_app. rewrite rev_onto_spec.
  reflexivity.
Qed.

(** The test on [prefix ++ literal] only looks at the literal as long as
    the literal decides it. *)
Lemma ends_with_app (suffix p lit : string) :
  ends_with suffix (p ++ lit) = String.prefix (rev suffix) (rev lit ++ rev p).
Proof. unfold ends_with. rewrite rev_app. reflexivity. Qed.

End StrFacts.

(* ------------------------------------------------------------------ *)
(** ** get_ts_guess_function_and_params *)

Module GeneratorFacts.

Import Locate StrFacts.
Local Open Scope R_scope.

Section Yielded.

Context {types : PipelineTypes} {env : PipelineEnv}.

Variables (reaction : Reaction) (reactant product : Complex)
          (bond_rearr : BondRearrangement).

Abbreviation yielded :=
  (get_ts_guess_function_and_params reaction reactant product bond_rearr).

Ltac suffix_decide :=
  unfold is_two_fbonds_scan, is_two_bbonds_scan, is_2d_scan,
    named_with_suffix;
  cbn [fst snd existsb andb orb];
  repeat rewrite ends_with_app;
  reflexivity.

Ltac not_from_block H :=
  repeat (destruct H as [H|H]; [subst; suffix_decide|]); destruct H.

Lemma template_no_pair_scan (s : Strategy) :
  In s (template_strategy reactant product bond_rearr) ->
  is_two_fbonds_scan s = false /\ is_two_bbonds_scan s = false.
Proof.
  unfold template_strategy. intros H. split; not_from_block H.
Qed.

Lemma sn2_like_no_pair_scan (s : Strategy) :
  In s (sn2_like_strategies reaction reactant product bond_rearr) ->
  is_two_fbonds_scan s = false /\ is_two_bbonds_scan s = false.
Proof.
  unfold sn2_like_strategies. destruct (_ && _); intros H;
    [|destruct H]. split; not_from_block H.
Qed.

Lemma fbond_1d_no_pair_scan (s : Strategy) :
  In s (fbond_1d_strategies reaction reactant product bond_rearr) ->
  is_two_fbonds_scan s = false /\ is_two_bbonds_scan s = false.
Proof.
  unfold fbond_1d_strategies. destruct (_ && _); intros H;
    [|destruct H]. split; not_from_block H.
Qed.

Lemma pair_2d_no_pair_scan (fbond bbond : Bond) (s : Strategy) :
  In s (pair_2d_strategies reaction reactant product fbond bbond) ->
  is_two_fbonds_scan s = false /\ is_two_bbonds_scan s = false.
Proof.
  unfold pair_2d_strategies. intros H. split; not_from_block H.
Qed.

Lemma all_pairs_no_pair_scan (s : Strategy) :
  In s (all_pairs_2d_strategies reaction reactant product bond_rearr) ->
  is_two_fbonds_scan s = false /\ is_two_bbonds_scan s = false.
Proof.
  unfold all_pairs_2d_strategies. destruct (_ && _); intros H;
    [|destruct H].
  apply in_flat_map in H. destruct H as (fbond & _ & H).
  apply in_flat_map in H. destruct H as (bbond & _ & H).
  apply (pair_2d_no_pair_scan fbond bbond s H).
Qed.

Lemma bbond_1d_no_pair_scan (s : Strategy) :
  In s (bbond_1d_strategies reaction reactant product bond_rearr) ->
  is_two_fbonds_scan s = false /\ is_two_bbonds_scan s = false.
Proof.
  unfold bbond_1d_strategies. destruct (_ && _); intros H;
    [|destruct H]. split; not_from_block H.
Qed.

Lemma two_fbonds_block (s : Strategy) :
  In s (two_fbonds_strategies reaction reactant product bond_rearr) ->
  n_fbonds bond_rearr = 2%nat /\ is_two_bbonds_scan s = false.
Proof.
  unfold two_fbonds_strategies.
  destruct (Nat.eqb (n_fbonds bond_rearr) 2) eqn:E; intros H;
    [|destruct H].
  split; [apply Nat.eqb_eq; exact E|]. not_from_block H.
Qed.

Lemma two_bbonds_block (s : Strategy) :
  In s (two_bbonds_strategies reaction reactant product bond_rearr) ->
  n_bbonds bond_rearr = 2%nat /\ is_two_fbonds_scan s = false.
Proof.
  unfold two_bbonds_strategies.
  destruct (Nat.eqb (n_bbonds bond_rearr) 2) eqn:E; intros H;
    [|destruct H].
  split; [apply Nat.eqb_eq; exact E|]. not_from_block H.
Qed.

(** Where a strategy of the yielded sequence comes from. *)
Lemma yielded_cases (s : Strategy) :
  In s yielded ->
  (is_two_fbonds_scan s = false /\ is_two_bbonds_scan s = false) \/
  (n_fbonds bond_rearr = 2%nat /\ is_two_bbonds_scan s = false) \/
  (n_bbonds bond_rearr = 2%nat /\ is_two_fbonds_scan s = false).
Proof.
  unfold get_ts_guess_function_and_params. intros H.
  repeat (apply in_app_or in H; destruct H as [H|H]).
  - left. apply template_no_pair_scan; exact H.
  - left. apply sn2_like_no_pair_scan; exact H.
  - left. apply fbond_1d_no_pair_scan; exact H.
  - left. apply all_pairs_no_pair_scan; exact H.
  - left. apply bbond_1d_no_pair_scan; exact H.
  - right. left. apply two_fbonds_block; exact H.
  - right. right. apply two_bbonds_block; exact H.
Qed.

Lemma two_fbonds_scan_yielded :
  n_fbonds bond_rearr = 2%nat ->
  exists s, In s yielded /\ is_two_fbonds_scan s = true.
Proof.
  intros H.
  assert (Hb : exists s rest,
             two_fbonds_strategies reaction reactant product bond_rearr
             = s :: rest /\ is_two_fbonds_scan s = true).
  { unfold two_fbonds_strategies. rewrite H. cbn [Nat.eqb].
    eexists. eexists. split; [reflexivity|]. suffix_decide. }
  destruct Hb as (s & rest & Hs & Hn). exists s. split; [|exact Hn].
  unfold get_ts_guess_function_and_params.
  do 5 (apply in_or_app; right). apply in_or_app; left.
  rewrite Hs. left. reflexivity.
Qed.

Lemma two_bbonds_scan_yielded :
  n_bbonds bond_rearr = 2%nat ->
  exists s, In s yielded /\ is_two_bbonds_scan s = true.
Proof.
  intros H.
  assert (Hb : exists s rest,
             two_bbonds_strategies reaction reactant product bond_rearr
             = s :: rest /\ is_two_bbonds_scan s = true).
  { unfold two_bbonds_strategies. rewrite H. cbn [Nat.eqb].
    eexists. eexists. split; [reflexivity|]. suffix_decide. }
  destruct Hb as (s & rest & Hs & Hn). exists s. split; [|exact Hn].
  unfold get_ts_guess_function_and_params.
  do 6 (apply in_or_app; right). rewrite Hs. left. reflexivity.
Qed.

(** C1, as the code has it.  The generator yields a 2-D scan over the two
    forming bonds exactly when the rearrangement has exactly two forming
    bonds, and a 2-D scan over the two breaking bonds exactly when it has
    exactly two breaking bonds; the number of bonds of the other kind plays
    no part. *)
Theorem pair_scans_yielded_iff :
  ((exists s, In s yielded /\ is_two_fbonds_scan s = true)
   <-> n_fbonds bond_rearr = 2%nat) /\
  ((exists s, In s yielded /\ is_two_bbonds_scan s = true)
   <-> n_bbonds bond_rearr = 2%nat).
Proof.
  split; split.
  - intros (s & Hin & Hs).
    destruct (yielded_cases s Hin) as [[H _]|[[H _]|[_ H]]];
      [congruence|exact H|congruence].
  - apply two_fbonds_scan_yielded.
  - intros (s & Hin & Hs).
    destruct (yielded_cases s Hin) as [[_ H]|[[_ H]|[H _]]];
      [congruence|congruence|exact H].
  - apply two_bbonds_scan_yielded.
Qed.

(** C6.  With exactly one forming and one breaking bond in a substitution
    or elimination, the sequence starts with the template strategy, then
    the low-level 2-D scan over the forming and the breaking bond, and the
    1-D scans come after it. *)
Theorem sn2_like_2d_scan_before_1d :
  n_fbonds bond_rearr = 1%nat ->
  n_bbonds bond_rearr = 1%nat ->
  rxn_type reaction = Substitution \/ rxn_type reaction = Elimination ->
  exists (fbond bbond : Bond) (scan_name : string)
         (fbond_final_dist bbond_final_dist : R)
         (template scan_1d : Strategy) (rest : list Strategy),
    fbonds bond_rearr = [fbond] /\
    bbonds bond_rearr = [bbond] /\
    fst template = get_template_ts_guess /\
    is_1d_scan scan_1d = true /\
    yielded
    = template
        :: (get_ts_guess_2d,
            [PComplex reactant; PComplex product; PBond fbond; PBond bbond;
             PInt 12; PStr (scan_name ++ "_ll2d"); PMethod get_lmethod;
             PKeywords (low_opt get_lmethod); PFloat fbond_final_dist;
             PFloat bbond_final_dist])
        :: scan_1d :: rest.
Proof.
  intros Hf Hb Ht.
  unfold n_fbonds in Hf. unfold n_bbonds in Hb.
  destruct (fbonds bond_rearr) as [|fbond [|? ?]] eqn:Ef;
    try discriminate.
  destruct (bbonds bond_rearr) as [|bbond [|? ?]] eqn:Eb;
    try discriminate.
  exists fbond, bbond.
  unfold get_ts_guess_function_and_params, template_strategy,
    sn2_like_strategies.
  unfold n_fbonds, n_bbonds. rewrite Ef, Eb. cbn [List.length Nat.eqb].
  assert (Hty : is_substitution_or_elimination (rxn_type reaction) = true)
    by (destruct Ht as [-> | ->]; reflexivity).
  rewrite Hty. cbn [andb bond_at nth app].
  do 6 eexists.
  split; [reflexivity|]. split; [reflexivity|].
  (split; [|split; [|reflexivity]]); reflexivity.
Qed.

End Yielded.

Import PipelineExample.

(** C1, as the claim has it, fails: a rearrangement with two forming bonds
    and one breaking bond is given the two-forming-bond scan, and one with
    two breaking bonds and one forming bond the two-breaking-bond scan. *)
Lemma pair_scan_with_counterpart :
  (n_fbonds rearr_2f_1b = 2%nat /\ n_bbonds rearr_2f_1b = 1%nat /\
   exists s,
     In s (get_ts_guess_function_and_params
             sn2_reaction [chloride; fluoromethane]
             [chloromethane; fluoride] rearr_2f_1b) /\
     is_two_fbonds_scan s = true) /\
  (n_bbonds rearr_1f_2b = 2%nat /\ n_fbonds rearr_1f_2b = 1%nat /\
   exists s,
     In s (get_ts_guess_function_and_params
             sn2_reaction [chloride; fluoromethane]
             [chloromethane; fluoride] rearr_1f_2b) /\
     is_two_bbonds_scan s = true).
Proof.
  split; (split; [reflexivity|]); (split; [reflexivity|]).
  - apply two_fbonds_scan_yielded. reflexivity.
  - apply two_bbonds_scan_yielded. reflexivity.
Qed.

Lemma sn2_like_2d_scan_before_1d_witness :
  exists (fbond bbond : Bond) (scan_name : string)
         (fbond_final_dist bbond_final_dist : R)
         (template scan_1d : Strategy) (rest : list Strategy),
    fbonds sn2_rearr = [fbond] /\
    bbonds sn2_rearr = [bbond] /\
    fst template = get_template_ts_guess /\
    is_1d_scan scan_1d = true /\
    get_ts_guess_function_and_params
      sn2_reaction [chloride; fluoromethane] [chloromethane; fluoride]
      sn2_rearr
    = template
        :: (get_ts_guess_2d,
            [PComplex [chloride; fluoromethane];
             PComplex [chloromethane; fluoride]; PBond fbond; PBond bbond;
             PInt 12; PStr (scan_name ++ "_ll2d"); PMethod get_lmethod;
             PKeywords (low_opt get_lmethod); PFloat fbond_final_dist;
             PFloat bbond_final_dist])
        :: scan_1d :: rest.
Proof.
  apply (sn2_like_2d_scan_before_1d sn2_reaction [chloride; fluoromethane]
           [chloromethane; fluoride] sn2_rearr).
  - reflexivity.
  - reflexivity.
  - left. reflexivity.
Defined.

End GeneratorFacts.

(* ------------------------------------------------------------------ *)
(** ** get_ts and find_tss *)

Module PipelineFacts.

Import Locate.
Local Open Scope R_scope.

Section Search.

Context {types : PipelineTypes} {env : PipelineEnv}.

(** The loop of [get_ts] returns the outcome of the first strategy that
    leads to a validated transition state and tries nothing after it; it
    returns None after trying every strategy in order, none of which did. *)
Lemma ts_loop_first_validated
      (bond_rearrangement : BondRearrangement) (l : list Strategy) :
  match fst (ts_loop bond_rearrangement l) with
  | Some found =>
      exists pre s post,
        l = pre ++ s :: post /\
        Forall (fun s' => strategy_outcome bond_rearrangement s' = None) pre /\
        strategy_outcome bond_rearrangement s = Some found /\
        attempts (snd (ts_loop bond_rearrangement l)) = pre ++ [s]
  | None =>
      Forall (fun s => strategy_outcome bond_rearrangement s = None) l /\
      attempts (snd (ts_loop bond_rearrangement l)) = l
  end.
Proof.
  induction l as [|[func params] l IH].
  - simpl. split; constructor.
  - cbn [ts_loop].
    assert (Hskip :
              strategy_outcome bond_rearrangement (func, params) = None ->
              forall log,
                attempts log = [] ->
                match fst (ts_loop bond_rearrangement l) with
                | Some found =>
                    exists pre s post,
                      (func, params) :: l = pre ++ s :: post /\
                      Forall (fun s' => strategy_outcome bond_rearrangement s'
                                        = None) pre /\
                      strategy_outcome bond_rearrangement s = Some found /\
                      (func, params)
                        :: attempts (log ++ snd (ts_loop bond_rearrangement l))
                      = pre ++ [s]
                | None =>
                    Forall (fun s => strategy_outcome bond_rearrangement s
                                     = None) ((func, params) :: l) /\
                    (func, params)
                      :: attempts (log ++ snd (ts_loop bond_rearrangement l))
                    = (func, params) :: l
                end).
    { intros Hnone log Hlog.
      assert (Ha : attempts (log ++ snd (ts_loop bond_rearrangement l))
                   = attempts (snd (ts_loop bond_rearrangement l))).
      { unfold attempts in *. rewrite flat_map_app, Hlog. reflexivity. }
      rewrite Ha.
      destruct (fst (ts_loop bond_rearrangement l)) as [found|].
      - destruct IH as (pre & s & post & Hl & Hpre & Hs & Hat).
        exists ((func, params) :: pre), s, post. repeat split.
        + rewrite Hl. reflexivity.
        + constructor; assumption.
        + exact Hs.
        + rewrite Hat. reflexivity.
      - destruct IH as [Hall Hat]. split.
        + constructor; assumption.
        + rewrite Hat. reflexivity. }
    destruct (call_guess func params) as [ts_guess|] eqn:Eg.
    + destruct (guess_could_have_correct_imag_mode ts_guess
                  bond_rearrangement) eqn:Ec; cbn [negb].
      * destruct (is_true_ts
                    (opt_ts (new_TransitionState ts_guess
                               bond_rearrangement))) eqn:Et; cbn [negb].
        -- cbn [fst snd]. exists [], (func, params), l. repeat split.
           ++ constructor.
           ++ unfold strategy_outcome. cbn [fst snd].
              rewrite Eg, Ec, Et. reflexivity.
           ++ cbn. destruct make_ts_template; reflexivity.
        -- cbn [fst snd].
           apply (Hskip ltac:(unfold strategy_outcome; cbn [fst snd];
                              rewrite Eg, Ec, Et; reflexivity)
                        [OptTS ts_guess] eq_refl).
      * cbn [fst snd].
        apply (Hskip ltac:(unfold strategy_outcome; cbn [fst snd];
                           rewrite Eg, Ec; reflexivity) [] eq_refl).
    + cbn [fst snd].
      apply (Hskip ltac:(unfold strategy_outcome; cbn [fst snd];
                         rewrite Eg; reflexivity) [] eq_refl).
Qed.

(** Without the truncation pre-pass [get_ts] is the orientation followed by
    the strategy loop. *)
Lemma get_ts_without_truncation
      (reaction : Reaction) (reactant product : Complex)
      (bond_rearrangement : BondRearrangement) (strip_molecule : bool) :
  strip_molecule = false \/
  is_worth_truncating reactant bond_rearrangement = false ->
  get_ts reaction reactant product bond_rearrangement strip_molecule
  = get_ts_scans reaction reactant product bond_rearrangement.
Proof.
  unfold get_ts. intros [-> | ->]; [reflexivity|].
  rewrite andb_false_r. reflexivity.
Qed.

(** [get_truncated_ts] never returns: whatever happens before, its last
    statement subtracts a string from a string. *)
Lemma get_truncated_ts_raises
      (reaction : Reaction) (reactant product : Complex)
      (bond_rearr : BondRearrangement) :
  exists e,
    fst (get_truncated_ts reaction reactant product bond_rearr) = Raise e.
Proof.
  unfold get_truncated_ts.
  destruct (get_bond_rearrangs _ _ _) as [brs|]; [|eexists; reflexivity].
  destruct (truncated_loop _ _ _ brs) as [[c|e] log];
    eexists; reflexivity.
Qed.

Lemma get_ts_raises_when_truncating
      (reaction : Reaction) (reactant product : Complex)
      (bond_rearrangement : BondRearrangement) :
  is_worth_truncating reactant bond_rearrangement = true ->
  exists e,
    fst (get_ts reaction reactant product bond_rearrangement true)
    = Raise e.
Proof.
  intros H. unfold get_ts. rewrite H. cbn [andb].
  destruct (get_truncated_ts_raises reaction reactant product
              bond_rearrangement) as [e He].
  destruct (get_truncated_ts _ _ _ _) as [[r|e'] log];
    cbn [fst] in He; [discriminate|]. exists e'. reflexivity.
Qed.

Lemma find_tss_no_rearrangement (reaction : Reaction) :
  get_bond_rearrangs (ReactantComplex (reacs reaction))
                     (ProductComplex (prods reaction)) (rxn_name reaction)
  = None ->
  find_tss reaction = (Ok None, []).
Proof. intros H. unfold find_tss. rewrite H. reflexivity. Qed.

(** When every call of [get_ts] returns None the loop of [find_tss]
    collects nothing. *)
Lemma find_tss_loop_all_none
      (reaction : Reaction) (product : Complex)
      (bond_rearrangs : list BondRearrangement) :
  (forall reactant br,
      In br bond_rearrangs ->
      exists reactant',
        fst (get_ts reaction reactant product br true)
        = Ok (None, reactant')) ->
  forall reactant,
    fst (find_tss_loop reaction reactant product bond_rearrangs) = Ok [].
Proof.
  induction bond_rearrangs as [|br rest IH]; intros Hall reactant.
  - reflexivity.
  - cbn [find_tss_loop].
    destruct (Hall reactant br (or_introl eq_refl)) as [reactant' Hr].
    destruct (get_ts reaction reactant product br true) as [[[f r]|e] log];
      cbn [fst] in Hr; try discriminate.
    inversion Hr; subst.
    assert (IH' := IH (fun r b Hb => Hall r b (or_intror Hb)) reactant').
    destruct (find_tss_loop reaction reactant' product rest)
      as [[found|e] log']; cbn [fst] in IH'; try discriminate.
    inversion IH'; subst. reflexivity.
Qed.

Lemma find_tss_all_none (reaction : Reaction)
      (bond_rearrangs : list BondRearrangement) :
  get_bond_rearrangs (ReactantComplex (reacs reaction))
                     (ProductComplex (prods reaction)) (rxn_name reaction)
  = Some bond_rearrangs ->
  (forall reactant br,
      In br bond_rearrangs ->
      exists reactant',
        fst (get_ts reaction reactant (ProductComplex (prods reaction)) br
                    true)
        = Ok (None, reactant')) ->
  fst (find_tss reaction) = Ok None.
Proof.
  intros Hb Hall. unfold find_tss. rewrite Hb.
  assert (H := find_tss_loop_all_none reaction _ bond_rearrangs Hall
                 (ReactantComplex (reacs reaction))).
  destruct (find_tss_loop _ _ _ _) as [[found|e] log]; cbn [fst] in H;
    try discriminate.
  inversion H; subst. reflexivity.
Qed.

(** [find_tss] returns None or a non-empty list, never an empty one. *)
Lemma find_tss_never_empty (reaction : Reaction)
      (found : list TransitionState) :
  fst (find_tss reaction) = Ok (Some found) -> found <> [].
Proof.
  unfold find_tss.
  destruct (get_bond_rearrangs _ _ _) as [brs|]; [|discriminate].
  destruct (find_tss_loop _ _ _ _) as [[l|e] log]; [|discriminate].
  destruct l as [|t l]; cbn; [discriminate|].
  intros H; inversion H; subst. discriminate.
Qed.

(** An exception of [get_ts] on the first rearrangement leaves
    [find_tss]. *)
Lemma find_tss_raises_when_truncating (reaction : Reaction)
      (br : BondRearrangement) (rest : list BondRearrangement) :
  get_bond_rearrangs (ReactantComplex (reacs reaction))
                     (ProductComplex (prods reaction)) (rxn_name reaction)
  = Some (br :: rest) ->
  is_worth_truncating (ReactantComplex (reacs reaction)) br = true ->
  exists e, fst (find_tss reaction) = Raise e.
Proof.
  intros Hb Hw. unfold find_tss. rewrite Hb. cbn [find_tss_loop].
  destruct (get_ts_raises_when_truncating reaction
              (ReactantComplex (reacs reaction))
              (ProductComplex (prods reaction)) br Hw) as [e He].
  destruct (get_ts _ _ _ br true) as [[r|e'] log]; cbn [fst] in He;
    [discriminate|]. exists e'. reflexivity.
Qed.

End Search.

Import PipelineExample.

(** C5 (the code departs from the claim).  For the thirty-atom complex the
    truncation pre-pass is taken and [get_ts] raises TypeError, although the
    strategy loop on the same input (the call with [strip_molecule=False])
    finds a validated transition state. *)
Theorem get_ts_raises_in_truncation_prepass :
  is_worth_truncating [big_reactant] big_rearr = true /\
  fst (get_ts big_reaction [big_reactant] [big_product] big_rearr true)
  = Raise TypeError /\
  fst (get_ts big_reaction [big_reactant] [big_product] big_rearr false)
  = Ok (Some ("ts"%string, 0), [big_reactant]).
Proof.
  split; [reflexivity|]. split; reflexivity.
Qed.

(** C8 (the code departs from the claim).  Where no optimised guess
    validates, every rearrangement fails to yield a transition state: for
    the six-atom reaction [find_tss] returns None; for the thirty-atom
    reaction the enumerator returns one rearrangement, the strategy loop
    finds nothing for it, and [find_tss] raises TypeError instead of
    returning None.  Where guesses validate the six-atom reaction gives the
    list of the one transition state found. *)
Theorem find_tss_raises_in_truncation_prepass :
  @get_bond_rearrangs _ barren_env
     (ReactantComplex (reacs big_reaction))
     (ProductComplex (prods big_reaction)) (rxn_name big_reaction)
  = Some [big_rearr] /\
  fst (@get_ts _ barren_env big_reaction [big_reactant] [big_product]
               big_rearr false)
  = Ok (None, [big_reactant]) /\
  fst (@find_tss _ barren_env big_reaction) = Raise TypeError /\
  fst (@find_tss _ barren_env small_reaction) = Ok None /\
  fst (@find_tss _ toy_env small_reaction) = Ok (Some [("ts"%string, 0)]).
Proof.
  split; [reflexivity|]. split; [reflexivity|]. split; [reflexivity|].
  split; reflexivity.
Qed.

End PipelineFacts.

(* ------------------------------------------------------------------ *)
(** ** reaction.py *)

Module ReactionFacts.

Import Locate.
Local Open Scope R_scope.

Section Container.

Context {types : PipelineTypes} {env : PipelineEnv}.

Lemma Rltb_spec (x y : R) : Rltb x y = true <-> x < y.
Proof.
  unfold Rltb. destruct (Rlt_dec x y); split; intros; try lra; auto;
    discriminate.
Qed.

Lemma energy_eqb_spec (a : option R) (m : R) :
  energy_eqb a (Some m) = true <-> a = Some m.
Proof.
  destruct a as [x|]; simpl.
  - destruct (Req_dec_T x m); split; intros H; try congruence;
      try (inversion H; contradiction).
  - split; discriminate.
Qed.

(** [min] of energies that are all set: a lower bound that is attained. *)
Lemma py_min_from_spec (rest : list (option R)) :
  Forall (fun e => e <> None) rest ->
  forall c : R,
  exists m : R,
    py_min_from (Some c) rest = Ok (Some m) /\
    m <= c /\
    (forall x, In (Some x) rest -> m <= x) /\
    (m = c \/ In (Some m) rest).
Proof.
  induction rest as [|item rest IH]; intros Hall c.
  - exists c. simpl. repeat split; auto; try lra. intros x [].
  - inversion Hall as [|? ? Hi Hr]; subst.
    destruct item as [x|]; [|congruence].
    cbn [py_min_from py_lt Py.bind].
    destruct (Rltb x c) eqn:E.
    + apply Rltb_spec in E.
      destruct (IH Hr x) as (m & Hm & Hle & Hlow & Hin).
      exists m. split; [exact Hm|]. split; [lra|]. split.
      * intros y [Hy|Hy]; [inversion Hy; subst; exact Hle|auto].
      * right. destruct Hin as [->|Hin]; [left; reflexivity|right; exact Hin].
    + assert (Hge : c <= x).
      { destruct (Rle_or_lt c x) as [H|H]; [exact H|].
        apply Rltb_spec in H. congruence. }
      destruct (IH Hr c) as (m & Hm & Hle & Hlow & Hin).
      exists m. split; [exact Hm|]. split; [exact Hle|]. split.
      * intros y [Hy|Hy]; [inversion Hy; subst; lra|auto].
      * destruct Hin as [->|Hin]; [left; reflexivity|right; right; exact Hin].
Qed.

Lemma filter_first {A : Type} (p : A -> bool) (l : list A) (a : A) :
  In a l -> p a = true ->
  exists t pre post rest,
    filter p l = t :: rest /\ l = pre ++ t :: post /\ p t = true /\
    forall x, In x pre -> p x = false.
Proof.
  induction l as [|b l IH]; intros Hin Hp; [destruct Hin|].
  cbn [filter]. destruct (p b) eqn:E.
  - exists b, [], l, (filter p l). repeat split; auto. intros x [].
  - destruct Hin as [->|Hin]; [congruence|].
    destruct (IH Hin Hp) as (t & pre & post & rest & Hf & Hl & Ht & Hpre).
    exists t, (b :: pre), post, rest. repeat split; auto.
    + rewrite Hl. reflexivity.
    + intros x [->|Hx]; auto.
Qed.

(** With an energy missing among two or more, [min] raises. *)
Lemma py_min_from_missing (rest : list (option R)) (current : option R) :
  rest <> [] ->
  current = None \/ In None rest ->
  py_min_from current rest = Raise TypeError.
Proof.
  revert current. induction rest as [|item rest IH]; intros current Hne H;
    [congruence|].
  cbn [py_min_from].
  destruct item as [x|], current as [c|]; cbn [py_lt Py.bind];
    try reflexivity.
  destruct H as [H|[H|H]]; try discriminate.
  destruct rest as [|item' rest']; [destruct H|].
  apply IH; [discriminate|]. right. exact H.
Qed.

(** C9.  [find_lowest_energy_ts] returns None when the list of transition
    states is unset; on a non-empty list (of transition states that have an
    energy) it returns the first element whose energy is the minimum over
    the list. *)
Theorem find_lowest_energy_ts_minimum (self : Reaction) :
  (tss self = None -> find_lowest_energy_ts self = Ok None) /\
  (forall l : list TransitionState,
      tss self = Some l ->
      l <> [] ->
      Forall (fun t => ts_energy t <> None) l ->
      exists (t : TransitionState) (m : R)
             (pre post : list TransitionState),
        find_lowest_energy_ts self = Ok (Some t) /\
        ts_energy t = Some m /\
        (forall t' e', In t' l -> ts_energy t' = Some e' -> m <= e') /\
        l = pre ++ t :: post /\
        (forall t', In t' pre -> ts_energy t' <> Some m)).
Proof.
  split.
  - intros H. unfold find_lowest_energy_ts. rewrite H. reflexivity.
  - intros l Hl Hne Hall. unfold find_lowest_energy_ts. rewrite Hl.
    destruct l as [|t0 [|t1 l']]; [congruence| |].
    + cbn. inversion Hall as [|? ? H0 _]; subst.
      destruct (ts_energy t0) as [m|] eqn:E0; [|congruence].
      exists t0, m, [], []. split; [reflexivity|]. split; [exact E0|].
      split; [|split; [reflexivity|]].
      * intros t' e' [<-|[]] He. rewrite E0 in He. inversion He; lra.
      * intros t' [].
    + cbn [List.length Nat.ltb Nat.leb].
      set (l := t0 :: t1 :: l') in *.
      inversion Hall as [|? ? H0 Hrest]; subst.
      destruct (ts_energy t0) as [c|] eqn:E0; [|congruence].
      assert (Hrest' : Forall (fun e => e <> None)
                              (map ts_energy (t1 :: l'))).
      { apply Forall_map. exact Hrest. }
      destruct (py_min_from_spec _ Hrest' c) as (m & Hm & Hle & Hlow & Hin).
      assert (Hmin : py_min (map ts_energy l) = Ok (Some m)).
      { unfold l. cbn [map py_min]. rewrite E0. exact Hm. }
      rewrite Hmin. cbn [Py.bind].
      assert (Hex : exists t, In t l /\ ts_energy t = Some m).
      { destruct Hin as [->|Hin].
        - exists t0. split; [left; reflexivity|exact E0].
        - apply in_map_iff in Hin. destruct Hin as (t & Ht & Htin).
          exists t. split; [right; exact Htin|exact Ht]. }
      destruct Hex as (t & Htin & Htm).
      destruct (filter_first
                  (fun t => energy_eqb (ts_energy t) (Some m)) l t Htin)
        as (tf & pre & post & rest & Hf & Hsplit & Htf & Hpre).
      { apply energy_eqb_spec. exact Htm. }
      rewrite Hf. cbn [getitem nth_error Py.bind].
      exists tf, m, pre, post. split; [reflexivity|].
      split; [apply energy_eqb_spec; exact Htf|].
      split; [|split; [exact Hsplit|]].
      * intros t' e' [<-|Ht'] He.
        -- rewrite E0 in He. inversion He; subst. exact Hle.
        -- apply Hlow. rewrite <- He. apply in_map. exact Ht'.
      * intros t' Ht' He. apply energy_eqb_spec in He.
        rewrite (Hpre t' Ht') in He. discriminate.
Qed.

(** *** Balance *)

Lemma _check_solvent_tail_keeps (self self' : Reaction) :
  _check_solvent_tail self = Ok self' ->
  map mol_n_atoms (reacs self') = map mol_n_atoms (reacs self) /\
  map mol_n_atoms (prods self') = map mol_n_atoms (prods self) /\
  map mol_charge (reacs self') = map mol_charge (reacs self) /\
  map mol_charge (prods self') = map mol_charge (prods self) /\
  rxn_type self' = rxn_type self.
Proof.
  unfold _check_solvent_tail. destruct (rxn_solvent self); [|discriminate].
  intros H; inversion H; subst; cbn.
  rewrite !map_map. cbn. repeat split; reflexivity.
Qed.

(** The solvent check changes neither atom counts, charges nor the type. *)
Lemma _check_solvent_keeps (self self' : Reaction) :
  _check_solvent self = Ok self' ->
  map mol_n_atoms (reacs self') = map mol_n_atoms (reacs self) /\
  map mol_n_atoms (prods self') = map mol_n_atoms (prods self) /\
  map mol_charge (reacs self') = map mol_charge (reacs self) /\
  map mol_charge (prods self') = map mol_charge (prods self) /\
  rxn_type self' = rxn_type self.
Proof.
  unfold _check_solvent. destruct (rxn_solvent self) eqn:Es.
  - apply _check_solvent_tail_keeps.
  - destruct (forallb _ _).
    + intros H; inversion H; subst. repeat split; reflexivity.
    + destruct (forallb _ _).
      * destruct (getitem (reacs self) 0) as [first_reac|e];
          [|discriminate].
        cbn [Py.bind]. destruct (negb _); [discriminate|].
        intros H. apply _check_solvent_tail_keeps in H. exact H.
      * apply _check_solvent_tail_keeps.
Qed.

Lemma _check_balance_unbalanced (self : Reaction) :
  sum_nat (map mol_n_atoms (reacs self))
  <> sum_nat (map mol_n_atoms (prods self)) \/
  sum_Z (map mol_charge (reacs self))
  <> sum_Z (map mol_charge (prods self)) ->
  _check_balance self = Raise UnbalancedReaction.
Proof.
  intros H. unfold _check_balance.
  destruct (Nat.eqb _ _) eqn:En; cbn [negb]; [|reflexivity].
  destruct (Z.eqb _ _) eqn:Ez; cbn [negb]; [|reflexivity].
  apply Nat.eqb_eq in En. apply Z.eqb_eq in Ez. destruct H; contradiction.
Qed.

Lemma _check_balance_balanced (self self' : Reaction) :
  _check_balance self = Ok self' ->
  self' = with_charge self (sum_Z (map mol_charge (reacs self))) /\
  sum_Z (map mol_charge (reacs self))
  = sum_Z (map mol_charge (prods self)).
Proof.
  unfold _check_balance.
  destruct (Nat.eqb _ _); cbn [negb]; [|discriminate].
  destruct (Z.eqb _ _) eqn:Ez; cbn [negb]; [|discriminate].
  apply Z.eqb_eq in Ez. intros H; inversion H; subst. auto.
Qed.

(** C10, as the code has it.  When the solvent check that precedes the
    balance check passes, constructing a Reaction raises UnbalancedReaction
    whenever the atom counts or the summed charges of reactants and
    products differ; when construction succeeds the reaction's charge is
    the sum of the charges of the reactants passed in, which is also the
    sum over the reactants the reaction ends with. *)
Theorem unbalanced_reaction_raises
        (mol1 mol2 mol3 mol4 mol5 mol6 : option Molecule)
        (name : string) (solvent_name : option string)
        (checked : Reaction) :
  _check_solvent (Reaction_attributes mol1 mol2 mol3 mol4 mol5 mol6 name
                                      solvent_name)
  = Ok checked ->
  let reactants :=
    of_kind IsReactant [mol1; mol2; mol3; mol4; mol5; mol6] in
  let products :=
    of_kind IsProduct [mol1; mol2; mol3; mol4; mol5; mol6] in
  (sum_nat (map mol_n_atoms reactants) <> sum_nat (map mol_n_atoms products)
   \/ sum_Z (map mol_charge reactants) <> sum_Z (map mol_charge products) ->
   Reaction_init mol1 mol2 mol3 mol4 mol5 mol6 name solvent_name
   = Raise UnbalancedReaction) /\
  (forall rxn,
      Reaction_init mol1 mol2 mol3 mol4 mol5 mol6 name solvent_name
      = Ok rxn ->
      rxn_charge rxn = Some (sum_Z (map mol_charge reactants)) /\
      rxn_charge rxn = Some (sum_Z (map mol_charge (reacs rxn)))).
Proof.
  intros Hs reactants products.
  destruct (_check_solvent_keeps _ _ Hs) as (Ha & Hb & Hc & Hd & _).
  cbn [Reaction_attributes reacs prods] in Ha, Hb, Hc, Hd.
  fold reactants in Ha, Hc. fold products in Hb, Hd.
  unfold Reaction_init. rewrite Hs. cbn [Py.bind].
  clearbody reactants products. split.
  - intros Hun. rewrite _check_balance_unbalanced; [reflexivity|].
    rewrite Ha, Hb, Hc, Hd. exact Hun.
  - intros rxn. destruct (_check_balance checked) as [bal|e] eqn:Eb;
      [|discriminate].
    cbn [Py.bind]. apply _check_balance_balanced in Eb.
    destruct Eb as [-> Hq]. rewrite Hc in *. rewrite Hd in Hq.
    intros H; inversion H; subst; clear H.
    change (rxn_type (with_charge checked
                        (sum_Z (map mol_charge reactants))))
      with (rxn_type checked).
    destruct (is_addition (rxn_type checked)) eqn:Eadd.
    + cbn. split; [reflexivity|]. rewrite Hd, Hq. reflexivity.
    + change (rxn_type (with_charge checked
                          (sum_Z (map mol_charge reactants))))
        with (rxn_type checked).
      destruct (is_rearrangement (rxn_type checked)) eqn:Er.
      * unfold _check_rearrangement.
        destruct (Z.ltb _ _); cbn; (split; [reflexivity|]).
        -- rewrite Hd, Hq. reflexivity.
        -- rewrite Hc. reflexivity.
      * cbn. split; [reflexivity|]. rewrite Hc. reflexivity.
Qed.

End Container.

Import PipelineExample.

Lemma find_lowest_energy_ts_minimum_witness :
  (tss small_reaction = None ->
   find_lowest_energy_ts small_reaction = Ok None) /\
  exists (t : TransitionState) (m : R) (pre post : list TransitionState),
    find_lowest_energy_ts found_reaction = Ok (Some t) /\
    ts_energy t = Some m /\
    (forall t' e',
        In t' [("ts0"%string, 2); ("ts1"%string, 1); ("ts2"%string, 1)] ->
        ts_energy t' = Some e' -> m <= e') /\
    [("ts0"%string, 2); ("ts1"%string, 1); ("ts2"%string, 1)]
    = pre ++ t :: post /\
    (forall t', In t' pre -> ts_energy t' <> Some m).
Proof.
  split.
  - apply (proj1 (find_lowest_energy_ts_minimum small_reaction)).
  - apply (proj2 (find_lowest_energy_ts_minimum found_reaction)
                 [("ts0"%string, 2); ("ts1"%string, 1); ("ts2"%string, 1)]).
    + reflexivity.
    + discriminate.
    + repeat constructor; discriminate.
Defined.

(** C9, as the claim has it, fails: the list of transition states
    [ts0; unconverged] is not empty, the second one has no energy, and
    [min] over the energies [2.0; None] raises TypeError, so no transition
    state is returned. *)
Lemma lowest_energy_ts_of_missing_energy_raises :
  tss ReactionExamples.half_converged
  = Some [("ts0"%string, 2); ("unconverged"%string, 0)] /\
  [("ts0"%string, 2); ("unconverged"%string, 0)] <> [] /\
  @ts_energy _ ReactionExamples.sparse_env ("unconverged"%string, 0)
  = None /\
  @find_lowest_energy_ts _ ReactionExamples.sparse_env
                         ReactionExamples.half_converged
  = Raise TypeError.
Proof.
  split; [reflexivity|]. split; [discriminate|].
  split; reflexivity.
Qed.

(** C10, as the claim has it, fails: with a reactant in water and a product
    in dichloromethane the atom counts differ, and constructing the
    Reaction raises SolventsDontMatch, not UnbalancedReaction. *)
Lemma unbalanced_but_solvents_raise_first :
  sum_nat (map mol_n_atoms
               (of_kind IsReactant
                        [Some wet_reactant; Some oily_product; None; None;
                         None; None]))
  <> sum_nat (map mol_n_atoms
                  (of_kind IsProduct
                           [Some wet_reactant; Some oily_product; None;
                            None; None; None])) /\
  Reaction_init (Some wet_reactant) (Some oily_product) None None None None
                "reaction" None
  = Raise SolventsDontMatch.
Proof.
  split; [cbn; discriminate|reflexivity].
Qed.

(** With solvents set on some molecules only, the last line of the solvent
    check reads the name of a solvent that is None. *)
Lemma mixed_solvents_raise_attribute_error :
  Reaction_init (Some wet_reactant) (Some dry_product) None None None None
                "reaction" None
  = Raise AttributeError.
Proof. reflexivity. Qed.

Lemma unbalanced_reaction_raises_witness :
  (sum_nat (map mol_n_atoms
                (of_kind IsReactant
                         [Some chloride; Some fluoromethane;
                          Some chloromethane; None; None; None]))
   <> sum_nat (map mol_n_atoms
                   (of_kind IsProduct
                            [Some chloride; Some fluoromethane;
                             Some chloromethane; None; None; None]))
   \/ sum_Z (map mol_charge
                 (of_kind IsReactant
                          [Some chloride; Some fluoromethane;
                           Some chloromethane; None; None; None]))
      <> sum_Z (map mol_charge
                    (of_kind IsProduct
                             [Some chloride; Some fluoromethane;
                              Some chloromethane; None; None; None])) ->
   Reaction_init (Some chloride) (Some fluoromethane) (Some chloromethane)
                 None None None "sn2" None
   = Raise UnbalancedReaction) /\
  (forall rxn,
      Reaction_init (Some chloride) (Some fluoromethane)
                    (Some chloromethane) None None None "sn2" None
      = Ok rxn ->
      rxn_charge rxn
      = Some (sum_Z (map mol_charge
                         (of_kind IsReactant
                                  [Some chloride; Some fluoromethane;
                                   Some chloromethane; None; None; None])))
      /\
      rxn_charge rxn = Some (sum_Z (map mol_charge (reacs rxn)))).
Proof.
  apply (unbalanced_reaction_raises
           (Some chloride) (Some fluoromethane) (Some chloromethane)
           None None None "sn2" None
           (Reaction_attributes (Some chloride) (Some fluoromethane)
                                (Some chloromethane) None None None "sn2"
                                None)).
  reflexivity.
Defined.

End ReactionFacts.

(* ================================================================== *)
(** * Further properties of the code *)

(* ------------------------------------------------------------------ *)
(** ** displaced_species_along_mode, continued *)

Module DisplaceMore.

Import Displace GeomFacts DisplaceFacts Reflect.
Import Sn2Example Sn2Displaced.
Local Open Scope R_scope.

Lemma labels_set_coordinates (s : Species) (cs : Coords) :
  List.length cs = n_atoms s ->
  map label (atoms (set_coordinates s cs)) = map label (atoms s).
Proof.
  unfold set_coordinates, n_atoms; simpl.
  generalize (atoms s) as l. intros l; revert cs.
  induction l as [|a l IH]; intros [|ci cs] H; simpl in *;
    try discriminate; auto.
  f_equal. apply IH. lia.
Qed.

(** What a successful call returns, in terms of the loop. *)
Lemma displaced_species_inv
      (s sf : Species) (n : nat) (m : Coords) (f cap : R) :
  normal_mode s n = Some m ->
  List.length m = n_atoms s ->
  displaced_species_along_mode s n f cap = Ok (Some sf) ->
  exists d : Coords,
    shrink_loop 20 (coordinates s) m f cap
                (arr_add (coordinates s) (arr_scale f m)) = Ok d /\
    List.length d = n_atoms s /\
    sf = set_coordinates
           (mkSpecies (name s ++ "_disp") (atoms s) (charge s) (mult s)
                      None None) d.
Proof.
  intros Hm Hl H.
  destruct (Nat.eq_dec (n_atoms s) 0) as [H0|H0].
  { rewrite (displaced_species_no_atoms s n m f cap Hm H0) in H.
    discriminate. }
  unfold displaced_species_along_mode in H. rewrite Hm in H.
  assert (Hlc : List.length (coordinates s) = n_atoms s)
    by (unfold coordinates; apply length_map).
  destruct (shrink_loop_spec 20 (coordinates s) m f cap
              (arr_add (coordinates s) (arr_scale f m)))
    as (k & _ & Hr & _); try lia.
  { unfold arr_add, arr_scale. rewrite map2_length; auto.
    rewrite length_map. lia. }
  rewrite Hr in H. cbn [Py.bind] in H. inversion H; subst; clear H.
  eexists. split; [exact Hr|]. split; [|reflexivity].
  rewrite backward_steps_length.
  - unfold arr_add, arr_scale. rewrite map2_length; auto.
    rewrite length_map. lia.
  - unfold arr_add, arr_scale. rewrite map2_length; rewrite ?length_map; lia.
Qed.

(** X1.  The displaced species is a new species named after the input, with
    the same atoms in the same order, the same charge and multiplicity, and
    neither energy nor Hessian. *)
Theorem displaced_species_keeps_identity
        (s sf : Species) (n : nat) (m : Coords) (f cap : R) :
  normal_mode s n = Some m ->
  List.length m = n_atoms s ->
  displaced_species_along_mode s n f cap = Ok (Some sf) ->
  name sf = (name s ++ "_disp")%string /\
  map label (atoms sf) = map label (atoms s) /\
  charge sf = charge s /\ mult sf = mult s /\
  energy sf = None /\ hessian sf = None.
Proof.
  intros Hm Hl H.
  destruct (displaced_species_inv s sf n m f cap Hm Hl H)
    as (d & _ & Hd & ->).
  split; [reflexivity|]. split; [|repeat split].
  apply (labels_set_coordinates
           (mkSpecies (name s ++ "_disp") (atoms s) (charge s) (mult s)
                      None None) d).
  exact Hd.
Qed.

Lemma displaced_species_keeps_identity_witness :
  name sn2_forward = (name sn2_species ++ "_disp")%string /\
  map label (atoms sn2_forward) = map label (atoms sn2_species) /\
  charge sn2_forward = charge sn2_species /\
  mult sn2_forward = mult sn2_species /\
  energy sn2_forward = None /\ hessian sn2_forward = None.
Proof.
  apply (displaced_species_keeps_identity sn2_species sn2_forward 6
           sn2_mode 1 (1 / 2)).
  - reflexivity.
  - reflexivity.
  - exact OtherBondsFacts.sn2_forward_displaced.
Defined.

(** X2.  When the full displacement already keeps every atom below the cap
    nothing is taken back: the geometry returned is
    [coords + disp_factor * mode]. *)
Theorem full_displacement_within_cap
        (s : Species) (n : nat) (f cap : R) (mode : Coords) :
  normal_mode s n = Some mode ->
  (0 < n_atoms s)%nat ->
  List.length mode = n_atoms s ->
  Forall (fun d => d < cap)
         (row_norms (arr_sub (coordinates s)
                             (arr_add (coordinates s) (arr_scale f mode)))) ->
  exists sf,
    displaced_species_along_mode s n f cap = Ok (Some sf) /\
    coordinates sf = arr_add (coordinates s) (arr_scale f mode).
Proof.
  intros Hm Hn Hl Hall. eexists. split.
  - apply (OtherBondsFacts.displaced_first_try s n f cap mode); assumption.
  - apply coordinates_set_coordinates. cbn [n_atoms atoms].
    unfold arr_add, arr_scale. rewrite map2_length.
    + unfold coordinates. apply length_map.
    + unfold coordinates. rewrite !length_map. unfold n_atoms in Hl. lia.
Qed.

Lemma full_displacement_within_cap_witness :
  exists sf,
    displaced_species_along_mode h2_like 6 (1 / 4) (1 / 2) = Ok (Some sf) /\
    coordinates sf
    = arr_add (coordinates h2_like)
              (arr_scale (1 / 4) [(1, 0, 0); (-1, 0, 0)]).
Proof.
  apply (full_displacement_within_cap h2_like 6 (1 / 4) (1 / 2)
           [(1, 0, 0); (-1, 0, 0)]).
  - reflexivity.
  - unfold n_atoms, h2_like; simpl; lia.
  - reflexivity.
  - cbn. repeat constructor.
    + rewrite (OtherBondsFacts.sqrt_eval _ (1 / 4)); lra.
    + rewrite (OtherBondsFacts.sqrt_eval _ (1 / 4)); lra.
Defined.

(** *** Forward and backward displacements mirror each other *)

Lemma norm_reflect (c d : Vec3) :
  norm (vsub c (reflect c d)) = norm (vsub c d).
Proof.
  destruct c as [[a b] e], d as [[x y] z]. unfold reflect, norm, vsub.
  f_equal. ring.
Qed.

Lemma row_norms_reflect (c d : Coords) :
  row_norms (arr_sub c (arr_reflect c d)) = row_norms (arr_sub c d).
Proof.
  unfold row_norms, arr_sub, arr_reflect.
  revert d; induction c as [|ci c IH]; intros [|di d]; simpl; auto.
  rewrite IH. f_equal. apply norm_reflect.
Qed.

Lemma reflect_step (c d m : Coords) (f : R) :
  arr_sub (arr_reflect c d) (arr_scale (- f / 20) m)
  = arr_reflect c (arr_sub d (arr_scale (f / 20) m)).
Proof.
  unfold arr_sub, arr_reflect, arr_scale.
  revert d m; induction c as [|[[a b] e] c IH];
    intros [|[[x y] z] d] [|[[u v] w] m]; simpl; auto.
  rewrite IH. f_equal. unfold reflect, vsub. apply vec_eq; field.
Qed.

Lemma reflect_start (c m : Coords) (f : R) :
  arr_add c (arr_scale (- f) m)
  = arr_reflect c (arr_add c (arr_scale f m)).
Proof.
  unfold arr_add, arr_reflect, arr_scale.
  revert m; induction c as [|[[a b] e] c IH]; intros [|[[u v] w] m];
    simpl; auto.
  rewrite IH. f_equal. unfold reflect, vsub. apply vec_eq; ring.
Qed.

Lemma shrink_loop_reflect (n : nat) (c m : Coords) (f cap : R) :
  forall d : Coords,
    shrink_loop n c m (- f) cap (arr_reflect c d)
    = match shrink_loop n c m f cap d with
      | Ok d' => Ok (arr_reflect c d')
      | Raise e => Raise e
      end.
Proof.
  induction n as [|n IH]; intros d; [reflexivity|].
  cbn [shrink_loop]. rewrite row_norms_reflect.
  destruct (np_max (row_norms (arr_sub c d))) as [mx|e]; [|reflexivity].
  cbn [Py.bind]. destruct (Rlt_dec mx cap); [reflexivity|].
  rewrite reflect_step. apply IH.
Qed.

(** X3.  Displacing by [-disp_factor] gives the mirror image, about the
    starting geometry, of displacing by [disp_factor]: every atom moves by
    the same distance in the opposite direction. *)
Theorem backward_displacement_mirrors_forward
        (s sf : Species) (n : nat) (m : Coords) (f cap : R) :
  normal_mode s n = Some m ->
  List.length m = n_atoms s ->
  displaced_species_along_mode s n f cap = Ok (Some sf) ->
  exists sb,
    displaced_species_along_mode s n (- f) cap = Ok (Some sb) /\
    coordinates sb = arr_reflect (coordinates s) (coordinates sf) /\
    atom_displacements s sb = atom_displacements s sf.
Proof.
  intros Hm Hl H.
  destruct (displaced_species_inv s sf n m f cap Hm Hl H)
    as (d & Hd & Hlen & ->).
  set (base := mkSpecies (name s ++ "_disp") (atoms s) (charge s) (mult s)
                         None None).
  assert (Hcf : coordinates (set_coordinates base d) = d)
    by (apply coordinates_set_coordinates; exact Hlen).
  assert (Hlr : List.length (arr_reflect (coordinates s) d) = n_atoms s).
  { unfold arr_reflect. rewrite map2_length.
    - unfold coordinates. apply length_map.
    - unfold coordinates. rewrite length_map. unfold n_atoms in Hlen. lia. }
  exists (set_coordinates base (arr_reflect (coordinates s) d)).
  assert (Hcb : coordinates
                  (set_coordinates base (arr_reflect (coordinates s) d))
                = arr_reflect (coordinates s) d)
    by (apply coordinates_set_coordinates; exact Hlr).
  split; [|split].
  - unfold displaced_species_along_mode. rewrite Hm.
    rewrite reflect_start, shrink_loop_reflect, Hd. reflexivity.
  - rewrite Hcb, Hcf. reflexivity.
  - unfold atom_displacements. rewrite Hcb, Hcf. apply row_norms_reflect.
Qed.

Lemma backward_displacement_mirrors_forward_witness :
  exists sb,
    displaced_species_along_mode sn2_species 6 (- (1)) (1 / 2)
    = Ok (Some sb) /\
    coordinates sb
    = arr_reflect (coordinates sn2_species) (coordinates sn2_forward) /\
    atom_displacements sn2_species sb
    = atom_displacements sn2_species sn2_forward.
Proof.
  apply (backward_displacement_mirrors_forward sn2_species sn2_forward 6
           sn2_mode 1 (1 / 2)).
  - reflexivity.
  - reflexivity.
  - exact OtherBondsFacts.sn2_forward_displaced.
Defined.

(** X4.  A species with a normal mode and no atom cannot be displaced: the
    maximum over an empty array of norms raises ValueError. *)
Theorem displacing_no_atoms_raises
        (s : Species) (mode_number : nat) (mode : Coords)
        (disp_factor max_atom_disp : R) :
  normal_mode s mode_number = Some mode ->
  n_atoms s = 0%nat ->
  displaced_species_along_mode s mode_number disp_factor max_atom_disp
  = Raise ValueError.
Proof. apply displaced_species_no_atoms. Qed.

Lemma displacing_no_atoms_raises_witness :
  displaced_species_along_mode no_atoms 6 1 (1 / 2) = Raise ValueError.
Proof.
  apply (displacing_no_atoms_raises no_atoms 6 [] 1 (1 / 2));
    reflexivity.
Defined.

End DisplaceMore.

(* ------------------------------------------------------------------ *)
(** ** The validator, continued *)

Module ValidatorMore.

Import Displace Base GeomFacts DisplaceFacts OtherBondsFacts.
Import Sn2Example Sn2Displaced ApproachExample.
Local Open Scope R_scope.

Section Checks.

Context {env : ValidatorEnv}.

Lemma forallb_false_exists {A : Type} (p : A -> bool) (l : list A) :
  forallb p l = false -> exists x, In x l /\ p x = false.
Proof.
  induction l as [|a l IH]; simpl; [discriminate|].
  destruct (p a) eqn:E; simpl.
  - intros H. destruct (IH H) as (x & Hx & Hp). exists x. auto.
  - intros _. exists a. auto.
Qed.

Lemma issubset_false_exists (xs ys : list nat) :
  issubset xs ys = false -> exists a, In a xs /\ ~ In a ys.
Proof.
  unfold issubset. intros H.
  destruct (forallb_false_exists _ _ H) as (a & Ha & Hx).
  exists a. split; [exact Ha|]. intros Hin.
  assert (Ht : existsb (Nat.eqb a) ys = true).
  { apply existsb_exists. exists a. split; [exact Hin|apply Nat.eqb_refl]. }
  congruence.
Qed.

Lemma product_has_other_bonds_iff
      (ts_atoms : list Atom) (ts_edges edges : list Bond)
      (br : BondRearrangement) :
  valid_edges ts_atoms edges ->
  exists r,
    product_has_other_bonds ts_atoms ts_edges (Some br) true edges = Ok r /\
    (r = true <->
     exists bond,
       In bond edges /\ edge_in bond ts_edges = false /\
       no_metal ts_atoms bond = Ok true /\
       (~ In (fst bond) (active_atoms br) \/
        ~ In (snd bond) (active_atoms br))).
Proof.
  intros Hv.
  destruct (product_has_other_bonds_total ts_atoms ts_edges edges br Hv)
    as [r Hr].
  exists r. split; [exact Hr|]. split.
  - intros ->. unfold product_has_other_bonds in Hr.
    destruct (filter_res_total (no_metal ts_atoms)
                (filter (fun bond => negb (edge_in bond ts_edges)) edges))
      as (l' & Hl' & Hchar).
    { intros e He. apply filter_In in He. destruct He as [He _].
      destruct (Hv e He). apply no_metal_total; auto. }
    rewrite Hl' in Hr. cbn [Py.bind] in Hr. injection Hr as Hs.
    apply negb_true_iff in Hs.
    destruct (issubset_false_exists _ _ Hs) as (a & Ha & Hna).
    unfold bond_atoms in Ha. apply in_flat_map in Ha.
    destruct Ha as (bond & Hb & Hab).
    apply Hchar in Hb. destruct Hb as [Hf Hmx].
    apply filter_In in Hf. destruct Hf as [Hin Hnew].
    apply negb_true_iff in Hnew.
    exists bond. split; [exact Hin|]. split; [exact Hnew|].
    split; [exact Hmx|].
    destruct Hab as [<-|[<-|[]]]; [left|right]; exact Hna.
  - intros (bond & Hin & Hnew & Hmx & Hact).
    rewrite (product_has_other_bonds_new _ _ _ _ bond Hv Hin Hnew Hmx Hact)
      in Hr.
    inversion Hr. reflexivity.
Qed.

(** X5.  With metal bonds allowed, [imag_mode_generates_other_bonds]
    answers True exactly when the forward or the backward geometry has a
    bond that the candidate has not, with no metal at either end and with
    an atom that is not active; it does not raise. *)
Theorem other_bonds_iff_new_bond_outside_active
        (ts : TSbase) (br : BondRearrangement) (f b : Species) :
  bond_rearrangement ts = Some br ->
  valid_edges (atoms (species ts)) (make_graph (atoms f) (3 / 10)) ->
  valid_edges (atoms (species ts)) (make_graph (atoms b) (3 / 10)) ->
  exists r,
    imag_mode_generates_other_bonds ts (Some f) (Some b) true = Ok r /\
    (r = true <->
     exists bond,
       (In bond (make_graph (atoms f) (3 / 10)) \/
        In bond (make_graph (atoms b) (3 / 10))) /\
       edge_in bond (make_graph (atoms (species ts)) (3 / 10)) = false /\
       no_metal (atoms (species ts)) bond = Ok true /\
       (~ In (fst bond) (active_atoms br) \/
        ~ In (snd bond) (active_atoms br))).
Proof.
  intros Hbr Hvf Hvb. unfold imag_mode_generates_other_bonds. rewrite Hbr.
  destruct (product_has_other_bonds_iff (atoms (species ts))
              (make_graph (atoms (species ts)) (3 / 10)) _ br Hvf)
    as (rf & Hrf & Hf).
  destruct (product_has_other_bonds_iff (atoms (species ts))
              (make_graph (atoms (species ts)) (3 / 10)) _ br Hvb)
    as (rb & Hrb & Hb).
  rewrite Hrf. cbn [Py.bind]. destruct rf.
  - exists true. split; [reflexivity|]. split; [|reflexivity].
    intros _. destruct (proj1 Hf eq_refl) as (bond & Hin & H).
    exists bond. split; [left; exact Hin|exact H].
  - rewrite Hrb. cbn [Py.bind]. destruct rb.
    + exists true. split; [reflexivity|]. split; [|reflexivity].
      intros _. destruct (proj1 Hb eq_refl) as (bond & Hin & H).
      exists bond. split; [right; exact Hin|exact H].
    + exists false. split; [reflexivity|]. split; [discriminate|].
      intros (bond & [Hin|Hin] & H).
      * apply Hf. exists bond. split; assumption.
      * apply Hb. exists bond. split; assumption.
Qed.

(** X6.  A bond made by the displacement (forwards or backwards), with no
    metal at either end and an atom outside the active atoms, makes
    [imag_mode_has_correct_displacement] answer False whatever the bond
    lengths do. *)
Theorem made_bond_outside_active_atoms_rejected
        (self : TSbase) (br : BondRearrangement) (f b : Species)
        (bond : Bond) (disp_mag delta_threshold : R) (req_all : bool) :
  bond_rearrangement self = Some br ->
  displaced_species_along_mode (species self) 6 disp_mag (1 / 2)
  = Ok (Some f) ->
  displaced_species_along_mode (species self) 6 (- disp_mag) (1 / 2)
  = Ok (Some b) ->
  valid_edges (atoms (species self)) (make_graph (atoms f) (3 / 10)) ->
  valid_edges (atoms (species self)) (make_graph (atoms b) (3 / 10)) ->
  In bond (make_graph (atoms f) (3 / 10)) \/
  In bond (make_graph (atoms b) (3 / 10)) ->
  edge_in bond (make_graph (atoms (species self)) (3 / 10)) = false ->
  no_metal (atoms (species self)) bond = Ok true ->
  ~ In (fst bond) (active_atoms br) \/ ~ In (snd bond) (active_atoms br) ->
  imag_mode_has_correct_displacement self disp_mag delta_threshold req_all
  = Ok false.
Proof. apply new_bond_outside_active_atoms_rejected. Qed.

(** *** The strict displacement test implies the loose one *)

Lemma Rgtb_weaken (x t t' : R) :
  t' <= t -> Rgtb x t = true -> Rgtb x t' = true.
Proof.
  unfold Rgtb, Rltb. intros Ht.
  destruct (Rlt_dec t x); [|discriminate].
  destruct (Rlt_dec t' x); [reflexivity|lra].
Qed.

Lemma fbond_correct_disp_weaken
      (self p : Species) (t t' : R) (bond : Bond) (x : bool) :
  t' <= t ->
  fbond_correct_disp self p t bond = Ok x ->
  exists x', fbond_correct_disp self p t' bond = Ok x' /\
             (x = true -> x' = true).
Proof.
  intros Ht. unfold fbond_correct_disp.
  destruct (distance self (fst bond) (snd bond)) as [d1|e]; [|discriminate].
  destruct (distance p (fst bond) (snd bond)) as [d2|e]; [|discriminate].
  cbn [Py.bind]. intros H; inversion H; subst. eexists. split; [reflexivity|].
  apply Rgtb_weaken. exact Ht.
Qed.

Lemma bbond_correct_disp_weaken
      (self p : Species) (t t' : R) (bond : Bond) (x : bool) :
  t' <= t ->
  bbond_correct_disp self p t bond = Ok x ->
  exists x', bbond_correct_disp self p t' bond = Ok x' /\
             (x = true -> x' = true).
Proof.
  intros Ht. unfold bbond_correct_disp.
  destruct (distance self (fst bond) (snd bond)) as [d1|e]; [|discriminate].
  destruct (distance p (fst bond) (snd bond)) as [d2|e]; [|discriminate].
  cbn [Py.bind]. intros H; inversion H; subst. eexists. split; [reflexivity|].
  apply Rgtb_weaken. exact Ht.
Qed.

Lemma map_res_weaken {A : Type} (F G : A -> Result bool) (l : list A) :
  (forall a x, F a = Ok x -> exists x', G a = Ok x' /\ (x = true -> x' = true)) ->
  forall xs,
    map_res F l = Ok xs ->
    exists xs',
      map_res G l = Ok xs' /\
      List.length xs = List.length l /\
      List.length xs' = List.length l /\
      (forallb (fun b => b) xs = true -> forallb (fun b => b) xs' = true).
Proof.
  intros HFG. induction l as [|a l IH]; intros xs H.
  - inversion H; subst. exists []. auto.
  - cbn [map_res] in *. destruct (F a) as [x|e] eqn:Ea; [|discriminate].
    cbn [Py.bind] in H.
    destruct (map_res F l) as [xs0|e] eqn:El; [|discriminate].
    cbn [Py.bind] in H. inversion H; subst; clear H.
    destruct (HFG a x Ea) as (x' & Hx' & Himp).
    destruct (IH xs0 eq_refl) as (xs' & Hxs' & L1 & L2 & Hall).
    rewrite Hx', Hxs'. cbn [Py.bind]. eexists. split; [reflexivity|].
    cbn [List.length forallb]. repeat split; try lia.
    intros Hand. apply andb_true_iff in Hand. destruct Hand as [H1 H2].
    rewrite (Himp H1), (Hall H2). reflexivity.
Qed.

Lemma forallb_existsb_nonempty (l : list bool) :
  l <> [] -> forallb (fun b => b) l = true -> existsb (fun b => b) l = true.
Proof.
  destruct l as [|x l]; [congruence|]. simpl. intros _ H.
  apply andb_true_iff in H. destruct H as [-> _]. reflexivity.
Qed.

Lemma correct_disp_loop_strict_then_loose
      (self : Species) (br : BondRearrangement) (t t' : R)
      (products : list Species) :
  t' <= t ->
  all_bonds br <> [] ->
  correct_disp_loop self br t true products = Ok true ->
  correct_disp_loop self br t' false products = Ok true.
Proof.
  intros Ht Hne. induction products as [|p rest IH]; [discriminate|].
  cbn [correct_disp_loop].
  destruct (map_res (fbond_correct_disp self p t) (fbonds br))
    as [fs|e] eqn:Ef; [|discriminate].
  destruct (map_res (bbond_correct_disp self p t) (bbonds br))
    as [bs|e] eqn:Eb; [|discriminate].
  cbn [Py.bind].
  destruct (map_res_weaken (fbond_correct_disp self p t)
              (fbond_correct_disp self p t') (fbonds br)
              (fun a x => fbond_correct_disp_weaken self p t t' a x Ht)
              fs Ef) as (fs' & Hfs' & Lf & Lf' & Hallf).
  destruct (map_res_weaken (bbond_correct_disp self p t)
              (bbond_correct_disp self p t') (bbonds br)
              (fun a x => bbond_correct_disp_weaken self p t t' a x Ht)
              bs Eb) as (bs' & Hbs' & Lb & Lb' & Hallb).
  rewrite Hfs', Hbs'. cbn [Py.bind].
  rewrite andb_false_r. cbn [negb andb].
  destruct (forallb (fun b => b) (fs ++ bs)) eqn:Eall; cbn [andb negb].
  - intros _. rewrite forallb_app in Eall.
    apply andb_true_iff in Eall. destruct Eall as [E1 E2].
    rewrite forallb_existsb_nonempty; [reflexivity| |].
    + intros Hnil. apply Hne. unfold all_bonds.
      apply length_zero_iff_nil. apply (f_equal (@List.length bool)) in Hnil.
      rewrite length_app in *. cbn in Hnil. lia.
    + rewrite forallb_app, (Hallf E1), (Hallb E2). reflexivity.
  - intros H. destruct (existsb (fun b => b) (fs' ++ bs'));
      [reflexivity|apply IH; exact H].
Qed.

(** X7.  A candidate that passes the displacement test with every active
    bond required to move by more than a threshold also passes the test
    that asks for any one bond to move by more than a threshold that is not
    larger, provided the rearrangement has a bond. *)
Theorem strict_displacement_test_implies_loose
        (self : TSbase) (br : BondRearrangement)
        (disp_mag t t' : R) :
  bond_rearrangement self = Some br ->
  all_bonds br <> [] ->
  t' <= t ->
  imag_mode_has_correct_displacement self disp_mag t true = Ok true ->
  imag_mode_has_correct_displacement self disp_mag t' false = Ok true.
Proof.
  intros Hbr Hne Ht. unfold imag_mode_has_correct_displacement.
  destruct (displaced_species_along_mode (species self) 6 disp_mag (1 / 2))
    as [f|e]; [|discriminate].
  destruct (displaced_species_along_mode (species self) 6 (- disp_mag)
              (1 / 2)) as [b|e]; [|discriminate].
  cbn [Py.bind].
  destruct (imag_mode_generates_other_bonds self f b true) as [[|]|e];
    cbn [Py.bind]; try discriminate.
  rewrite Hbr. destruct f as [f|]; [|discriminate].
  destruct b as [b|]; [|discriminate].
  apply correct_disp_loop_strict_then_loose; assumption.
Qed.

(** X8.  Which of the two displaced structures is called forwards does not
    matter to the isomorphism test. *)
Theorem f_b_isomorphic_to_r_p_symmetric
        (forwards backwards : option Species) (r p : Complex) :
  f_b_isomorphic_to_r_p forwards backwards r p
  = f_b_isomorphic_to_r_p backwards forwards r p.
Proof.
  unfold f_b_isomorphic_to_r_p.
  destruct forwards as [f|], backwards as [b|]; try reflexivity.
  destruct (species_are_isomorphic b r), (species_are_isomorphic f p),
    (species_are_isomorphic f r), (species_are_isomorphic b p);
    reflexivity.
Qed.

(** *** Failed optimisations are absorbed *)






(** *** What the two entry points do, and in which order *)

Lemma could_have_log (self : TSbase) (ev : Event) :
  In ev (snd (could_have_correct_imag_mode self)) ->
  ev = HessianCalculation \/ exists t a, ev = DisplacementCheck t a.
Proof.
  unfold could_have_correct_imag_mode.
  destruct (bond_rearrangement self); [|intros []].
  destruct (hessian (species self)) as [h|].
  - destruct (imaginary_frequencies (species self)) as [fr|];
      [|intros []].
    destruct (getitem fr 0) as [f0|e]; [|intros []].
    destruct (Rgtb f0 min_imag_freq); [intros []|].
    destruct (imag_mode_has_correct_displacement self 1 (5 / 100) false)
      as [[|]|e]; cbn; intros [<-|[]]; right; eauto.
  - set (self1 := mkTSbase _ _ _ _).
    destruct (imaginary_frequencies (species self1)) as [fr|];
      [|cbn; intros [<-|[]]; auto].
    destruct (getitem fr 0) as [f0|e]; [|cbn; intros [<-|[]]; auto].
    destruct (Rgtb f0 min_imag_freq); [cbn; intros [<-|[]]; auto|].
    destruct (imag_mode_has_correct_displacement self1 1 (5 / 100) false)
      as [[|]|e]; cbn; intros [<-|[<-|[]]]; auto; right; eauto.
Qed.

(** X10.  [has_correct_imag_mode] answers True only for a candidate that
    passed the fast check, and runs the costly check that optimises the
    displaced structures only after the fast check passed and the strict
    displacement test answered False. *)
Theorem has_correct_imag_mode_order (self : TSbase) :
  let '(fast, self1, _) := could_have_correct_imag_mode self in
  let '(r, _, log) := has_correct_imag_mode self in
  (r = Ok true -> fast = Ok true) /\
  (In LinkCheck log ->
   fast = Ok true /\
   imag_mode_has_correct_displacement self1 1 (3 / 10) true = Ok false).
Proof.
  unfold has_correct_imag_mode.
  pose proof (could_have_log self) as Hlog.
  destruct (could_have_correct_imag_mode self) as [[fast self1] log0].
  cbn [snd] in Hlog.
  assert (Hno : ~ In LinkCheck log0).
  { intros Hin. destruct (Hlog _ Hin) as [H|(t & a & H)]; discriminate. }
  destruct fast as [[|]|e].
  - destruct (imag_mode_has_correct_displacement self1 1 (3 / 10) true)
      as [[|]|e] eqn:Ed.
    + split; [auto|]. intros Hin. exfalso.
      apply in_app_or in Hin. destruct Hin as [Hin|[Hin|[]]];
        [exact (Hno Hin)|discriminate].
    + destruct (imag_mode_links_reactant_products self1 1) as [[|]|e];
        (split; [auto|]); intros _; auto.
    + split; [discriminate|]. intros Hin. exfalso.
      apply in_app_or in Hin. destruct Hin as [Hin|[Hin|[]]];
        [exact (Hno Hin)|discriminate].
  - split; [discriminate|]. intros Hin. exfalso. exact (Hno Hin).
  - split; [discriminate|]. intros Hin. exfalso. exact (Hno Hin).
Qed.

(** X11.  [could_have_correct_imag_mode] runs a Hessian calculation exactly
    when a rearrangement is set and the candidate has no Hessian; the
    candidate it leaves differs from the one it was given in the Hessian at
    most, and not at all when there was one. *)
Theorem could_have_computes_missing_hessian_only (self : TSbase) :
  let '(_, self1, log) := could_have_correct_imag_mode self in
  (In HessianCalculation log <->
   bond_rearrangement self <> None /\ hessian (species self) = None) /\
  reactant self1 = reactant self /\
  product self1 = product self /\
  bond_rearrangement self1 = bond_rearrangement self /\
  atoms (species self1) = atoms (species self) /\
  (hessian (species self) <> None -> self1 = self).
Proof.
  unfold could_have_correct_imag_mode.
  destruct (bond_rearrangement self) as [br|] eqn:Eb.
  - destruct (hessian (species self)) as [h|] eqn:Eh.
    + assert (Hgoal :
                forall (r : Result bool) (log : list Event),
                  ~ In HessianCalculation log ->
                  (In HessianCalculation log <->
                   Some br <> None /\ Some h = None) /\
                  reactant self = reactant self /\
                  product self = product self /\
                  bond_rearrangement self = Some br /\
                  atoms (species self) = atoms (species self) /\
                  (Some h <> None -> self = self)).
      { intros r log Hn. repeat split; auto; try tauto.
        intros [_ H]; discriminate. }
      destruct (imaginary_frequencies (species self)) as [fr|];
        [|apply (Hgoal (Ok false)); intros []].
      destruct (getitem fr 0) as [f0|e];
        [|apply (Hgoal (Ok false)); intros []].
      destruct (Rgtb f0 min_imag_freq);
        [apply (Hgoal (Ok false)); intros []|].
      destruct (imag_mode_has_correct_displacement self 1 (5 / 100) false)
        as [[|]|e]; apply (Hgoal (Ok false));
        intros [H|[]]; discriminate.
    + set (self1 := mkTSbase _ _ _ _).
      assert (Hgoal :
                forall (log : list Event),
                  In HessianCalculation log ->
                  (In HessianCalculation log <->
                   Some br <> None /\ @None Hessian = None) /\
                  reactant self1 = reactant self /\
                  product self1 = product self /\
                  bond_rearrangement self1 = Some br /\
                  atoms (species self1) = atoms (species self) /\
                  (@None Hessian <> None -> self1 = self)).
      { intros log Hin. repeat split; auto; try discriminate.
        congruence. }
      destruct (imaginary_frequencies (species self1)) as [fr|];
        [|apply Hgoal; left; reflexivity].
      destruct (getitem fr 0) as [f0|e]; [|apply Hgoal; left; reflexivity].
      destruct (Rgtb f0 min_imag_freq); [apply Hgoal; left; reflexivity|].
      destruct (imag_mode_has_correct_displacement self1 1 (5 / 100) false)
        as [[|]|e]; apply Hgoal; left; reflexivity.
  - repeat split; auto; try tauto.
Qed.

End Checks.

Lemma other_bonds_iff_new_bond_outside_active_witness :
  exists r,
    imag_mode_generates_other_bonds sn2_ts (Some sn2_forward)
                                    (Some sn2_backward) true = Ok r /\
    (r = true <->
     exists bond,
       (In bond (make_graph (atoms sn2_forward) (3 / 10)) \/
        In bond (make_graph (atoms sn2_backward) (3 / 10))) /\
       edge_in bond (make_graph (atoms (species sn2_ts)) (3 / 10)) = false /\
       no_metal (atoms (species sn2_ts)) bond = Ok true /\
       (~ In (fst bond) (active_atoms sn2_rearrangement) \/
        ~ In (snd bond) (active_atoms sn2_rearrangement))).
Proof.
  apply (other_bonds_iff_new_bond_outside_active sn2_ts sn2_rearrangement
           sn2_forward sn2_backward).
  - reflexivity.
  - rewrite sn2_forward_graph. intros e [].
  - rewrite sn2_backward_graph. intros e [<-|[]]. cbn. lia.
Defined.

Ltac eval_approach_graph :=
  cbn [make_graph sn2_env]; unfold cutoff_graph;
  cbn [atoms approach_species approach_forward approach_backward
       cutoff_graph_from bonds_from];
  unfold close_enough, sq_dist; cbn [coord vsub];
  repeat first [rewrite Rltb_true by lra | rewrite Rltb_false by lra];
  reflexivity.

Lemma approach_ts_graph :
  make_graph (atoms approach_species) (3 / 10) = [(1, 2)%nat].
Proof. eval_approach_graph. Qed.

Lemma approach_forward_graph :
  make_graph (atoms approach_forward) (3 / 10) = [(0, 1)%nat].
Proof. eval_approach_graph. Qed.

Lemma approach_backward_graph :
  make_graph (atoms approach_backward) (3 / 10) = [(1, 2)%nat].
Proof. eval_approach_graph. Qed.

Lemma approach_forward_displaced :
  displaced_species_along_mode approach_species 6 1 (1 / 2)
  = Ok (Some approach_forward).
Proof.
  rewrite (displaced_first_try approach_species 6 1 (1 / 2) approach_mode);
    try reflexivity.
  - unfold approach_forward, set_coordinates. cbn.
    do 2 f_equal. unfold approach_species; cbn.
    f_equal. repeat (apply f_equal2; [apply atom_eq; lra|]). reflexivity.
  - unfold n_atoms; simpl; lia.
  - cbn. repeat constructor.
    + rewrite (sqrt_eval _ 0); lra.
    + rewrite (sqrt_eval _ (4 / 10)); lra.
    + rewrite (sqrt_eval _ 0); lra.
Qed.

Lemma approach_backward_displaced :
  displaced_species_along_mode approach_species 6 (Ropp 1) (1 / 2)
  = Ok (Some approach_backward).
Proof.
  rewrite (displaced_first_try approach_species 6 (Ropp 1) (1 / 2)
             approach_mode); try reflexivity.
  - unfold approach_backward, set_coordinates. cbn.
    do 2 f_equal. unfold approach_species; cbn.
    f_equal. repeat (apply f_equal2; [apply atom_eq; lra|]). reflexivity.
  - unfold n_atoms; simpl; lia.
  - cbn. repeat constructor.
    + rewrite (sqrt_eval _ 0); lra.
    + rewrite (sqrt_eval _ (4 / 10)); lra.
    + rewrite (sqrt_eval _ 0); lra.
Qed.

Lemma made_bond_outside_active_atoms_rejected_witness :
  imag_mode_has_correct_displacement approach_ts 1 (3 / 10) true = Ok false.
Proof.
  apply (made_bond_outside_active_atoms_rejected approach_ts
           approach_rearrangement approach_forward approach_backward
           (0, 1)%nat 1 (3 / 10) true).
  - reflexivity.
  - exact approach_forward_displaced.
  - exact approach_backward_displaced.
  - rewrite approach_forward_graph. intros e [<-|[]]. cbn. lia.
  - rewrite approach_backward_graph. intros e [<-|[]]. cbn. lia.
  - left. rewrite approach_forward_graph. left. reflexivity.
  - cbn [species approach_ts]. rewrite approach_ts_graph. reflexivity.
  - reflexivity.
  - left. cbn. intros [H|[H|[]]]; discriminate.
Defined.

Lemma strict_displacement_test_implies_loose_witness :
  imag_mode_has_correct_displacement sn2_ts 1 (5 / 100) false = Ok true.
Proof.
  apply (strict_displacement_test_implies_loose sn2_ts sn2_rearrangement 1
           (3 / 10) (5 / 100)).
  - reflexivity.
  - discriminate.
  - lra.
  - apply sn2_correct_displacement. lra.
Defined.


End ValidatorMore.

(* ------------------------------------------------------------------ *)
(** ** The strategy generator, continued *)

Module GeneratorMore.

Import Locate.
Import PipelineExample.
Local Open Scope R_scope.

Section YieldedMore.

Context {types : PipelineTypes} {env : PipelineEnv}.

Variables (reaction : Reaction) (reactant product : Complex)
          (bond_rearr : BondRearrangement).

Abbreviation yielded_seq :=
  (get_ts_guess_function_and_params reaction reactant product bond_rearr).

Lemma bond_at_in (l : list Bond) (i : nat) :
  (i < List.length l)%nat -> In (bond_at l i) l.
Proof. intros H. unfold bond_at. apply nth_In. exact H. Qed.

Lemma fbond_active (b : Bond) :
  In b (fbonds bond_rearr) -> In b (all_bonds bond_rearr).
Proof. intros H. unfold all_bonds. apply in_or_app. left. exact H. Qed.

Lemma bbond_active (b : Bond) :
  In b (bbonds bond_rearr) -> In b (all_bonds bond_rearr).
Proof. intros H. unfold all_bonds. apply in_or_app. right. exact H. Qed.

(** Every [PBond] among the parameters of the strategies in [H] is one of
    the bonds listed in the goals left over. *)
Ltac bonds_of_block H b Hb :=
  repeat (destruct H as [H|H];
          [subst; cbn [snd In] in Hb;
           repeat (destruct Hb as [Hb|Hb];
                   [first [discriminate Hb | injection Hb as <-]|]);
           try destruct Hb|]);
  try destruct H.

Lemma template_bonds (s : Strategy) (b : Bond) :
  In s (template_strategy reactant product bond_rearr) ->
  In (PBond b) (snd s) -> In b (all_bonds bond_rearr).
Proof.
  unfold template_strategy. intros H Hb. bonds_of_block H b Hb.
Qed.

Lemma sn2_like_bonds (s : Strategy) (b : Bond) :
  In s (sn2_like_strategies reaction reactant product bond_rearr) ->
  In (PBond b) (snd s) -> In b (all_bonds bond_rearr).
Proof.
  unfold sn2_like_strategies.
  destruct (Nat.eqb (n_bbonds bond_rearr) 1) eqn:Eb; cbn [andb];
    [|intros []].
  destruct (Nat.eqb (n_fbonds bond_rearr) 1) eqn:Ef; cbn [andb];
    [|intros []].
  destruct (is_substitution_or_elimination _); [|intros []].
  apply Nat.eqb_eq in Eb, Ef. unfold n_bbonds in Eb. unfold n_fbonds in Ef.
  intros H Hb. bonds_of_block H b Hb;
    first [apply fbond_active; apply bond_at_in; lia
          |apply bbond_active; apply bond_at_in; lia].
Qed.

Lemma fbond_1d_bonds (s : Strategy) (b : Bond) :
  In s (fbond_1d_strategies reaction reactant product bond_rearr) ->
  In (PBond b) (snd s) -> In b (all_bonds bond_rearr).
Proof.
  unfold fbond_1d_strategies.
  destruct (Nat.ltb 0 (n_bbonds bond_rearr)); cbn [andb]; [|intros []].
  destruct (Nat.eqb (n_fbonds bond_rearr) 1) eqn:Ef; [|intros []].
  apply Nat.eqb_eq in Ef. unfold n_fbonds in Ef.
  intros H Hb. bonds_of_block H b Hb;
    apply fbond_active; apply bond_at_in; lia.
Qed.

Lemma all_pairs_bonds (s : Strategy) (b : Bond) :
  In s (all_pairs_2d_strategies reaction reactant product bond_rearr) ->
  In (PBond b) (snd s) -> In b (all_bonds bond_rearr).
Proof.
  unfold all_pairs_2d_strategies. destruct (_ && _); [|intros []].
  intros H Hb. apply in_flat_map in H. destruct H as (fbond & Hf & H).
  apply in_flat_map in H. destruct H as (bbond & Hbb & H).
  unfold pair_2d_strategies in H.
  bonds_of_block H b Hb;
    first [apply fbond_active; exact Hf | apply bbond_active; exact Hbb].
Qed.

Lemma bbond_1d_bonds (s : Strategy) (b : Bond) :
  In s (bbond_1d_strategies reaction reactant product bond_rearr) ->
  In (PBond b) (snd s) -> In b (all_bonds bond_rearr).
Proof.
  unfold bbond_1d_strategies.
  destruct (Nat.eqb (n_bbonds bond_rearr) 1) eqn:Eb; cbn [andb];
    [|intros []].
  destruct (Nat.eqb (n_fbonds bond_rearr) 0); [|intros []].
  apply Nat.eqb_eq in Eb. unfold n_bbonds in Eb.
  intros H Hb. bonds_of_block H b Hb;
    apply bbond_active; apply bond_at_in; lia.
Qed.

Lemma two_fbonds_bonds (s : Strategy) (b : Bond) :
  In s (two_fbonds_strategies reaction reactant product bond_rearr) ->
  In (PBond b) (snd s) -> In b (all_bonds bond_rearr).
Proof.
  unfold two_fbonds_strategies.
  destruct (Nat.eqb (n_fbonds bond_rearr) 2) eqn:Ef; [|intros []].
  apply Nat.eqb_eq in Ef. unfold n_fbonds in Ef.
  intros H Hb. bonds_of_block H b Hb;
    apply fbond_active; apply bond_at_in; lia.
Qed.

Lemma two_bbonds_bonds (s : Strategy) (b : Bond) :
  In s (two_bbonds_strategies reaction reactant product bond_rearr) ->
  In (PBond b) (snd s) -> In b (all_bonds bond_rearr).
Proof.
  unfold two_bbonds_strategies.
  destruct (Nat.eqb (n_bbonds bond_rearr) 2) eqn:Eb; [|intros []].
  apply Nat.eqb_eq in Eb. unfold n_bbonds in Eb.
  intros H Hb. bonds_of_block H b Hb;
    apply bbond_active; apply bond_at_in; lia.
Qed.

(** X12.  Every bond handed to a scan is a forming or a breaking bond of
    the rearrangement: the generator never scans anything else. *)
Theorem scanned_bonds_are_active (s : Strategy) (b : Bond) :
  In s yielded_seq ->
  In (PBond b) (snd s) ->
  In b (all_bonds bond_rearr).
Proof.
  unfold get_ts_guess_function_and_params. intros H.
  repeat (apply in_app_or in H; destruct H as [H|H]).
  - apply template_bonds; exact H.
  - apply sn2_like_bonds; exact H.
  - apply fbond_1d_bonds; exact H.
  - apply all_pairs_bonds; exact H.
  - apply bbond_1d_bonds; exact H.
  - apply two_fbonds_bonds; exact H.
  - apply two_bbonds_bonds; exact H.
Qed.

Lemma prefix_empty (s : string) : String.prefix "" s = true.
Proof. destruct s; reflexivity. Qed.

Lemma flat_map_length_const {A B : Type} (f : A -> list B) (l : list A)
      (k : nat) :
  (forall a, List.length (f a) = k) ->
  List.length (flat_map f l) = (List.length l * k)%nat.
Proof.
  intros Hk. induction l as [|a l IH]; [reflexivity|].
  cbn [flat_map List.length]. rewrite length_app, Hk, IH. lia.
Qed.

(** X13.  How many strategies are yielded: the template, then 3, 2, 2, 2
    and 2 for the guarded groups, and two 2-D scans for every pair of a
    forming and a breaking bond. *)
Theorem number_of_strategies :
  let nf := n_fbonds bond_rearr in
  let nb := n_bbonds bond_rearr in
  List.length yielded_seq
  = (1
     + (if Nat.eqb nb 1 && Nat.eqb nf 1
           && is_substitution_or_elimination (rxn_type reaction)
        then 3 else 0)
     + (if Nat.ltb 0 nb && Nat.eqb nf 1 then 2 else 0)
     + 2 * nf * nb
     + (if Nat.eqb nb 1 && Nat.eqb nf 0 then 2 else 0)
     + (if Nat.eqb nf 2 then 2 else 0)
     + (if Nat.eqb nb 2 then 2 else 0))%nat.
Proof.
  intros nf nb. unfold get_ts_guess_function_and_params.
  rewrite !length_app.
  assert (Hpairs :
            List.length (all_pairs_2d_strategies reaction reactant product
                                                 bond_rearr)
            = (2 * nf * nb)%nat).
  { unfold all_pairs_2d_strategies.
    assert (Hfm :
              List.length
                (flat_map (fun fbond =>
                             flat_map (fun bbond =>
                                         pair_2d_strategies reaction reactant
                                           product fbond bbond)
                                      (bbonds bond_rearr))
                          (fbonds bond_rearr))
              = (nf * (nb * 2))%nat).
    { apply flat_map_length_const. intros fbond.
      apply flat_map_length_const. intros bbond. reflexivity. }
    destruct (Nat.leb 1 (n_bbonds bond_rearr)) eqn:E1;
      destruct (Nat.leb 1 (n_fbonds bond_rearr)) eqn:E2; cbn [andb];
      try (rewrite Hfm; lia);
      cbn [List.length];
      try (apply Nat.leb_gt in E1); try (apply Nat.leb_gt in E2);
      fold nb in E1; fold nf in E2; nia. }
  rewrite Hpairs.
  unfold sn2_like_strategies, fbond_1d_strategies, bbond_1d_strategies,
    two_fbonds_strategies, two_bbonds_strategies, template_strategy.
  fold nf nb.
  destruct (Nat.eqb nb 1 && Nat.eqb nf 1
            && is_substitution_or_elimination (rxn_type reaction));
    destruct (Nat.ltb 0 nb && Nat.eqb nf 1);
    destruct (Nat.eqb nb 1 && Nat.eqb nf 0);
    destruct (Nat.eqb nf 2); destruct (Nat.eqb nb 2);
    cbn [List.length]; lia.
Qed.

(** X14.  In a substitution or elimination with one forming and one
    breaking bond the same low-level 2-D scan, with the same name and
    parameters, is yielded twice: once ahead of the 1-D scans and once
    among the scans over bond pairs. *)
Theorem sn2_like_2d_scan_yielded_twice :
  n_fbonds bond_rearr = 1%nat ->
  n_bbonds bond_rearr = 1%nat ->
  rxn_type reaction = Substitution \/ rxn_type reaction = Elimination ->
  exists (s : Strategy) (pre mid post : list Strategy),
    is_2d_scan s = true /\
    named_with_suffix "_ll2d" s = true /\
    yielded_seq = pre ++ s :: mid ++ s :: post.
Proof.
  intros Hf Hb Ht.
  unfold n_fbonds in Hf. unfold n_bbonds in Hb.
  destruct (fbonds bond_rearr) as [|fbond [|? ?]] eqn:Ef;
    try discriminate.
  destruct (bbonds bond_rearr) as [|bbond [|? ?]] eqn:Eb;
    try discriminate.
  unfold get_ts_guess_function_and_params, template_strategy,
    sn2_like_strategies, fbond_1d_strategies, all_pairs_2d_strategies,
    bbond_1d_strategies, two_fbonds_strategies, two_bbonds_strategies,
    pair_2d_strategies.
  unfold n_fbonds, n_bbonds. rewrite Ef, Eb.
  cbn [List.length Nat.eqb Nat.ltb Nat.leb].
  assert (Hty : is_substitution_or_elimination (rxn_type reaction) = true)
    by (destruct Ht as [-> | ->]; reflexivity).
  rewrite Hty. cbn [andb bond_at nth app flat_map].
  eexists _, [_], [_; _; _; _], [_]. cbn [app].
  split; [|split; [|reflexivity]].
  - reflexivity.
  - unfold named_with_suffix. cbn [snd existsb].
    rewrite StrFacts.ends_with_app. cbn. rewrite prefix_empty. reflexivity.
Qed.

End YieldedMore.

Lemma scanned_bonds_are_active_witness :
  In (1, 2)%nat (all_bonds sn2_rearr).
Proof.
  apply (scanned_bonds_are_active sn2_reaction [chloride; fluoromethane]
           [chloromethane; fluoride] sn2_rearr
           (get_ts_guess_1d,
            [@PComplex toy_types [chloride; fluoromethane];
             @PComplex toy_types [chloromethane; fluoride];
             PBond (1, 2)%nat; PInt 12;
             PStr "sn2_Cl+CH3F--CH3Cl+F_0-1_1-2_hl1d_bbond";
             @PMethod toy_types "orca"%string;
             @PKeywords toy_types "orca LooseOpt"%string;
             PFloat (2 + 25 / 10)])
           (1, 2)%nat).
  - right. right. left. reflexivity.
  - right. right. left. reflexivity.
Defined.

Lemma sn2_like_2d_scan_yielded_twice_witness :
  exists (s : Strategy) (pre mid post : list Strategy),
    is_2d_scan s = true /\
    named_with_suffix "_ll2d" s = true /\
    get_ts_guess_function_and_params
      sn2_reaction [chloride; fluoromethane] [chloromethane; fluoride]
      sn2_rearr
    = pre ++ s :: mid ++ s :: post.
Proof.
  apply (sn2_like_2d_scan_yielded_twice sn2_reaction
           [chloride; fluoromethane] [chloromethane; fluoride] sn2_rearr).
  - reflexivity.
  - reflexivity.
  - left. reflexivity.
Defined.

End GeneratorMore.

(* ------------------------------------------------------------------ *)
(** ** get_ts, get_truncated_ts, find_tss and the orientation, continued *)

Module PipelineMore.

Import Locate LocateMore PipelineFacts.
Import PipelineExample OrientationExample.
Local Open Scope R_scope.

Section SearchMore.

Context {types : PipelineTypes} {env : PipelineEnv}.

(** X15.  When the truncation pre-pass is not taken and the orientation
    succeeds, [get_ts] returns the transition state of the first strategy,
    in generator order, that leads to a validated one, having tried the
    strategies before it and none after it; it returns None when it has
    tried them all and none did.  It does not raise. *)
Theorem get_ts_returns_first_validated
        (reaction : Reaction) (reactant oriented product : Complex)
        (bond_rearrangement : BondRearrangement) (strip_molecule : bool) :
  strip_molecule = false \/
  is_worth_truncating reactant bond_rearrangement = false ->
  translate_rotate_reactant reactant bond_rearrangement
    (if any_charged (reacs reaction) then 3 else 15 / 10) 10
  = Ok oriented ->
  let strategies :=
    get_ts_guess_function_and_params reaction oriented product
                                     bond_rearrangement in
  let '(r, log) :=
    get_ts reaction reactant product bond_rearrangement strip_molecule in
  match r with
  | Ok (Some found, after) =>
      after = oriented /\
      exists pre s post,
        strategies = pre ++ s :: post /\
        Forall (fun s' => strategy_outcome bond_rearrangement s' = None) pre /\
        strategy_outcome bond_rearrangement s = Some found /\
        attempts log = pre ++ [s]
  | Ok (None, after) =>
      after = oriented /\
      Forall (fun s => strategy_outcome bond_rearrangement s = None)
             strategies /\
      attempts log = strategies
  | Raise _ => False
  end.
Proof.
  intros Hpre Hor strategies.
  rewrite (get_ts_without_truncation _ _ _ _ _ Hpre).
  unfold get_ts_scans. rewrite Hor.
  pose proof (ts_loop_first_validated bond_rearrangement strategies) as H.
  fold strategies.
  destruct (ts_loop bond_rearrangement strategies) as [[found|] log];
    cbn [fst snd] in H; (split; [reflexivity|exact H]).
Qed.

Lemma translate_rotate_errors
      (reactant : Complex) (br : BondRearrangement) (sf : R) (n : nat)
      (e : exn) :
  translate_rotate_reactant reactant br sf n = Raise e ->
  e = TypeError \/ e = IndexError.
Proof.
  unfold translate_rotate_reactant.
  destruct (Nat.ltb (n_molecules reactant) 2); [discriminate|].
  destruct (best_run _ None) as [[c x]|].
  - unfold getitem.
    destruct (nth_error x 3); cbn [Py.bind];
      [|intros H; inversion H; auto].
    destruct (nth_error x 10); cbn [Py.bind];
      [discriminate|intros H; inversion H; auto].
  - intros H; inversion H; auto.
Qed.

Lemma get_ts_scans_errors
      (reaction : Reaction) (reactant product : Complex)
      (br : BondRearrangement) (e : exn) :
  fst (get_ts_scans reaction reactant product br) = Raise e ->
  e = TypeError \/ e = IndexError.
Proof.
  unfold get_ts_scans.
  destruct (translate_rotate_reactant reactant br _ 10) as [r|e'] eqn:E.
  - destruct (ts_loop _ _); discriminate.
  - cbn. intros H; inversion H; subst.
    apply (translate_rotate_errors _ _ _ _ _ E).
Qed.

Lemma truncated_loop_errors
      (reaction : Reaction) (t_product : Complex)
      (brs : list BondRearrangement) :
  forall (t_reactant : Complex) (e : exn),
    fst (truncated_loop reaction t_reactant t_product brs) = Raise e ->
    e = TypeError \/ e = IndexError.
Proof.
  induction brs as [|br rest IH]; intros t_reactant e; [discriminate|].
  cbn [truncated_loop].
  pose proof (get_ts_scans_errors reaction t_reactant t_product br) as Hs.
  destruct (get_ts_scans reaction t_reactant t_product br)
    as [[[f r]|e'] log]; cbn [fst] in Hs.
  - pose proof (IH r e) as Hr.
    destruct (truncated_loop reaction r t_product rest) as [res log'].
    exact Hr.
  - cbn. intros H; inversion H; subst. apply Hs. reflexivity.
Qed.

(** X16.  [get_truncated_ts] never returns: every call ends in an
    exception, a TypeError unless the orientation of the truncated complex
    raised an IndexError before. *)
Theorem get_truncated_ts_never_returns
        (reaction : Reaction) (reactant product : Complex)
        (bond_rearr : BondRearrangement) :
  exists e,
    fst (get_truncated_ts reaction reactant product bond_rearr) = Raise e /\
    (e = TypeError \/ e = IndexError).
Proof.
  unfold get_truncated_ts.
  destruct (get_bond_rearrangs _ _ _) as [brs|];
    [|exists TypeError; split; [reflexivity|left; reflexivity]].
  pose proof (truncated_loop_errors
                (with_name reaction (rxn_name reaction ++ "_truncated"))
                (get_truncated_complex product bond_rearr) brs
                (get_truncated_complex reactant bond_rearr)) as H.
  destruct (truncated_loop _ _ _ brs) as [[c|e] log]; cbn [fst] in H.
  - exists TypeError. split; [reflexivity|left; reflexivity].
  - exists e. split; [reflexivity|]. apply H. reflexivity.
Qed.

(** X17.  [find_tss] never returns an empty list: its result is None or a
    list with at least one transition state. *)
Theorem find_tss_returns_no_empty_list
        (reaction : Reaction) (found : list TransitionState) :
  fst (find_tss reaction) = Ok (Some found) -> found <> [].
Proof. apply find_tss_never_empty. Qed.

Lemma translate_rotate_single_molecule
      (reactant : Complex) (br : BondRearrangement) (sf : R) (n : nat) :
  (n_molecules reactant < 2)%nat ->
  translate_rotate_reactant reactant br sf n = Ok reactant.
Proof.
  intros H. unfold translate_rotate_reactant.
  apply Nat.ltb_lt in H. rewrite H. reflexivity.
Qed.

Lemma find_tss_loop_in_order
      (reaction : Reaction) (reactant product : Complex)
      (brs : list BondRearrangement) :
  (n_molecules reactant < 2)%nat ->
  (forall br, In br brs -> is_worth_truncating reactant br = false) ->
  fst (find_tss_loop reaction reactant product brs)
  = Ok (flat_map (found_by_scans reaction reactant product) brs).
Proof.
  intros Hn. induction brs as [|br rest IH]; intros Hw; [reflexivity|].
  cbn [find_tss_loop flat_map].
  rewrite (get_ts_without_truncation reaction reactant product br true)
    by (right; apply Hw; left; reflexivity).
  unfold get_ts_scans.
  rewrite (translate_rotate_single_molecule reactant br _ 10 Hn).
  unfold found_by_scans at 1.
  destruct (ts_loop br _) as [found log]. cbn [fst].
  assert (IH' := IH (fun b Hb => Hw b (or_intror Hb))).
  destruct (find_tss_loop reaction reactant product rest) as [[l|e] log'];
    cbn [fst] in IH'; [|discriminate].
  inversion IH'; subst. destruct found; reflexivity.
Qed.

(** X18.  For a reactant complex of a single molecule and rearrangements
    not worth truncating, [find_tss] returns the transition states found
    by the strategy loop for the rearrangements, in the order in which the
    rearrangements were enumerated, or None when there is none. *)
Theorem find_tss_collects_in_enumeration_order
        (reaction : Reaction) (brs : list BondRearrangement) :
  let reactant := ReactantComplex (reacs reaction) in
  let product := ProductComplex (prods reaction) in
  (n_molecules reactant < 2)%nat ->
  get_bond_rearrangs reactant product (rxn_name reaction) = Some brs ->
  (forall br, In br brs -> is_worth_truncating reactant br = false) ->
  fst (find_tss reaction)
  = Ok (match flat_map (found_by_scans reaction reactant product) brs with
        | [] => None
        | found => Some found
        end).
Proof.
  intros reactant product Hn Hb Hw. unfold find_tss.
  fold reactant product. rewrite Hb.
  pose proof (find_tss_loop_in_order reaction reactant product brs Hn Hw)
    as H.
  destruct (find_tss_loop reaction reactant product brs) as [[l|e] log];
    cbn [fst] in H; [|discriminate].
  inversion H; subst.
  destruct (flat_map _ brs); reflexivity.
Qed.

(** *** The orientation keeps the first run of lowest cost *)

Lemma best_run_from (runs : list (R * list R)) :
  forall (c : R) (x : list R),
    (best_run runs (Some (c, x)) = Some (c, x) /\
     forall r, In r runs -> c <= fst r) \/
    (exists c' x' pre post,
        best_run runs (Some (c, x)) = Some (c', x') /\
        runs = pre ++ (c', x') :: post /\
        c' < c /\
        (forall r, In r pre -> c' < fst r) /\
        (forall r, In r runs -> c' <= fst r)).
Proof.
  induction runs as [|[rf rx] runs IH]; intros c x.
  - left. split; [reflexivity|intros r []].
  - cbn [best_run]. destruct (Rlt_dec rf c) as [Hlt|Hge].
    + right. destruct (IH rf rx) as [[Hb Hall]|
                                      (c' & x' & pre & post & Hb & Hs & Hc
                                       & Hpre & Hall)].
      * exists rf, rx, [], runs. repeat split; auto.
        -- intros r [].
        -- intros r [<-|Hr]; [cbn; lra|apply Hall; exact Hr].
      * exists c', x', ((rf, rx) :: pre), post. split; [exact Hb|].
        split; [rewrite Hs; reflexivity|]. split; [lra|]. split.
        -- intros r [<-|Hr]; [cbn; lra|apply Hpre; exact Hr].
        -- intros r [<-|Hr]; [cbn; lra|apply Hall; exact Hr].
    + destruct (IH c x) as [[Hb Hall]|
                             (c' & x' & pre & post & Hb & Hs & Hc
                              & Hpre & Hall)].
      * left. split; [exact Hb|].
        intros r [<-|Hr]; [cbn; lra|apply Hall; exact Hr].
      * right. exists c', x', ((rf, rx) :: pre), post.
        split; [exact Hb|]. split; [rewrite Hs; reflexivity|].
        split; [exact Hc|]. split.
        -- intros r [<-|Hr]; [cbn; lra|apply Hpre; exact Hr].
        -- intros r [<-|Hr]; [cbn; lra|apply Hall; exact Hr].
Qed.

Lemma best_run_first_lowest (runs : list (R * list R)) :
  runs <> [] ->
  exists c x pre post,
    best_run runs None = Some (c, x) /\
    runs = pre ++ (c, x) :: post /\
    (forall r, In r pre -> c < fst r) /\
    (forall r, In r runs -> c <= fst r).
Proof.
  destruct runs as [|[c0 x0] runs]; [congruence|]. intros _.
  cbn [best_run].
  destruct (best_run_from runs c0 x0)
    as [[Hb Hall]|(c' & x' & pre & post & Hb & Hs & Hc & Hpre & Hall)].
  - exists c0, x0, [], runs. repeat split; auto.
    + intros r [].
    + intros r [<-|Hr]; [cbn; lra|apply Hall; exact Hr].
  - exists c', x', ((c0, x0) :: pre), post. split; [exact Hb|].
    split; [rewrite Hs; reflexivity|]. split.
    + intros r [<-|Hr]; [cbn; lra|apply Hpre; exact Hr].
    + intros r [<-|Hr]; [cbn; lra|apply Hall; exact Hr].
Qed.

(** X19.  For a complex of two or more molecules the pose applied is that
    of the first restart whose cost is the lowest of all restarts. *)
Theorem orientation_applies_first_lowest_cost_run
        (reactant : Complex) (bond_rearrangement : BondRearrangement)
        (shift_factor : R) (n_iters : nat) :
  (2 <= n_molecules reactant)%nat ->
  (0 < n_iters)%nat ->
  let runs :=
    orientation_runs reactant bond_rearrangement shift_factor n_iters in
  exists cost opt_x pre post,
    runs = pre ++ (cost, opt_x) :: post /\
    (forall r, In r pre -> cost < fst r) /\
    (forall r, In r runs -> cost <= fst r) /\
    translate_rotate_reactant reactant bond_rearrangement shift_factor
                              n_iters
    = apply_pose reactant opt_x
        (attacking_mol_of reactant
           (get_substitution_centres reactant bond_rearrangement
                                     shift_factor)).
Proof.
  intros Hn Hi runs.
  assert (Hne : runs <> []).
  { unfold runs, orientation_runs. destruct n_iters; [lia|].
    cbn [seq map]. discriminate. }
  destruct (best_run_first_lowest runs Hne)
    as (c & x & pre & post & Hb & Hs & Hpre & Hall).
  exists c, x, pre, post. split; [exact Hs|]. split; [exact Hpre|].
  split; [exact Hall|].
  unfold translate_rotate_reactant.
  assert (Hlt : Nat.ltb (n_molecules reactant) 2 = false)
    by (apply Nat.ltb_ge; exact Hn).
  rewrite Hlt.
  change (map _ (seq 0 n_iters)) with runs. rewrite Hb. reflexivity.
Qed.

End SearchMore.

Lemma get_ts_returns_first_validated_witness :
  let strategies :=
    get_ts_guess_function_and_params small_reaction [small_reactant]
                                     [small_product] big_rearr in
  let '(r, log) :=
    get_ts small_reaction [small_reactant] [small_product] big_rearr true in
  match r with
  | Ok (Some found, after) =>
      after = [small_reactant] /\
      exists pre s post,
        strategies = pre ++ s :: post /\
        Forall (fun s' => strategy_outcome big_rearr s' = None) pre /\
        strategy_outcome big_rearr s = Some found /\
        attempts log = pre ++ [s]
  | Ok (None, after) =>
      after = [small_reactant] /\
      Forall (fun s => strategy_outcome big_rearr s = None) strategies /\
      attempts log = strategies
  | Raise _ => False
  end.
Proof.
  apply (get_ts_returns_first_validated small_reaction [small_reactant]
           [small_reactant] [small_product] big_rearr true).
  - right. reflexivity.
  - reflexivity.
Defined.

Lemma find_tss_returns_no_empty_list_witness :
  [("ts"%string, 0)] <> ([] : list (string * R)).
Proof.
  apply (find_tss_returns_no_empty_list small_reaction
           [("ts"%string, 0)]).
  reflexivity.
Defined.

Lemma find_tss_collects_in_enumeration_order_witness :
  fst (find_tss small_reaction)
  = Ok (match flat_map (found_by_scans small_reaction
                          (ReactantComplex (reacs small_reaction))
                          (ProductComplex (prods small_reaction)))
                       [big_rearr] with
        | [] => None
        | found => Some found
        end).
Proof.
  apply (find_tss_collects_in_enumeration_order small_reaction
           [big_rearr]).
  - cbn. lia.
  - reflexivity.
  - intros br [<-|[]]. reflexivity.
Defined.

Lemma orientation_applies_first_lowest_cost_run_witness :
  exists cost opt_x pre post,
    @orientation_runs _ restart_env [chloride; fluoromethane] sn2_rearr 3 10
    = pre ++ (cost, opt_x) :: post /\
    (forall r, In r pre -> cost < fst r) /\
    (forall r,
        In r (@orientation_runs _ restart_env [chloride; fluoromethane]
                                sn2_rearr 3 10) ->
        cost <= fst r) /\
    @translate_rotate_reactant _ restart_env [chloride; fluoromethane]
                               sn2_rearr 3 10
    = @apply_pose _ restart_env [chloride; fluoromethane] opt_x
        (@attacking_mol_of _ restart_env [chloride; fluoromethane]
           (@get_substitution_centres _ restart_env
              [chloride; fluoromethane] sn2_rearr 3)).
Proof.
  apply (@orientation_applies_first_lowest_cost_run _ restart_env
           [chloride; fluoromethane] sn2_rearr 3 10).
  - cbn. lia.
  - lia.
Defined.

End PipelineMore.

(* ------------------------------------------------------------------ *)
(** ** reaction.py, continued *)

Module ReactionMore.

Import Locate Energies SolventTests PipelineFacts ReactionFacts.
Import PipelineExample ReactionExamples.
Local Open Scope R_scope.

Section ContainerMore.

Context {types : PipelineTypes} {env : PipelineEnv}.

(** *** The solvent check *)

Lemma tail_sets_solvent (self self' : Reaction) :
  _check_solvent_tail self = Ok self' ->
  Forall (fun m => mol_solvent m = rxn_solvent self')
         (reacs self' ++ prods self').
Proof.
  unfold _check_solvent_tail. destruct (rxn_solvent self) as [s|];
    [|discriminate].
  intros H; inversion H; subst; cbn.
  apply Forall_app. split; apply Forall_map; apply Forall_forall;
    intros m _; reflexivity.
Qed.

Lemma _check_solvent_gas_phase (self : Reaction) :
  rxn_solvent self = None ->
  _check_solvent self
  = if forallb has_no_solvent (reacs self ++ prods self) then Ok self
    else if forallb has_solvent (reacs self ++ prods self)
         then
           (first_reac <- getitem (reacs self) 0 ;;
            if negb (forallb (fun mol =>
                                solvent_eqb (mol_solvent mol)
                                            (mol_solvent first_reac))
                             (reacs self ++ prods self))
            then Raise SolventsDontMatch
            else _check_solvent_tail
                   (with_solvent self (mol_solvent first_reac)))%py
         else _check_solvent_tail self.
Proof. intros H. unfold _check_solvent. rewrite H. reflexivity. Qed.

(** X20.  After a solvent check that passes every reactant and product
    has the solvent of the reaction: all of them none in the gas phase, or
    all of them the one solvent. *)
Theorem checked_solvents_agree (self self' : Reaction) :
  _check_solvent self = Ok self' ->
  Forall (fun m => mol_solvent m = rxn_solvent self')
         (reacs self' ++ prods self').
Proof.
  destruct (rxn_solvent self) as [s|] eqn:Es.
  - unfold _check_solvent. rewrite Es. apply tail_sets_solvent.
  - rewrite (_check_solvent_gas_phase self Es).
    destruct (forallb has_no_solvent (reacs self ++ prods self)) eqn:Enone.
    + intros H; inversion H; subst. rewrite Es.
      apply Forall_forall. intros m Hm.
      rewrite forallb_forall in Enone. specialize (Enone m Hm).
      unfold has_no_solvent in Enone.
      destruct (mol_solvent m); [discriminate|reflexivity].
    + destruct (forallb has_solvent (reacs self ++ prods self)).
      * destruct (getitem (reacs self) 0) as [r0|e]; [|discriminate].
        cbn [Py.bind]. destruct (negb _); [discriminate|].
        apply tail_sets_solvent.
      * apply tail_sets_solvent.
Qed.

(** X21.  With no solvent given for the reaction, a solvent on some
    molecules and none on others makes the check raise AttributeError. *)
Theorem partly_solvated_raises_attribute_error
        (self : Reaction) (dry wet : Molecule) :
  rxn_solvent self = None ->
  In dry (reacs self ++ prods self) -> mol_solvent dry = None ->
  In wet (reacs self ++ prods self) -> mol_solvent wet <> None ->
  _check_solvent self = Raise AttributeError.
Proof.
  intros Hs Hd Hdn Hw Hwn. rewrite (_check_solvent_gas_phase self Hs).
  assert (E1 : forallb has_no_solvent (reacs self ++ prods self) = false).
  { destruct (forallb has_no_solvent (reacs self ++ prods self)) eqn:E;
      [|reflexivity].
    rewrite forallb_forall in E. specialize (E wet Hw).
    unfold has_no_solvent in E.
    destruct (mol_solvent wet); [discriminate|congruence]. }
  assert (E2 : forallb has_solvent (reacs self ++ prods self) = false).
  { destruct (forallb has_solvent (reacs self ++ prods self)) eqn:E;
      [|reflexivity].
    rewrite forallb_forall in E. specialize (E dry Hd).
    unfold has_solvent in E. rewrite Hdn in E. discriminate. }
  rewrite E1, E2. unfold _check_solvent_tail. rewrite Hs. reflexivity.
Qed.

Lemma solvent_eqb_eq (a b : option Solvent) :
  solvent_eqb a b = true <-> a = b.
Proof.
  destruct a as [x|], b as [y|]; simpl; split; intros H;
    try discriminate; try reflexivity.
  - apply String.eqb_eq in H. subst. reflexivity.
  - inversion H; subst. apply String.eqb_refl.
Qed.

(** X22.  With no solvent given for the reaction and a solvent on every
    molecule, a molecule whose solvent differs from that of the first
    reactant makes the check raise SolventsDontMatch. *)
Theorem different_solvents_raise
        (self : Reaction) (first_reac other : Molecule)
        (rest : list Molecule) :
  rxn_solvent self = None ->
  reacs self = first_reac :: rest ->
  Forall (fun m => mol_solvent m <> None) (reacs self ++ prods self) ->
  In other (reacs self ++ prods self) ->
  mol_solvent other <> mol_solvent first_reac ->
  _check_solvent self = Raise SolventsDontMatch.
Proof.
  intros Hs Hr Hall Hin Hdiff. rewrite (_check_solvent_gas_phase self Hs).
  assert (Hfirst : In first_reac (reacs self ++ prods self)).
  { rewrite Hr. left. reflexivity. }
  rewrite Forall_forall in Hall.
  assert (E1 : forallb has_no_solvent (reacs self ++ prods self) = false).
  { destruct (forallb has_no_solvent (reacs self ++ prods self)) eqn:E;
      [|reflexivity].
    rewrite forallb_forall in E. specialize (E first_reac Hfirst).
    specialize (Hall first_reac Hfirst). unfold has_no_solvent in E.
    destruct (mol_solvent first_reac); [discriminate|congruence]. }
  assert (E2 : forallb has_solvent (reacs self ++ prods self) = true).
  { apply forallb_forall. intros m Hm. specialize (Hall m Hm).
    unfold has_solvent.
    destruct (mol_solvent m); [reflexivity|congruence]. }
  rewrite E1, E2.
  assert (Hg : getitem (reacs self) 0 = Ok first_reac)
    by (rewrite Hr; reflexivity).
  rewrite Hg. cbn [Py.bind].
  assert (E3 : forallb (fun mol => solvent_eqb (mol_solvent mol)
                                               (mol_solvent first_reac))
                       (reacs self ++ prods self) = false).
  { destruct (forallb (fun mol => solvent_eqb (mol_solvent mol)
                                              (mol_solvent first_reac))
                      (reacs self ++ prods self)) eqn:E; [|reflexivity].
    rewrite forallb_forall in E. specialize (E other Hin).
    apply solvent_eqb_eq in E. contradiction. }
  rewrite E3. reflexivity.
Qed.

(** *** Swapping reactants and products *)

(** X23.  After [_check_rearrangement] the reactants have at least as many
    bonds as the products; the reaction is the one given or the one given
    with reactants and products exchanged and marked as switched; and a
    second call changes nothing. *)
Theorem rearrangement_runs_towards_fewer_bonds (self : Reaction) :
  let r := _check_rearrangement self in
  (sum_nat (map mol_n_edges (prods r))
   <= sum_nat (map mol_n_edges (reacs r)))%nat /\
  (r = self \/
   (reacs r = prods self /\ prods r = reacs self /\
    switched_reacs_prods r = true)) /\
  _check_rearrangement r = r.
Proof.
  cbv zeta. unfold _check_rearrangement.
  destruct (Z.ltb (Z.of_nat (sum_nat (map mol_n_edges (reacs self)))
                   - Z.of_nat (sum_nat (map mol_n_edges (prods self)))) 0)
    eqn:E.
  - apply Z.ltb_lt in E. cbn [swap_reacs_prods reacs prods
                                switched_reacs_prods rxn_type].
    split; [lia|]. split; [right; auto|].
    destruct (Z.ltb (Z.of_nat (sum_nat (map mol_n_edges (prods self)))
                     - Z.of_nat (sum_nat (map mol_n_edges (reacs self)))) 0)
      eqn:E'; [|reflexivity].
    apply Z.ltb_lt in E'. lia.
  - split; [apply Z.ltb_ge in E; lia|]. split; [left; reflexivity|].
    rewrite E. reflexivity.
Qed.

Lemma _check_solvent_tail_keeps_names (self self' : Reaction) :
  _check_solvent_tail self = Ok self' ->
  map mol_name (reacs self') = map mol_name (reacs self) /\
  map mol_name (prods self') = map mol_name (prods self).
Proof.
  unfold _check_solvent_tail. destruct (rxn_solvent self); [|discriminate].
  intros H; inversion H; subst; cbn.
  rewrite !map_map. cbn. split; reflexivity.
Qed.

Lemma _check_solvent_keeps_names (self self' : Reaction) :
  _check_solvent self = Ok self' ->
  map mol_name (reacs self') = map mol_name (reacs self) /\
  map mol_name (prods self') = map mol_name (prods self).
Proof.
  unfold _check_solvent. destruct (rxn_solvent self) eqn:Es.
  - apply _check_solvent_tail_keeps_names.
  - destruct (forallb _ _).
    + intros H; inversion H; subst. split; reflexivity.
    + destruct (forallb _ _).
      * destruct (getitem (reacs self) 0) as [first_reac|e];
          [|discriminate].
        cbn [Py.bind]. destruct (negb _); [discriminate|].
        intros H. apply _check_solvent_tail_keeps_names in H. exact H.
      * apply _check_solvent_tail_keeps_names.
Qed.

Lemma ok_inj {A : Type} (a b : A) : Ok a = Ok b -> a = b.
Proof. intros H. inversion H. reflexivity. Qed.

(** X24.  A Reaction is never left classified as an addition: when the
    molecules passed in classify as one, the reaction built is a
    dissociation whose reactants are the products passed in and whose
    products are the reactants passed in, marked as switched. *)
Theorem addition_becomes_dissociation
        (mol1 mol2 mol3 mol4 mol5 mol6 : option Molecule)
        (name : string) (solvent_name : option string) (rxn : Reaction) :
  Reaction_init mol1 mol2 mol3 mol4 mol5 mol6 name solvent_name = Ok rxn ->
  let reactants :=
    of_kind IsReactant [mol1; mol2; mol3; mol4; mol5; mol6] in
  let products :=
    of_kind IsProduct [mol1; mol2; mol3; mol4; mol5; mol6] in
  rxn_type rxn <> Addition /\
  (classify reactants products = Addition ->
   rxn_type rxn = Dissociation /\
   switched_reacs_prods rxn = true /\
   map mol_name (reacs rxn) = map mol_name products /\
   map mol_name (prods rxn) = map mol_name reactants).
Proof.
  intros H reactants products. unfold Reaction_init in H.
  destruct (_check_solvent _) as [checked|e] eqn:Es; [|discriminate].
  cbn [Py.bind] in H.
  destruct (_check_solvent_keeps _ _ Es) as (_ & _ & _ & _ & Hty).
  destruct (_check_solvent_keeps_names _ _ Es) as (Hn1 & Hn2).
  cbn [Reaction_attributes reacs prods rxn_type] in Hty, Hn1, Hn2.
  fold reactants in Hty, Hn1. fold products in Hty, Hn2.
  destruct (_check_balance checked) as [bal|e] eqn:Eb; [|discriminate].
  cbn [Py.bind] in H. apply _check_balance_balanced in Eb.
  destruct Eb as [-> _]. clearbody reactants products.
  change (rxn_type (with_charge checked
                      (sum_Z (map mol_charge (reacs checked)))))
    with (rxn_type checked) in H.
  destruct (rxn_type checked) eqn:Et; cbn in H; apply ok_inj in H;
    subst rxn.
  - cbn. split; [discriminate|]. intros _. repeat split; assumption.
  - split; [rewrite Et; cbn; rewrite Et; discriminate
           |intros Hc; congruence].
  - split; [rewrite Et; cbn; rewrite Et; discriminate
           |intros Hc; congruence].
  - split; [rewrite Et; cbn; rewrite Et; discriminate
           |intros Hc; congruence].
  - split; [|intros Hc; congruence].
    rewrite Et. cbn [is_rearrangement].
    unfold _check_rearrangement. destruct (Z.ltb _ 0); cbn; rewrite Et;
      discriminate.
Qed.

(** *** The lowest-energy transition state *)

(** X25.  [find_lowest_energy_ts] raises IndexError on an empty list, and
    TypeError on a list of two or more transition states one of which has
    no energy. *)
Theorem find_lowest_energy_ts_errors (self : Reaction) :
  (tss self = Some [] -> find_lowest_energy_ts self = Raise IndexError) /\
  (forall l t,
      tss self = Some l ->
      (2 <= List.length l)%nat ->
      In t l -> ts_energy t = None ->
      find_lowest_energy_ts self = Raise TypeError).
Proof.
  split.
  - intros H. unfold find_lowest_energy_ts. rewrite H. reflexivity.
  - intros l t Hl Hlen Hin Hnone. unfold find_lowest_energy_ts. rewrite Hl.
    destruct l as [|t0 [|t1 l']]; cbn [List.length] in Hlen; try lia.
    cbn [List.length Nat.ltb Nat.leb].
    assert (Hm : py_min (map ts_energy (t0 :: t1 :: l'))
                 = Raise TypeError).
    { change (py_min (map ts_energy (t0 :: t1 :: l')))
        with (py_min_from (ts_energy t0) (map ts_energy (t1 :: l'))).
      apply py_min_from_missing; [discriminate|].
      destruct Hin as [<-|Hin]; [left; exact Hnone|].
      right. rewrite <- Hnone. apply (in_map ts_energy). exact Hin. }
    rewrite Hm. reflexivity.
Qed.

Lemma find_lowest_energy_ts_member (self : Reaction)
      (l : list TransitionState) (r : option TransitionState) :
  tss self = Some l ->
  find_lowest_energy_ts self = Ok r ->
  exists t, r = Some t /\ In t l.
Proof.
  intros Hl. unfold find_lowest_energy_ts. rewrite Hl.
  destruct (Nat.ltb 1 (List.length l)).
  - destruct (py_min (map ts_energy l)) as [m|e]; [|discriminate].
    cbn [Py.bind]. unfold getitem.
    destruct (filter _ l) as [|t rest] eqn:Ef; [discriminate|].
    cbn. intros H; inversion H; subst. exists t. split; [reflexivity|].
    assert (Hin : In t (filter (fun t0 => energy_eqb (ts_energy t0) m) l))
      by (rewrite Ef; left; reflexivity).
    apply filter_In in Hin. tauto.
  - destruct l as [|t rest]; [discriminate|]. cbn.
    intros H; inversion H; subst. exists t. split; [reflexivity|].
    left. reflexivity.
Qed.

(** X26.  After [locate_transition_state] the reaction has either no
    list of transition states and no transition state, or a non-empty list
    and one of its members as the transition state; its molecules are
    untouched. *)
Theorem located_ts_is_one_of_those_found (self r : Reaction) :
  fst (locate_transition_state self) = Ok r ->
  reacs r = reacs self /\ prods r = prods self /\
  ((tss r = None /\ ts r = None) \/
   (exists l t, tss r = Some l /\ l <> [] /\ ts r = Some t /\ In t l)).
Proof.
  unfold locate_transition_state.
  pose proof (find_tss_never_empty self) as Hne.
  destruct (find_tss self) as [[found|e] log]; [|discriminate].
  cbn [fst] in Hne.
  set (self1 := mkReaction _ _ _ _ _ _ _ found _).
  destruct (find_lowest_energy_ts self1) as [lowest|e] eqn:El;
    [|discriminate].
  cbn [fst]. intros H; inversion H; subst; clear H. cbn.
  split; [reflexivity|]. split; [reflexivity|].
  destruct found as [l|].
  - right. destruct (find_lowest_energy_ts_member self1 l lowest eq_refl El)
      as (t & -> & Hin).
    exists l, t. repeat split; auto.
  - left. unfold find_lowest_energy_ts in El. cbn in El.
    inversion El. auto.
Qed.

(** *** Energy differences *)

Lemma py_sum_from (l : list R) (a : R) :
  fold_left Rplus l a = a + total l.
Proof.
  revert a. induction l as [|x l IH]; intros a.
  - cbn. lra.
  - cbn [fold_left]. rewrite IH. unfold total. cbn [fold_right]. lra.
Qed.

Lemma total_app (a b : list R) : total (a ++ b) = total a + total b.
Proof.
  unfold total. induction a as [|x a IH]; cbn [app fold_right].
  - lra.
  - rewrite IH. lra.
Qed.

Lemma total_filter_truthy (mols : list Molecule) :
  total (filter_truthy (map mol_energy mols))
  = total (map energy_or_zero mols).
Proof.
  induction mols as [|m mols IH]; [reflexivity|].
  change (filter_truthy (map mol_energy (m :: mols)))
    with ((match mol_energy m with
           | Some x => if Req_dec_T x 0 then [] else [x]
           | None => []
           end) ++ filter_truthy (map mol_energy mols)).
  rewrite total_app, IH. cbn [map]. unfold energy_or_zero at 2.
  unfold total at 3. cbn [fold_right]. fold (total (map energy_or_zero mols)).
  destruct (mol_energy m) as [x|].
  - destruct (Req_dec_T x 0) as [->|Hx]; unfold total at 1;
      cbn [fold_right]; lra.
  - unfold total at 1. cbn [fold_right]. lra.
Qed.

Lemma py_sum_filter_truthy (mols : list Molecule) :
  py_sum (filter_truthy (map mol_energy mols))
  = total (map energy_or_zero mols).
Proof.
  unfold py_sum. rewrite py_sum_from, total_filter_truthy. lra.
Qed.

(** X27.  In [calc_delta_e] a molecule without an energy counts as a
    molecule of energy zero: the result is the conversion factor times the
    difference of the totals over products and reactants. *)
Theorem delta_e_counts_missing_energies_as_zero
        (self : Reaction) (units : Units) :
  calc_delta_e self units
  = conversion units
    * (total (map energy_or_zero (prods self))
       - total (map energy_or_zero (reacs self))).
Proof.
  unfold calc_delta_e. rewrite !py_sum_filter_truthy. reflexivity.
Qed.

(** X28.  For a reaction with a transition state that has an energy, the
    barrier of the reaction minus the barrier of the reverse reaction, in
    the same units, is the reaction energy; and the reaction energy of the
    reverse reaction is the opposite. *)
Theorem barriers_differ_by_reaction_energy
        (self : Reaction) (units : Units) (t : TransitionState) (e : R)
        (ty : ReactionType) :
  ts self = Some t ->
  ts_energy t = Some e ->
  exists forward backward,
    calc_delta_e_ddagger self units = Some forward /\
    calc_delta_e_ddagger (swap_reacs_prods self ty) units = Some backward /\
    forward - backward = calc_delta_e self units /\
    calc_delta_e (swap_reacs_prods self ty) units
    = - calc_delta_e self units.
Proof.
  intros Ht He. unfold calc_delta_e_ddagger, calc_delta_e.
  cbn [swap_reacs_prods ts reacs prods]. rewrite Ht, He.
  eexists. eexists. split; [reflexivity|]. split; [reflexivity|].
  split; ring.
Qed.

End ContainerMore.

Lemma checked_solvents_agree_witness :
  Forall (fun m => mol_solvent m = rxn_solvent wet_reaction_checked)
         (reacs wet_reaction_checked ++ prods wet_reaction_checked).
Proof.
  apply (checked_solvents_agree wet_reaction wet_reaction_checked).
  reflexivity.
Defined.

Lemma partly_solvated_raises_attribute_error_witness :
  _check_solvent mixed_reaction = Raise AttributeError.
Proof.
  apply (partly_solvated_raises_attribute_error mixed_reaction dry_product
           wet_reactant).
  - reflexivity.
  - right. left. reflexivity.
  - reflexivity.
  - left. reflexivity.
  - discriminate.
Defined.

Lemma different_solvents_raise_witness :
  _check_solvent clashing_reaction = Raise SolventsDontMatch.
Proof.
  apply (different_solvents_raise clashing_reaction wet_reactant
           oily_product []).
  - reflexivity.
  - reflexivity.
  - repeat constructor; discriminate.
  - right. left. reflexivity.
  - discriminate.
Defined.

Lemma addition_becomes_dissociation_witness :
  rxn_type addition_result <> Addition /\
  (classify
     (of_kind IsReactant
              [Some methyl_cation; Some chloride; Some chloromethane; None;
               None; None])
     (of_kind IsProduct
              [Some methyl_cation; Some chloride; Some chloromethane; None;
               None; None])
   = Addition ->
   rxn_type addition_result = Dissociation /\
   switched_reacs_prods addition_result = true /\
   map mol_name (reacs addition_result)
   = map mol_name
         (of_kind IsProduct
                  [Some methyl_cation; Some chloride; Some chloromethane;
                   None; None; None]) /\
   map mol_name (prods addition_result)
   = map mol_name
         (of_kind IsReactant
                  [Some methyl_cation; Some chloride; Some chloromethane;
                   None; None; None])).
Proof.
  apply (addition_becomes_dissociation
           (Some methyl_cation) (Some chloride) (Some chloromethane)
           None None None "add" None addition_result).
  reflexivity.
Defined.

Lemma find_lowest_energy_ts_errors_witness :
  @find_lowest_energy_ts _ sparse_env half_converged = Raise TypeError.
Proof.
  apply (proj2 (@find_lowest_energy_ts_errors _ sparse_env half_converged)
               [("ts0"%string, 2); ("unconverged"%string, 0)]
               ("unconverged"%string, 0)).
  - reflexivity.
  - cbn. lia.
  - right. left. reflexivity.
  - reflexivity.
Defined.

Lemma located_ts_is_one_of_those_found_witness :
  reacs located_small = reacs small_reaction /\
  prods located_small = prods small_reaction /\
  ((tss located_small = None /\ ts located_small = None) \/
   (exists l t,
       tss located_small = Some l /\ l <> [] /\
       ts located_small = Some t /\ In t l)).
Proof.
  apply (located_ts_is_one_of_those_found small_reaction located_small).
  reflexivity.
Defined.

Lemma barriers_differ_by_reaction_energy_witness :
  exists forward backward,
    calc_delta_e_ddagger ring_closure kcal_mol = Some forward /\
    calc_delta_e_ddagger (swap_reacs_prods ring_closure Rearrangement)
                         kcal_mol = Some backward /\
    forward - backward = calc_delta_e ring_closure kcal_mol /\
    calc_delta_e (swap_reacs_prods ring_closure Rearrangement) kcal_mol
    = - calc_delta_e ring_closure kcal_mol.
Proof.
  apply (barriers_differ_by_reaction_energy ring_closure kcal_mol
           ("ts"%string, -7) (-7) Rearrangement).
  - reflexivity.
  - reflexivity.
Defined.

End ReactionMore.

(* ------------------------------------------------------------------ *)
(** ** wrappers/ORCA.py *)

Module OrcaFacts.

Import Orca.
Local Open Scope string_scope.

Lemma terminated_loop_window (reversed_lines : list string) :
  forall n_line : nat,
    (n_line <= 31)%nat ->
    terminated_loop n_line reversed_lines
    = existsb is_termination_line (firstn (32 - n_line) reversed_lines).
Proof.
  induction reversed_lines as [|line rest IH]; intros n Hn.
  - rewrite firstn_nil. reflexivity.
  - replace (32 - n)%nat with (S (31 - n)) by lia.
    cbn [terminated_loop firstn existsb].
    destruct (is_termination_line line); [reflexivity|]. cbn [orb].
    destruct (Nat.ltb 30 n) eqn:E.
    + apply Nat.ltb_lt in E. replace (31 - n)%nat with 0%nat by lia.
      reflexivity.
    + apply Nat.ltb_ge in E. rewrite IH by lia.
      replace (32 - S n)%nat with (31 - n)%nat by lia. reflexivity.
Qed.

(** X29.  ORCA's termination check looks at the last 32 lines of the
    output and at nothing else: it answers True exactly when one of them
    contains a termination string. *)
Theorem termination_is_read_off_the_last_32_lines
        (file_lines : list string) :
  calculation_terminated_normally file_lines
  = existsb is_termination_line (firstn 32 (rev file_lines)).
Proof.
  unfold calculation_terminated_normally.
  rewrite terminated_loop_window by lia. reflexivity.
Qed.

Lemma dict_get_in_keys (d : list (string * string)) (s : string) :
  in_keys d (Some s) = true <-> exists v, dict_get d s = Some v.
Proof.
  induction d as [|[k v] d IH]; cbn.
  - split; [discriminate|intros [v H]; discriminate].
  - destruct (String.eqb k s); cbn.
    + split; [intros _; eauto|reflexivity].
    + exact IH.
Qed.

(** X30.  [add_solvent_keyword] succeeds exactly when the solvation type
    is smd or cpcm (in any case) and the solvent is a key of the table of
    solvents; it then appends the one keyword [CPCM(name)], for smd as
    well.  With smd and a solvent that is not in the table it raises
    KeyError, not UnsuppportedCalculationInput. *)
Theorem solvent_keyword_needs_a_tabulated_solvent
        (solvent : option string) (keywords : list string)
        (implicit_solv_type : string) :
  (forall keywords',
      add_solvent_keyword solvent keywords implicit_solv_type
      = inl keywords' <->
      (lower implicit_solv_type = "smd"
       \/ lower implicit_solv_type = "cpcm") /\
      exists s v,
        solvent = Some s /\
        dict_get vdw_gaussian_solvent_dict s = Some v /\
        keywords' = (keywords ++ [("CPCM(" ++ v ++ ")")%string])%list) /\
  (lower implicit_solv_type = "smd" ->
   in_keys vdw_gaussian_solvent_dict solvent = false ->
   add_solvent_keyword solvent keywords implicit_solv_type = inr KeyError).
Proof.
  unfold add_solvent_keyword. cbn [existsb].
  split.
  - intros keywords'.
    destruct (String.eqb (lower implicit_solv_type) "smd") eqn:Esmd;
      destruct (String.eqb (lower implicit_solv_type) "cpcm") eqn:Ecpcm;
      cbn [orb negb].
    + apply String.eqb_eq in Esmd, Ecpcm. congruence.
    + apply String.eqb_eq in Esmd.
      unfold use_vdw_gaussian_solvent. rewrite Ecpcm. cbn [negb andb].
      destruct solvent as [s|].
      * destruct (dict_get vdw_gaussian_solvent_dict s) as [v|] eqn:Eg.
        -- split.
           ++ intros H; inversion H; subst. split; [left; exact Esmd|].
              exists s, v. auto.
           ++ intros (_ & s' & v' & Hs & Hv & ->). inversion Hs; subst.
              rewrite Eg in Hv. inversion Hv; subst. reflexivity.
        -- split; [discriminate|].
           intros (_ & s' & v' & Hs & Hv & _). inversion Hs; subst.
           congruence.
      * split; [discriminate|].
        intros (_ & s' & v' & Hs & _). discriminate.
    + apply String.eqb_eq in Ecpcm.
      destruct solvent as [s|].
      * destruct (dict_get vdw_gaussian_solvent_dict s) as [v|] eqn:Eg.
        -- assert (Hk : in_keys vdw_gaussian_solvent_dict (Some s) = true)
             by (apply dict_get_in_keys; eauto).
           rewrite Hk. cbn [negb]. rewrite andb_false_r. split.
           ++ intros H; inversion H; subst. split; [right; exact Ecpcm|].
              exists s, v. auto.
           ++ intros (_ & s' & v' & Hs & Hv & ->). inversion Hs; subst.
              rewrite Eg in Hv. inversion Hv; subst. reflexivity.
        -- destruct (_ && _); (split; [discriminate|]);
             intros (_ & s' & v' & Hs & Hv & _); inversion Hs; subst;
             congruence.
      * destruct (_ && _); (split; [discriminate|]);
          intros (_ & s' & v' & Hs & _); discriminate.
    + split; [discriminate|].
      apply String.eqb_neq in Esmd, Ecpcm. intros ([H|H] & _); contradiction.
  - intros Hsmd Hk.
    assert (Es : String.eqb (lower implicit_solv_type) "smd" = true)
      by (apply String.eqb_eq; exact Hsmd).
    rewrite Es. cbn [orb negb].
    unfold use_vdw_gaussian_solvent. rewrite Hsmd. cbn [String.eqb negb andb].
    change (String.eqb "smd" "cpcm") with false. cbn [negb andb].
    destruct solvent as [s|]; [|reflexivity].
    destruct (dict_get vdw_gaussian_solvent_dict s) as [v|] eqn:Eg;
      [|reflexivity].
    assert (Hin : in_keys vdw_gaussian_solvent_dict (Some s) = true)
      by (apply dict_get_in_keys; eauto).
    congruence.
Qed.

End OrcaFacts.
